(** * assortedbricks: inventory normalisation, cache, enrichment, label
      hierarchy, clustering and rendering

    A shallow embedding of the Python sources under [assortedbricks/]:
    the format adapters' [clean], [data/database.py],
    [data/brickarchitect.py], [inventory.py], [cluster.py] and the seed
    handling of [assortedbricks.py].

    Conventions.  A pandas DataFrame of integers is a list of column names
    with row-major integer data; the [parts] table of the SQLite cache is the
    list of its rows in rowid order; Python exceptions are the [Raise] side of
    a small error monad; the remote services, scikit-learn's k-means and
    Python's [re] engine enter as Section variables. *)

From Stdlib Require Import ZArith List String Ascii Bool Lia Arith.
From Stdlib Require Import DecimalString DecimalPos Permutation Sorting.Sorted.
Import ListNotations.

Open Scope string_scope.
Open Scope list_scope.
Open Scope Z_scope.

(* ===================================================================== *)
(** ** Python values: exceptions, strings, integers                       *)
(* ===================================================================== *)

Module Py.

(** The exception classes that the modelled code can meet. *)
Inductive exn : Type :=
| ValueError
| InvalidParameterError      (* sklearn, a subclass of ValueError *)
| TypeError
| KeyError
| AttributeError
| HTTPError                  (* requests.exceptions.HTTPError *)
| ConnectionError            (* requests.exceptions.ConnectionError *)
| Timeout                    (* requests.exceptions.Timeout *)
| IntegrityError             (* sqlite3.IntegrityError *)
| ReError                    (* re.error *)
| AssertionError.

(** [except ValueError] also catches sklearn's InvalidParameterError. *)
Definition is_ValueError (e : exn) : bool :=
  match e with
  | ValueError | InvalidParameterError => true
  | _ => false
  end.

Inductive result (A : Type) : Type :=
| Ok (a : A)
| Raise (e : exn).
Arguments Ok {A} a.
Arguments Raise {A} e.

Definition bind {A B : Type} (m : result A) (k : A -> result B) : result B :=
  match m with
  | Ok a => k a
  | Raise e => Raise e
  end.

(** [try: body  except <classes>: handler]. *)
Definition try_except {A : Type} (body : result A) (catches : exn -> bool)
           (handler : result A) : result A :=
  match body with
  | Ok a => Ok a
  | Raise e => if catches e then handler else Raise e
  end.

Fixpoint mapM {A B : Type} (f : A -> result B) (l : list A) : result (list B) :=
  match l with
  | [] => Ok []
  | x :: l' =>
      bind (f x) (fun y => bind (mapM f l') (fun ys => Ok (y :: ys)))
  end.

Definition succeeds {A : Type} (m : result A) : Prop := exists a, m = Ok a.

(** *** int64 columns *)

Definition wrap64 (z : Z) : Z := (z + 2 ^ 63) mod 2 ^ 64 - 2 ^ 63.

(** Sum of an int64 column: numpy adds modulo 2^64. *)
Definition sum_int64 (l : list Z) : Z := wrap64 (fold_right Z.add 0 l).

(** *** strings *)

Definition is_digit (c : ascii) : bool :=
  let n := nat_of_ascii c in (48 <=? n)%nat && (n <=? 57)%nat.

Definition digit_val (c : ascii) : Z := Z.of_nat (nat_of_ascii c) - 48.

(** [str(n)] for an integer. *)
Definition str (z : Z) : string := NilZero.string_of_int (Z.to_int z).

(** [sep.join(l)]. *)
Fixpoint join (sep : string) (l : list string) : string :=
  match l with
  | [] => ""
  | [x] => x
  | x :: l' => x ++ sep ++ join sep l'
  end.

(** [s.split(sep)] for a one-character separator: never empty,
    [''.split(',') = ['']]. *)
Fixpoint split (sep : ascii) (s : string) : list string :=
  match s with
  | EmptyString => [""]
  | String c s' =>
      if Ascii.eqb c sep then "" :: split sep s'
      else match split sep s' with
           | h :: t => String c h :: t
           | [] => [String c ""]
           end
  end.

(** [needle in hay] for strings. *)
Fixpoint starts_with (p s : string) : bool :=
  match p, s with
  | EmptyString, _ => true
  | String a p', String b s' => Ascii.eqb a b && starts_with p' s'
  | String _ _, EmptyString => false
  end.

Fixpoint is_substring (p s : string) : bool :=
  starts_with p s ||
  match s with
  | EmptyString => false
  | String _ s' => is_substring p s'
  end.

Fixpoint string_forallb (f : ascii -> bool) (s : string) : bool :=
  match s with
  | EmptyString => true
  | String c s' => f c && string_forallb f s'
  end.

(** Membership of a string in a list, [x in l]. *)
Definition mem (x : string) (l : list string) : bool :=
  existsb (String.eqb x) l.

(** Insertion of a key into a dict that keeps insertion order. *)
Definition dict_step (keys : list string) (x : string) : list string :=
  if mem x keys then keys else keys ++ [x].

(** [list(dict.fromkeys(l))]: first occurrences, in order. *)
Definition dict_fromkeys (l : list string) : list string :=
  fold_left dict_step l [].

End Py.

Import Py.

Notation "x <- m ;; k" := (Py.bind m (fun x => k))
  (at level 61, m at next level, right associativity).

(* ===================================================================== *)
(** ** Format adapters: [clean]                                           *)
(* ===================================================================== *)

Module Adapter.

(** A raw table after the column selection and renaming that opens each
    [clean]: the identity column holds text (the [.str] accessor requires
    it), the quantity column int64. *)
Definition RawTable := list (string * Z).

(** A cleaned table: [DesignID] and [Quantity], both int64. *)
Definition PartTable := list (Z * Z).

(** [Series.str.extract(r'^(\d+)')[0]]: the leading digit run, NaN
    ([None]) when the text does not start with a digit.  Texts are ASCII, as
    the part numbers of the catalogues are. *)
Fixpoint leading_digits (s : string) : string :=
  match s with
  | EmptyString => ""
  | String c s' => if is_digit c then String c (leading_digits s') else ""
  end.

Definition str_extract (s : string) : option string :=
  match leading_digits s with
  | EmptyString => None
  | d => Some d
  end.

(** One step of grouping: add [q] to the group of key [k], opening the
    group at the end when the key is new. *)
Fixpoint add_to_group (k : string) (q : Z) (groups : list (string * list Z))
  : list (string * list Z) :=
  match groups with
  | [] => [(k, [q])]
  | (k', qs) :: rest =>
      if String.eqb k k' then (k', qs ++ [q]) :: rest
      else (k', qs) :: add_to_group k q rest
  end.

Definition group_rows (rows : list (option string * Z))
  : list (string * list Z) :=
  fold_left (fun groups row =>
               match fst row with
               | Some k => add_to_group k (snd row) groups
               | None => groups                      (* NaN keys are dropped *)
               end) rows [].

(** Stable insertion sort by a key. *)
Section SortBy.
Context {A : Type} (leb : A -> A -> bool).

Fixpoint insert_by (x : A) (l : list A) : list A :=
  match l with
  | [] => [x]
  | y :: l' => if leb x y then x :: l else y :: insert_by x l'
  end.

Definition sort_by (l : list A) : list A := fold_right insert_by [] l.
End SortBy.

(** [df.groupby('DesignID')['Quantity'].sum().reset_index()] on the text
    keys: one row per distinct key, keys in ascending (text) order. *)
Definition groupby_sum (rows : list (option string * Z)) : list (string * Z) :=
  map (fun g => (fst g, sum_int64 (snd g)))
      (sort_by (fun a b => String.leb (fst a) (fst b)) (group_rows rows)).

(** [int(s)] on a digit run. *)
Definition int_of_digits (s : string) : Z :=
  (fix go (acc : Z) (s : string) : Z :=
     match s with
     | EmptyString => acc
     | String c s' => go (10 * acc + digit_val c) s'
     end) 0 s.

(** [df.sort_values(by='DesignID', ascending=True)]. *)
Definition sort_values (t : PartTable) : PartTable :=
  sort_by (fun a b => fst a <=? fst b) t.

(** The steps shared by every adapter's [clean], in the source's order:
    extract, group and sum on the text key, convert to int, sort. *)
Definition clean_steps (raw : RawTable) : PartTable :=
  let df := map (fun r => (str_extract (fst r), snd r)) raw in
  let df := groupby_sum df in
  let df := map (fun r => (int_of_digits (fst r), snd r)) df in
  sort_values df.

(** [RebrickableCSV.clean] (also [RebrickableJSON.clean] and
    [BrickStoreXML.clean], which differ in the column names only). *)
Definition RebrickableCSV_clean (raw : RawTable) : PartTable := clean_steps raw.

(** [LDCadPBG.clean]: the quantities arrive as the digit runs of the
    [count=(\d+)] group and are converted first.  [load] leaves [self.df]
    at [None] when no line of the file matched, and subscripting it is a
    TypeError. *)
Definition LDCadPBG_clean (raw : list (string * string)) : result PartTable :=
  match raw with
  | [] => Raise TypeError
  | _ => Ok (clean_steps (map (fun r => (fst r, int_of_digits (snd r))) raw))
  end.

(** The identities of a raw table that normalise to the integer [d], with
    their quantities. *)
Definition contributions (d : Z) (raw : RawTable) : list Z :=
  map snd (filter (fun r => match str_extract (fst r) with
                            | Some k => int_of_digits k =? d
                            | None => false
                            end) raw).

End Adapter.

(* ===================================================================== *)
(** ** [data/database.py]: the metadata cache                             *)
(* ===================================================================== *)

Module Database.

(** A calendar date, as [datetime.date] compares it. *)
Record date : Type := { year : Z; month : Z; day : Z }.

Definition date_ltb (a b : date) : bool :=
  (year a <? year b)
  || ((year a =? year b)
      && ((month a <? month b)
          || ((month a =? month b) && (day a <? day b)))).

(** [datetime.now()]: a date and the time of day in seconds. *)
Record datetime : Type := { to_date : date; seconds : Z }.

(** A row of the [parts] table.  [Labels] and [Updated] are NOT NULL,
    [Image] is nullable; [Updated] holds the text written by
    [strftime('%Y-%m-%d')], here the date it denotes. *)
Record Row : Type :=
  { DesignID : Z; Labels : string; Image : option string; Updated : date }.

(** The table, in rowid order. *)
Definition table := list Row.

Definition in_ids (ids : list Z) (d : Z) : bool := existsb (Z.eqb d) ids.

(** [SELECT DesignID, Labels FROM parts WHERE DesignID IN (ids)]. *)
Definition get_labels_dataframe (ids : list Z) (db : table) : list (Z * string) :=
  map (fun r => (DesignID r, Labels r))
      (filter (fun r => in_ids ids (DesignID r)) db).

(** The UNIQUE constraint on [DesignID]. *)
Fixpoint unique_ids (ids : list Z) : bool :=
  match ids with
  | [] => true
  | d :: rest => negb (in_ids rest d) && unique_ids rest
  end.

(** [parts_df.to_sql("parts", ..., if_exists="append")]: the rows are
    appended, or the insert fails on the UNIQUE constraint. *)
Definition append_parts_dataframe (parts_df : list Row) (db : table)
  : result table :=
  if unique_ids (map DesignID (db ++ parts_df))
  then Ok (db ++ parts_df)
  else Raise IntegrityError.

(** [SELECT DesignID, Updated FROM parts
     WHERE DesignID IN (ids) AND Image IS NULL].  The query has no
    ORDER BY, so the order of its answer is SQLite's choice; the rows are
    taken in table order here. *)
Definition get_missing_images (ids : list Z) (db : table) : list (Z * date) :=
  map (fun r => (DesignID r, Updated r))
      (filter (fun r => in_ids ids (DesignID r)
                        && match Image r with None => true | Some _ => false end)
              db).

(** How the f-string of [update_image] renders its [image] argument. *)
Definition format_image (image : option string) : string :=
  match image with
  | Some s => s
  | None => "None"
  end.

(** [UPDATE parts SET Image="{image}", Updated="{today}"
     WHERE DesignID={design_id}]. *)
Definition update_image (today : date) (design_id : Z) (image : option string)
           (db : table) : table :=
  map (fun r =>
         if DesignID r =? design_id
         then {| DesignID := DesignID r; Labels := Labels r;
                 Image := Some (format_image image); Updated := today |}
         else r) db.

(** [fetch_part_image]: [fetchone()[0]] of
    [SELECT Image FROM parts WHERE DesignID={design_id}]; [fetchone()] is
    [None] when no row matches, and subscripting it is a TypeError. *)
Definition fetch_part_image (design_id : Z) (db : table)
  : result (option string) :=
  match filter (fun r => DesignID r =? design_id) db with
  | [] => Raise TypeError
  | r :: _ => Ok (Image r)
  end.

(** [SELECT Image FROM parts WHERE DesignID IN (ids)
     ORDER BY DesignID ASC]. *)
Definition get_images_for_cluster (ids : list Z) (db : table)
  : list (option string) :=
  map Image
      (Adapter.sort_by (fun a b => DesignID a <=? DesignID b)
                       (filter (fun r => in_ids ids (DesignID r)) db)).

End Database.

(* ===================================================================== *)
(** ** [data/brickarchitect.py]: the remote taxonomy and image service    *)
(* ===================================================================== *)

Module BrickArchitect.

(** What [get_labels] reads of the answer to its GET: the final URL
    (after redirects) and the texts of the anchors of the
    [div.chapternav], [None] when the page has no such div. *)
Record PartPage : Type :=
  { url : string; chapternav : option (list string) }.

(** What [get_image] reads of the answer to its GET. *)
Record PngResponse : Type := { status_code : Z; content : string }.

(** [response.raise_for_status()]. *)
Definition raise_for_status (r : PngResponse) : result unit :=
  if (400 <=? status_code r) && (status_code r <? 600)
  then Raise HTTPError else Ok tt.

(** The remote service: the outcome of [requests.get] on the page of a
    part and on the image of a part ([Raise] when [requests.get] itself
    raises), and [base64.b64encode]. *)
Record Remote : Type :=
  { get_page : string -> result PartPage;
    get_png : string -> result PngResponse;
    b64encode : string -> string }.

Section Service.
Variable remote : Remote.

Definition catches_labels (e : exn) : bool :=
  match e with HTTPError | AttributeError => true | _ => false end.

(** [get_labels(partid)]. *)
Definition get_labels (partid : string) : result (string * string) :=
  let new_part := partid in
  let labels := "Lego" in
  try_except
    (response <- get_page remote partid ;;
     labels_a <- match chapternav response with
                 | Some anchors => Ok anchors
                 | None => Raise AttributeError    (* None.find_all *)
                 end ;;
     match labels_a with
     | first :: rest =>
         let labels_a :=
           if String.eqb first "The LEGO Parts Guide"
           then "Lego" :: rest else labels_a in
         Ok (last (split "/" (url response)) "", join "," labels_a)
     | [] => Ok (new_part, labels)
     end)
    catches_labels
    (Ok (new_part, labels)).

Definition catches_image (e : exn) : bool :=
  match e with HTTPError => true | _ => false end.

(** [get_image(partid)]. *)
Definition get_image (partid : string) : result (option string) :=
  try_except
    (response <- get_png remote partid ;;
     _ <- raise_for_status response ;;
     Ok (Some (b64encode remote (content response))))
    catches_image
    (Ok None).

(** [fetch_part_info(partid)]: the part id arrives as an integer of the
    working set and is formatted into the URL. *)
Definition fetch_part_info (partid : Z)
  : result (Z * string * option string) :=
  r <- get_labels (str partid) ;;
  let new_partid := fst r in
  let new_labels := snd r in
  new_image <- get_image new_partid ;;
  Ok (partid, new_labels, new_image).

End Service.



End BrickArchitect.

(* ===================================================================== *)
(** ** pandas DataFrames of integers                                      *)
(* ===================================================================== *)

Module Frame.

Record DataFrame : Type :=
  { columns : list string; data : list (list Z) }.

Fixpoint index_of (name : string) (cols : list string) : option nat :=
  match cols with
  | [] => None
  | c :: cols' =>
      if String.eqb name c then Some O
      else option_map S (index_of name cols')
  end.

Definition cell (i : nat) (row : list Z) : Z := nth i row 0.

(** [df[name]], a KeyError when there is no such column. *)
Definition column (name : string) (df : DataFrame) : result (list Z) :=
  match index_of name (columns df) with
  | Some i => Ok (map (cell i) (data df))
  | None => Raise KeyError
  end.

(** [df.iloc[:, k:]]. *)
Definition iloc_from (k : nat) (df : DataFrame) : DataFrame :=
  {| columns := skipn k (columns df); data := map (skipn k) (data df) |}.

Fixpoint set_nth (i : nat) (v : Z) (row : list Z) : list Z :=
  match i, row with
  | _, [] => []
  | O, _ :: row' => v :: row'
  | S i', x :: row' => x :: set_nth i' v row'
  end.

Fixpoint remove_nth {A : Type} (i : nat) (l : list A) : list A :=
  match i, l with
  | _, [] => []
  | O, _ :: l' => l'
  | S i', x :: l' => x :: remove_nth i' l'
  end.

(** [df[name] = values]: overwrites the column in place when it exists,
    appends it as the last column otherwise. *)
Definition set_column (name : string) (values : list Z) (df : DataFrame)
  : DataFrame :=
  match index_of name (columns df) with
  | Some i =>
      {| columns := columns df;
         data := map (fun rv => set_nth i (snd rv) (fst rv))
                     (combine (data df) values) |}
  | None =>
      {| columns := columns df ++ [name];
         data := map (fun rv => fst rv ++ [snd rv])
                     (combine (data df) values) |}
  end.

(** [df.drop(name, axis=1)]. *)
Definition drop (name : string) (df : DataFrame) : result DataFrame :=
  match index_of name (columns df) with
  | Some i => Ok {| columns := remove_nth i (columns df);
                    data := map (remove_nth i) (data df) |}
  | None => Raise KeyError
  end.

(** [x[name]] on a row of [df]. *)
Definition lookup (name : string) (cols : list string) (row : list Z)
  : result Z :=
  match index_of name cols with
  | Some i => Ok (cell i row)
  | None => Raise KeyError
  end.

End Frame.

(* ===================================================================== *)
(** ** [cluster.py]                                                       *)
(* ===================================================================== *)

Module Cluster.
Import Frame.

(** A row of the returned frame [clusters[['label','Quantity','DesignIDs']]];
    [DesignIDs] is the [', '.join] text of the member ids. *)
Record ClusterSummary : Type :=
  { label : string; Quantity : Z; DesignIDs : string }.

(** First occurrences of a list of integers. *)
Definition distinct (l : list Z) : list Z :=
  fold_left (fun seen x => if existsb (Z.eqb x) seen then seen else seen ++ [x])
            l [].

Section KMeans.
(** scikit-learn's fitted assignment [KMeans(n_clusters, random_state)
    .fit(X, sample_weight).labels_]: one label per sample. *)
Variable kmeans_labels : list (list Z) -> list Z -> Z -> option Z -> list Z.

(** scikit-learn is a library the repository calls, not part of it; its two
    entry points are embedded by the checks they document.

    [KMeans(...).fit(X, sample_weight=w)] as scikit-learn validates it:
    parameter constraints first (InvalidParameterError), then the input
    array (at least one sample and one feature), then
    [n_samples >= n_clusters]. *)
Definition KMeans_fit (X : DataFrame) (w : list Z) (n_clusters : Z)
           (random_state : option Z) : result (list Z) :=
  if n_clusters <? 1 then Raise InvalidParameterError
  else if match random_state with
          | Some s => (s <? 0) || (2 ^ 32 - 1 <? s)
          | None => false
          end then Raise InvalidParameterError
  else if (List.length (data X) =? 0)%nat || (List.length (columns X) =? 0)%nat
       then Raise ValueError
  else if Z.of_nat (List.length (data X)) <? n_clusters then Raise ValueError
  else Ok (kmeans_labels (data X) w n_clusters random_state).

(** [silhouette_score(X, labels)]: the number of distinct labels must be
    between 2 and [n_samples - 1]. *)
Definition silhouette_score (X : DataFrame) (labels : list Z) : result unit :=
  let n_labels := List.length (distinct labels) in
  let n_samples := List.length (data X) in
  if (1 <? n_labels)%nat && (n_labels <? n_samples)%nat
  then Ok tt else Raise ValueError.

(** [clusters.groupby('cluster')[columns].sum().reset_index()]. *)
Definition groupby_cluster_sum (clusters : DataFrame) (cols : list string)
  : result DataFrame :=
  keys <- column "cluster" clusters ;;
  idx <- mapM (fun c => match index_of c (columns clusters) with
                        | Some i => Ok i
                        | None => Raise KeyError
                        end) cols ;;
  let ci := match index_of "cluster" (columns clusters) with
            | Some i => i | None => O end in
  let group key := filter (fun r => cell ci r =? key) (data clusters) in
  Ok {| columns := "cluster" :: cols;
        data := map (fun key =>
                       key :: map (fun i => sum_int64 (map (cell i) (group key)))
                                  idx)
                    (Adapter.sort_by Z.leb (distinct keys)) |}.

(** The list comprehension of the label lambda on the row [x]. *)
Fixpoint qualifying (cols : list string) (all_cols : list string)
         (x : list Z) : result (list string) :=
  match cols with
  | [] => Ok []
  | col :: cols' =>
      if String.eqb col "Lego" then qualifying cols' all_cols x
      else
        v <- lookup col all_cols x ;;
        lego <- lookup "Lego" all_cols x ;;
        rest <- qualifying cols' all_cols x ;;
        Ok (if v =? lego then col :: rest else rest)
  end.

(** [list.remove(x)]: the first occurrence. *)
Fixpoint list_remove (x : string) (l : list string) : list string :=
  match l with
  | [] => []
  | y :: l' => if String.eqb x y then l' else y :: list_remove x l'
  end.

(** [kmeans_clusters(input_df, num_clusters, seed)].  The frame passed in
    is mutated by [input_df['cluster'] = kmeans.labels_]; the frame the
    caller holds afterwards is returned next to the result. *)
Definition kmeans_clusters (input_df : DataFrame) (num_clusters : Z)
           (seed : option Z) : result (DataFrame * list ClusterSummary) :=
  let features_df := iloc_from 2 input_df in
  sample_weights <- column "Quantity" input_df ;;
  labels <- KMeans_fit features_df sample_weights num_clusters seed ;;
  _ <- silhouette_score features_df labels ;;
  let input_df := set_column "cluster" labels input_df in
  clusters <- drop "DesignID" input_df ;;
  let cols := list_remove "cluster" (columns clusters) in
  clusters <- groupby_cluster_sum clusters cols ;;
  ids <- column "DesignID" input_df ;;
  assigned <- column "cluster" input_df ;;
  summaries <-
    mapM (fun x =>
            terms <- qualifying (skipn 2 (columns clusters))
                                (columns clusters) x ;;
            let lbl := join ", " terms in
            let lbl := if String.eqb lbl "" then "Other" else lbl in
            q <- lookup "Quantity" (columns clusters) x ;;
            key <- lookup "cluster" (columns clusters) x ;;
            let members :=
              map fst (filter (fun ia => snd ia =? key) (combine ids assigned)) in
            Ok {| label := lbl; Quantity := q;
                  DesignIDs := join ", " (map str members) |})
         (data clusters) ;;
  Ok (input_df,
      Adapter.sort_by (fun a b => Quantity a <=? Quantity b) summaries).

End KMeans.

End Cluster.

(* ===================================================================== *)
(** ** [inventory.py]                                                     *)
(* ===================================================================== *)

Module Inventory.
Import Frame.

(** A row of the working set between [merge_with_database] and
    [create_labels_hirarchy]: [Labels] is NaN ([None]) for a part the
    cache does not know. *)
Record Part : Type :=
  { DesignID : Z; Quantity : Z; Labels : option string }.

(** [merge(input_df, database_df, on='DesignID', how='left')]. *)
Definition merge_with_database (input_df : Adapter.PartTable)
           (db : Database.table) : list Part :=
  let design_ids := map fst input_df in
  let database_df := Database.get_labels_dataframe design_ids db in
  flat_map (fun r =>
              match filter (fun d => fst d =? fst r) database_df with
              | [] => [{| DesignID := fst r; Quantity := snd r; Labels := None |}]
              | hits => map (fun d => {| DesignID := fst r; Quantity := snd r;
                                         Labels := Some (snd d) |}) hits
              end) input_df.

(** [self.df.loc[self.df['DesignID'] == part, 'Labels'] = new_labels]. *)
Definition set_labels (part : Z) (new_labels : string) (df : list Part)
  : list Part :=
  map (fun r => if DesignID r =? part
                then {| DesignID := DesignID r; Quantity := Quantity r;
                        Labels := Some new_labels |}
                else r) df.

Definition isna (r : Part) : bool :=
  match Labels r with None => true | Some _ => false end.

Section Enrichment.
Variable remote : BrickArchitect.Remote.

(** The one-row frame built from the result of a future. *)
Definition new_row (today : Database.date)
           (r : Z * string * option string) : Database.Row :=
  let '(part, new_labels, new_image) := r in
  {| Database.DesignID := part; Database.Labels := new_labels;
     Database.Image := new_image; Database.Updated := today |}.

(** The loop over the futures of [fetch_missing_parts]: results are
    taken in submission order. *)
Fixpoint collect_parts (today : Database.date)
         (results : list (Z * string * option string))
         (new_parts_df : list Database.Row) (df : list Part)
  : list Database.Row * list Part :=
  match results with
  | [] => (new_parts_df, df)
  | r :: rest =>
      collect_parts today rest
        (new_parts_df ++ [new_row today r])
        (set_labels (fst (fst r)) (snd (fst r)) df)
  end.

(** [fetch_missing_parts]: one task per unknown part; [future.result()]
    re-raises what the task raised. *)
Definition fetch_missing_parts (now : Database.datetime)
           (df : list Part) (db : Database.table)
  : result (list Part * Database.table) :=
  let unknown_parts := map DesignID (filter isna df) in
  if (0 <? List.length unknown_parts)%nat then
    let today := Database.to_date now in
    results <- mapM (BrickArchitect.fetch_part_info remote) unknown_parts ;;
    let '(new_parts_df, df) := collect_parts today results [] df in
    db <- Database.append_parts_dataframe new_parts_df db ;;
    Ok (df, db)
  else Ok (df, db).

(** The loop of [update_images] over the rows read up front; the second
    component logs the parts whose image was fetched.  The run is taken
    at one instant [now]. *)
Fixpoint update_rows (now : Database.datetime)
         (rows : list (Z * Database.date))
         (db : Database.table) (fetched : list Z)
  : result (Database.table * list Z) :=
  match rows with
  | [] => Ok (db, fetched)
  | (part, fetch_date) :: rest =>
      if Database.date_ltb fetch_date (Database.to_date now) then
        new_image <- BrickArchitect.get_image remote (str part) ;;
        update_rows now rest
          (Database.update_image (Database.to_date now) part new_image db)
          (fetched ++ [part])
      else update_rows now rest db fetched
  end.

Definition update_images (now : Database.datetime) (df : list Part)
           (db : Database.table) : result (Database.table * list Z) :=
  let design_ids := map DesignID df in
  let rows := Database.get_missing_images design_ids db in
  update_rows now rows db [].

End Enrichment.

(** *** The label hierarchy *)

(** [labels_len]: the longest label path. *)
Definition labels_len (labels_array : list (list string)) : nat :=
  fold_left (fun n subarray =>
               if (n <? List.length subarray)%nat then List.length subarray else n)
            labels_array O.

(** The inner loop at depth [i]: the terms that the records have there. *)
Definition level (labels_array : list (list string)) (i : nat) : list string :=
  flat_map (fun subarray =>
              match nth_error subarray i with
              | Some term => [term]
              | None => []
              end) labels_array.

(** The two nested loops that fill [all_labels], depth by depth. *)
Definition collect_labels (labels_array : list (list string)) : list string :=
  flat_map (level labels_array) (seq 0 (labels_len labels_array)).

Definition truthy (label : string) : bool := negb (String.eqb label "").

(** [self.df['Labels'].str.split(',')]; taking [len] of a NaN entry is a
    TypeError. *)
Definition labels_array (df : list Part) : result (list (list string)) :=
  mapM (fun r => match Labels r with
                 | Some s => Ok (split "," s)
                 | None => Raise TypeError
                 end) df.

(** The one-hot columns, in order. *)
Definition hierarchy_columns (la : list (list string)) : list string :=
  filter truthy (dict_fromkeys (collect_labels la)).

Section Encoder.
(** Python's [re.compile]: a pattern compiles to its search predicate,
    or is rejected. *)
Variable re_compile : string -> result (string -> bool).

(** [where(df['Labels'].str.contains(label), 1, 0)]. *)
Definition where_contains (label : string) (df : list Part)
  : result (list Z) :=
  search <- re_compile label ;;
  Ok (map (fun r => match Labels r with
                    | Some s => if search s then 1 else 0
                    | None => 1              (* NaN is truthy for where *)
                    end) df).

(** [create_labels_hirarchy]: the frame has the columns [DesignID],
    [Quantity] and one column per term (terms are taken not to be named
    like the three fixed columns). *)
Definition create_labels_hirarchy (df : list Part) : result DataFrame :=
  la <- labels_array df ;;
  let all_labels := hierarchy_columns la in
  label_columns <- mapM (fun label => where_contains label df) all_labels ;;
  Ok {| columns := "DesignID" :: "Quantity" :: all_labels;
        data := map (fun ir =>
                       DesignID (snd ir) :: Quantity (snd ir)
                       :: map (cell (fst ir)) label_columns)
                    (combine (seq 0 (List.length df)) df) |}.
End Encoder.

(** *** Clustering and rendering *)

(** The attributes of an [Inventory] after [load]. *)
Record State : Type :=
  { df : DataFrame; clusters : option (list Cluster.ClusterSummary) }.

(** [Inventory.cluster]: [kmeans_clusters] receives [self.df] itself. *)
Definition cluster (kmeans_labels : list (list Z) -> list Z -> Z -> option Z -> list Z)
           (self : State) (num_clusters : Z) (seed : option Z) : result State :=
  r <- Cluster.kmeans_clusters kmeans_labels (df self) num_clusters seed ;;
  Ok {| df := fst r; clusters := Some (snd r) |}.

Definition dquote : string := String (ascii_of_nat 34) "".
Definition newline : string := String (ascii_of_nat 10) "".

Fixpoint drop_digits (s : string) : string :=
  match s with
  | EmptyString => ""
  | String c s' => if is_digit c then drop_digits s' else s
  end.

(** [re.compile(r'^\d+\. ').sub('', label)]. *)
Definition strip_category_index (label : string) : string :=
  match label with
  | EmptyString => ""
  | String c _ =>
      if is_digit c then
        match drop_digits label with
        | String "." (String " " rest) => rest
        | _ => label
        end
      else label
  end.

Fixpoint lstrip_spaces (s : string) : string :=
  match s with
  | String " " s' => lstrip_spaces s'
  | _ => s
  end.

(** The integer list that SQLite reads in [DesignID IN (...)]. *)
Definition sql_id_list (text : string) : list Z :=
  match text with
  | EmptyString => []
  | _ => map (fun t => Adapter.int_of_digits (lstrip_spaces t)) (split "," text)
  end.

Definition header_html (label : string) (quantity : Z) : string :=
  ("<p style=" ++ dquote ++ "margin: 10px; font-size: 32px;" ++ dquote ++ ">"
   ++ label ++ " (" ++ str quantity ++ ")</p>" ++ newline)%string.

Definition img_html (image : string) : string :=
  ("<img src=" ++ dquote ++ "data:image/png;base64," ++ image ++ dquote
   ++ " style=" ++ dquote ++ "margin: 10px;" ++ dquote ++ ">" ++ newline)%string.

(** [__single_cluster_html]. *)
Definition single_cluster_html (db : Database.table)
           (cluster : Cluster.ClusterSummary) : list string :=
  let html := [("<div>" ++ newline)%string] in
  let label := strip_category_index (Cluster.label cluster) in
  let quantity := Cluster.Quantity cluster in
  let html := html ++ [header_html label quantity] in
  let rows := Database.get_images_for_cluster
                (sql_id_list (Cluster.DesignIDs cluster)) db in
  let part_images_html :=
    flat_map (fun image =>
                match image with
                | Some image => [img_html image]
                | None => []
                end) rows in
  let html := html ++ part_images_html in
  let html := html ++ [("</div>" ++ newline)%string] in
  html ++ ["<br>"].

(** *** [ThreadPoolExecutor.map]

    One task per input is submitted, in input order, and owns the result
    slot of its future.  The workers finish the tasks in some order, the
    [schedule]; the iterator returned by [map] then yields the slots in
    submission order, waiting for each. *)
Section Executor.
Context {A B : Type}.

Fixpoint set_slot (i : nat) (v : B) (slots : list (option B))
  : list (option B) :=
  match i, slots with
  | _, [] => []
  | O, _ :: rest => Some v :: rest
  | S i', s :: rest => s :: set_slot i' v rest
  end.

Definition complete (fn : A -> B) (xs : list A)
           (slots : list (option B)) (i : nat) : list (option B) :=
  match nth_error xs i with
  | Some x => set_slot i (fn x) slots
  | None => slots
  end.

Definition run_tasks (fn : A -> B) (xs : list A) (schedule : list nat)
  : list (option B) :=
  fold_left (complete fn xs) schedule (repeat None (List.length xs)).

(** The results in submission order; [None] when a future never
    completes. *)
Fixpoint yield_all (slots : list (option B)) : option (list B) :=
  match slots with
  | [] => Some []
  | None :: _ => None
  | Some v :: rest => option_map (cons v) (yield_all rest)
  end.

Definition executor_map (fn : A -> B) (xs : list A) (schedule : list nat)
  : option (list B) :=
  yield_all (run_tasks fn xs schedule).
End Executor.

(** [as_html]: the loop [html_string += ''.join(result)] over the
    iterator of [executor.map]. *)
Definition as_html (db : Database.table) (clusters : list Cluster.ClusterSummary)
           (schedule : list nat) : option string :=
  option_map
    (fun results =>
       fold_left (fun html_string result =>
                    (html_string ++ join "" result)%string) results "")
    (executor_map (single_cluster_html db) clusters schedule).

(** The rendering the specification describes: the blocks of the clusters
    one after the other, in the order of the list. *)
Fixpoint sequential_rendering (db : Database.table)
         (clusters : list Cluster.ClusterSummary) : string :=
  match clusters with
  | [] => ""
  | c :: rest =>
      (join "" (single_cluster_html db c) ++ sequential_rendering db rest)%string
  end.

(** *** [load] *)

Section Load.
Variable remote : BrickArchitect.Remote.
Variable re_compile : string -> result (string -> bool).

(** [Inventory.load], from the table the accepted adapter parsed
    ([None]: no adapter accepted the input).  Returns the inventory and
    the cache as the load leaves it. *)
Definition load (now : Database.datetime) (input : option Adapter.RawTable)
           (db : Database.table) : result (State * Database.table) :=
  match input with
  | None => Raise ValueError
  | Some raw =>
      let input_df := Adapter.clean_steps raw in
      let df := merge_with_database input_df db in
      fetched <- fetch_missing_parts remote now df db ;;
      updated <- update_images remote now (fst fetched) (snd fetched) ;;
      frame <- create_labels_hirarchy re_compile (fst fetched) ;;
      Ok ({| df := frame; clusters := None |}, fst updated)
  end.
End Load.

End Inventory.

(* ===================================================================== *)
(** ** [assortedbricks.py]: the request handler                           *)
(* ===================================================================== *)

Module WebPage.

(** The class attributes [WebPage.num_clusters] and [WebPage.seed]. *)
Record Attrs : Type := { num_clusters : Z; seed : Z }.

Definition initial : Attrs := {| num_clusters := 10; seed := 0 |}.

(** The fields of the posted form that the handler reads. *)
Record Form : Type := { form_num_clusters : string; form_seed : string }.

(** What the template is rendered with. *)
Record Page : Type :=
  { page_result : option string; page_num_clusters : Z; page_seed : Z }.

(** The ASCII characters that [int] skips around a number: the space and
    the characters 9 to 13. *)
Definition is_space (c : ascii) : bool :=
  let n := nat_of_ascii c in
  (n =? 32)%nat || ((9 <=? n)%nat && (n <=? 13)%nat).

Fixpoint lstrip (s : string) : string :=
  match s with
  | String c s' => if is_space c then lstrip s' else s
  | EmptyString => ""
  end.

Fixpoint rstrip (s : string) : string :=
  match s with
  | EmptyString => ""
  | String c s' =>
      match rstrip s' with
      | EmptyString => if is_space c then "" else String c ""
      | t => String c t
      end
  end.

(** Decimal digits with single underscores between digits. *)
Fixpoint digits_value (acc : Z) (after_digit : bool) (s : string) : option Z :=
  match s with
  | EmptyString => if after_digit then Some acc else None
  | String c s' =>
      if is_digit c then digits_value (10 * acc + digit_val c) true s'
      else if Ascii.eqb c "_" && after_digit then digits_value acc false s'
      else None
  end.

(** [int(s)] on ASCII text: surrounding whitespace, an optional sign and
    decimal digits; anything else is a ValueError. *)
Definition py_int (s : string) : result Z :=
  let body := rstrip (lstrip s) in
  let '(sign, digits) :=
    match body with
    | String "-" d => (-1, d)
    | String "+" d => (1, d)
    | d => (1, d)
    end in
  match digits_value 0 false digits with
  | Some v => Ok (sign * v)
  | None => Raise ValueError
  end.

(** The seed the handler stores in [WebPage.seed]: the form value, or on a
    ValueError the draw [rng.integers(low=0, high=2**32-1, size=1)[0]]. *)
Definition request_seed (form : Form) (rng_integers : Z) : Z :=
  match try_except (py_int (form_seed form)) is_ValueError (Ok rng_integers) with
  | Ok s => s
  | Raise _ => rng_integers
  end.

Section Index.
Variable remote : BrickArchitect.Remote.
Variable re_compile : string -> result (string -> bool).
Variable kmeans_labels : list (list Z) -> list Z -> Z -> option Z -> list Z.

(** The POST branch of [index].  The outer [option] is [None] when the
    rendering never returns. *)
Definition index_post (form : Form) (rng_integers : Z)
           (now : Database.datetime) (input : option Adapter.RawTable)
           (db : Database.table) (schedule : list nat)
  : option (result (Attrs * Page)) :=
  match py_int (form_num_clusters form) with
  | Raise e => Some (Raise e)
  | Ok n =>
      let s := request_seed form rng_integers in
      let self := {| num_clusters := n; seed := s |} in
      let no_result :=
        (self, {| page_result := None; page_num_clusters := n;
                  page_seed := s |}) in
      match (loaded <- Inventory.load remote re_compile now input db ;;
             clustered <- Inventory.cluster kmeans_labels (fst loaded) n (Some s) ;;
             Ok (snd loaded, clustered)) with
      | Raise e => if is_ValueError e then Some (Ok no_result)
                   else Some (Raise e)
      | Ok (db', inventory) =>
          match Inventory.clusters inventory with
          | None => Some (Raise AssertionError)
          | Some cs =>
              option_map
                (fun html =>
                   Ok (self, {| page_result := Some html;
                                page_num_clusters := n; page_seed := s |}))
                (Inventory.as_html db' cs schedule)
          end
      end
  end.
End Index.

End WebPage.

(* ===================================================================== *)
(** ** Reference instances: a literal pattern engine and sample data      *)
(* ===================================================================== *)

Module Sample.

(** The characters that [re] reads as operators. *)
Definition re_special (c : ascii) : bool :=
  existsb (Ascii.eqb c)
          (list_ascii_of_string ".^$*+?{}[]\|()").

Definition literal_pattern (p : string) : bool :=
  string_forallb (fun c => negb (re_special c)) p.

(** What [re.compile] does with a pattern free of operators: the search
    succeeds exactly on the texts that contain the pattern. *)
Definition literal_engine (re_compile : string -> result (string -> bool))
  : Prop :=
  forall p, literal_pattern p = true ->
            exists search, re_compile p = Ok search
                           /\ forall s, search s = is_substring p s.

(** An engine that accepts the literal patterns only. *)
Definition literal_compile (p : string) : result (string -> bool) :=
  if literal_pattern p then Ok (is_substring p) else Raise ReError.

Definition part (design_id quantity : Z) (labels : string) : Inventory.Part :=
  {| Inventory.DesignID := design_id; Inventory.Quantity := quantity;
     Inventory.Labels := Some labels |}.

Definition unknown (design_id quantity : Z) : Inventory.Part :=
  {| Inventory.DesignID := design_id; Inventory.Quantity := quantity;
     Inventory.Labels := None |}.

(** The two records of the specification's example. *)
Definition gears_and_pins : list Inventory.Part :=
  [part 1 1 "Lego,Technic,Gears"; part 2 1 "Lego,Technic,Pins"].

(** Two records, one labelled with a term that is a prefix of the other's. *)
Definition pin_and_pins : list Inventory.Part :=
  [part 1 1 "Lego,Pin"; part 2 1 "Lego,Pins"].

Definition day (y m d : Z) : Database.date :=
  {| Database.year := y; Database.month := m; Database.day := d |}.

Definition at_time (d : Database.date) (s : Z) : Database.datetime :=
  {| Database.to_date := d; Database.seconds := s |}.

Definition not_found : BrickArchitect.PngResponse :=
  {| BrickArchitect.status_code := 404; BrickArchitect.content := "" |}.

(** A service that redirects part 3001 to the page of part 3002 and has
    an image for 3002 only. *)
Definition redirecting_remote : BrickArchitect.Remote :=
  {| BrickArchitect.get_page := fun partid =>
       if String.eqb partid "3001" then
         Ok {| BrickArchitect.url := "https://brickarchitect.com/parts/3002";
               BrickArchitect.chapternav :=
                 Some ["The LEGO Parts Guide"; "1. Basic"; "Brick"] |}
       else
         Ok {| BrickArchitect.url :=
               String.append "https://brickarchitect.com/parts/" partid;
               BrickArchitect.chapternav := None |};
     BrickArchitect.get_png := fun partid =>
       if String.eqb partid "3002" then
         Ok {| BrickArchitect.status_code := 200;
               BrickArchitect.content := "png-of-3002" |}
       else Ok not_found;
     BrickArchitect.b64encode := fun bytes => String.append "b64:" bytes |}.

(** A service that answers every request with an error page. *)
Definition error_page_remote : BrickArchitect.Remote :=
  {| BrickArchitect.get_page := fun partid =>
       Ok {| BrickArchitect.url :=
               String.append "https://brickarchitect.com/parts/" partid;
             BrickArchitect.chapternav := None |};
     BrickArchitect.get_png := fun _ => Ok not_found;
     BrickArchitect.b64encode := fun bytes => String.append "b64:" bytes |}.

Definition cached (design_id : Z) (labels : string) (image : option string)
           (updated : Database.date) : Database.Row :=
  {| Database.DesignID := design_id; Database.Labels := labels;
     Database.Image := image; Database.Updated := updated |}.

(** A cache with one row still without image, last tried the day before
    1 March 2025, one row tried that very day and one row with an image. *)
Definition cache_with_gaps : Database.table :=
  [cached 3001 "Lego,1. Basic,Brick" None (day 2025 2 28);
   cached 3002 "Lego" None (day 2025 3 1);
   cached 3003 "Lego,1. Basic,Plate" (Some "b64:png-of-3003") (day 2025 1 5)].

(** Three parts, encoded: columns [DesignID], [Quantity] and the terms. *)
Definition three_parts_frame : Frame.DataFrame :=
  {| Frame.columns :=
       ["DesignID"; "Quantity"; "Lego"; "Technic"; "Brick"; "Gears"; "Pins"];
     Frame.data := [[3648; 1; 1; 1; 0; 1; 0];
                    [2780; 3; 1; 1; 0; 0; 1];
                    [3001; 4; 1; 0; 1; 0; 0]] |}.

(** A stand-in for the fitted k-means: the assignment follows one feature,
    reduced into the range of the cluster indices; without a seed it follows
    another feature than with one. *)
Definition feature_assignment (X : list (list Z)) (w : list Z) (k : Z)
           (random_state : option Z) : list Z :=
  match random_state with
  | None => map (fun row => Frame.cell 1 row mod k) X
  | Some _ => map (fun row => Frame.cell 2 row mod k) X
  end.

(** What k-means promises about its assignment: one label per sample, each
    below the number of clusters. *)
Definition assigns_below_k
           (kmeans_labels : list (list Z) -> list Z -> Z -> option Z -> list Z)
  : Prop :=
  forall X w k random_state,
    1 <= k ->
    List.length (kmeans_labels X w k random_state) = List.length X
    /\ Forall (fun l => 0 <= l < k) (kmeans_labels X w k random_state).

(** The frame and the summaries after clustering the three parts in two
    clusters without a seed. *)
Definition clustered_frame : Frame.DataFrame :=
  Eval vm_compute in
    match Cluster.kmeans_clusters feature_assignment three_parts_frame 2 None with
    | Ok r => fst r
    | Raise _ => three_parts_frame
    end.

Definition clustered_summaries : list Cluster.ClusterSummary :=
  Eval vm_compute in
    match Cluster.kmeans_clusters feature_assignment three_parts_frame 2 None with
    | Ok r => snd r
    | Raise _ => []
    end.

Definition summary (label : string) (quantity : Z) (ids : string)
  : Cluster.ClusterSummary :=
  {| Cluster.label := label; Cluster.Quantity := quantity;
     Cluster.DesignIDs := ids |}.

(** Three cluster summaries, ascending by quantity. *)
Definition three_clusters : list Cluster.ClusterSummary :=
  [summary "Other" 2 "3002"; summary "6. Technic" 4 "3001, 3003";
   summary "1. Basic, Brick" 9 "3004"].



(** A cache that knows the three parts of [three_parts_frame], one of them
    without an image. *)
Definition technic_cache : Database.table :=
  [cached 3648 "Lego,Technic,Gears" (Some "b64:png-of-3648") (day 2025 1 5);
   cached 2780 "Lego,Technic,Pins" None (day 2025 3 1);
   cached 3001 "Lego,Brick" (Some "b64:png-of-3001") (day 2025 1 5)].

(** The handler's answer to a posted form, for an upload of the three parts
    on 1 March 2025 with the cache above. *)
Definition posted_response (form : WebPage.Form)
  : option (result (WebPage.Attrs * WebPage.Page)) :=
  WebPage.index_post error_page_remote literal_compile feature_assignment
                     form 7 (at_time (day 2025 3 1) 0)
                     (Some [("3648", 1); ("2780", 3); ("3001", 4)])
                     technic_cache [1%nat; O].

End Sample.

(* ===================================================================== *)
(** ** Notions used to state the properties                               *)
(* ===================================================================== *)

Module Spec.

Definition no_image (r : Database.Row) : bool :=
  match Database.Image r with None => true | Some _ => false end.

(** A cached row that the refresher has to retry on the day [today] for the
    working set [ids]: image null and last attempt strictly before today
    (the labels of a cached row are always set). *)
Definition stale (today : Database.date) (ids : list Z) (r : Database.Row)
  : bool :=
  Database.in_ids ids (Database.DesignID r) && no_image r
  && Database.date_ltb (Database.Updated r) today.

(** How a run of the refresher that fetched the parts [fetched] leaves the
    row [r]: untouched, or with an image text and today's date. *)
Definition refreshed (today : Database.date) (fetched : list Z)
           (r r' : Database.Row) : Prop :=
  (~ In (Database.DesignID r) fetched /\ r' = r)
  \/ (In (Database.DesignID r) fetched
      /\ Database.DesignID r' = Database.DesignID r
      /\ Database.Labels r' = Database.Labels r
      /\ no_image r' = false
      /\ Database.Updated r' = today).

(** The quantities of the rows whose extracted key is [k], in row order. *)
Definition group_of (k : string) (rows : list (option string * Z)) : list Z :=
  map snd (filter (fun row => match fst row with
                              | Some k' => String.eqb k' k
                              | None => false
                              end) rows).

(** The quantities gathered so far for the key [k]. *)
Fixpoint gathered (k : string) (groups : list (string * list Z)) : list Z :=
  match groups with
  | [] => []
  | g :: rest => if String.eqb k (fst g) then snd g else gathered k rest
  end.

(** The loop of [int_of_digits], from an accumulated value. *)
Fixpoint digits_from (acc : Z) (s : string) : Z :=
  match s with
  | EmptyString => acc
  | String c s' => digits_from (10 * acc + digit_val c) s'
  end.

(** The rows of a frame that were assigned the cluster [key], given the
    rows paired with their labels. *)
Definition members (key : Z) (assigned : list (list Z * Z)) : list (list Z) :=
  map fst (filter (fun rl => snd rl =? key) assigned).

(** The row carries the term [t]: it has a 1 in the column of [t], the
    first of that name among the term columns, which follow [DesignID] and
    [Quantity]. *)
Definition carries (features : list string) (t : string) (row : list Z)
  : bool :=
  match Frame.index_of t features with
  | Some j => Frame.cell (2 + j) row =? 1
  | None => false
  end.

(** The terms other than the root that all the rows carry, in column
    order. *)
Definition common_terms (features : list string) (rows : list (list Z))
  : list string :=
  filter (fun t => negb (String.eqb t "Lego")
                   && forallb (carries features t) rows) features.

(** The text [s] does not contain the character [sep]. *)
Definition free_of (sep : ascii) (s : string) : bool :=
  string_forallb (fun c => negb (Ascii.eqb c sep)) s.

(** No two identities of the table have different digit runs that denote
    the same integer. *)
Definition collision_free (raw : Adapter.RawTable) : Prop :=
  forall r1 r2 k1 k2,
    In r1 raw -> In r2 raw ->
    Adapter.str_extract (fst r1) = Some k1 ->
    Adapter.str_extract (fst r2) = Some k2 ->
    Adapter.int_of_digits k1 = Adapter.int_of_digits k2 -> k1 = k2.

End Spec.

(* ===================================================================== *)
(** * Properties                                                          *)
(* ===================================================================== *)

(** ** Basic facts on the Python layer *)

Lemma mem_In (x : string) (l : list string) : mem x l = true <-> In x l.
Proof.
  unfold mem. rewrite existsb_exists. split.
  - intros (y & Hy & E). apply String.eqb_eq in E. now subst.
  - intros H. exists x. split; [exact H | apply String.eqb_refl].
Qed.

Lemma mem_false (x : string) (l : list string) : mem x l = false <-> ~ In x l.
Proof.
  rewrite <- mem_In. destruct (mem x l); split; congruence.
Qed.

Lemma in_ids_In (ids : list Z) (d : Z) : Database.in_ids ids d = true <-> In d ids.
Proof.
  unfold Database.in_ids. rewrite existsb_exists. split.
  - intros (y & Hy & E). apply Z.eqb_eq in E. now subst.
  - intros H. exists d. split; [exact H | apply Z.eqb_refl].
Qed.

Lemma mapM_Ok_length {A B : Type} (f : A -> result B) (l : list A) (r : list B) :
  mapM f l = Ok r -> List.length r = List.length l.
Proof.
  revert r. induction l as [|x l IH]; simpl; intros r H.
  - inversion H. reflexivity.
  - destruct (f x) as [y|e]; simpl in H; [|discriminate].
    destruct (mapM f l) as [ys|e]; simpl in H; [|discriminate].
    inversion H. simpl. f_equal. now apply IH.
Qed.

Lemma mapM_Ok_Forall2 {A B : Type} (f : A -> result B) (l : list A) (r : list B) :
  mapM f l = Ok r -> Forall2 (fun x y => f x = Ok y) l r.
Proof.
  revert r. induction l as [|x l IH]; simpl; intros r H.
  - inversion H. constructor.
  - destruct (f x) as [y|e] eqn:E; simpl in H; [|discriminate].
    destruct (mapM f l) as [ys|e]; simpl in H; [|discriminate].
    inversion H. constructor; [exact E | now apply IH].
Qed.

Lemma mapM_all_Ok {A B : Type} (f : A -> result B) (g : A -> B) (l : list A) :
  (forall x, In x l -> f x = Ok (g x)) -> mapM f l = Ok (map g l).
Proof.
  induction l as [|x l IH]; simpl; intros H; [reflexivity|].
  rewrite (H x (or_introl eq_refl)). simpl.
  rewrite IH by (intros; apply H; now right). reflexivity.
Qed.

(** ** The adapters *)

Lemma insert_by_perm {A : Type} (leb : A -> A -> bool) (x : A) (l : list A) :
  Permutation (Adapter.insert_by leb x l) (x :: l).
Proof.
  induction l as [|y l IH]; simpl; [reflexivity|].
  destruct (leb x y); [reflexivity|].
  rewrite IH. apply perm_swap.
Qed.

Lemma sort_by_perm {A : Type} (leb : A -> A -> bool) (l : list A) :
  Permutation (Adapter.sort_by leb l) l.
Proof.
  induction l as [|x l IH]; simpl; [reflexivity|].
  unfold Adapter.sort_by in *. simpl.
  rewrite insert_by_perm. now constructor.
Qed.

Lemma insert_by_sorted {A : Type} (key : A -> Z) (x : A) (l : list A) :
  StronglySorted (fun a b => key a <= key b) l ->
  StronglySorted (fun a b => key a <= key b)
                 (Adapter.insert_by (fun a b => key a <=? key b) x l).
Proof.
  induction 1 as [|y l Hs IH Hy]; simpl.
  - constructor; constructor.
  - destruct (Z.leb_spec (key x) (key y)) as [Hle|Hgt].
    + constructor; [constructor; assumption|].
      constructor; [exact Hle|].
      eapply Forall_impl; [|exact Hy]. simpl. intros; lia.
    + constructor; [exact IH|].
      eapply Permutation_Forall;
        [apply Permutation_sym, insert_by_perm|].
      constructor; [lia | exact Hy].
Qed.

Lemma sort_by_sorted {A : Type} (key : A -> Z) (l : list A) :
  StronglySorted (fun a b => key a <= key b)
                 (Adapter.sort_by (fun a b => key a <=? key b) l).
Proof.
  induction l as [|x l IH]; [constructor|].
  unfold Adapter.sort_by in *. simpl. now apply insert_by_sorted.
Qed.

Lemma sorted_NoDup_strict {A : Type} (key : A -> Z) (l : list A) :
  StronglySorted (fun a b => key a <= key b) l ->
  NoDup (map key l) ->
  StronglySorted (fun a b => key a < key b) l.
Proof.
  induction 1 as [|x l Hs IH Hx]; simpl; intros Hnd; [constructor|].
  inversion Hnd as [|? ? Hnin Hnd']; subst.
  constructor; [now apply IH|].
  apply Forall_forall. intros y Hy.
  rewrite Forall_forall in Hx. specialize (Hx y Hy).
  assert (key x <> key y); [|lia].
  intros E. apply Hnin. rewrite E. now apply in_map.
Qed.

Lemma gathered_add (k k' : string) (q : Z) (groups : list (string * list Z)) :
  Spec.gathered k (Adapter.add_to_group k' q groups)
  = if String.eqb k k' then Spec.gathered k groups ++ [q]
    else Spec.gathered k groups.
Proof.
  induction groups as [|[k1 qs] groups IH]; simpl.
  - destruct (String.eqb k k'); reflexivity.
  - destruct (String.eqb_spec k' k1) as [->|Hne]; simpl.
    + destruct (String.eqb k k1); reflexivity.
    + destruct (String.eqb_spec k k1) as [->|Hne']; [|exact IH].
      destruct (String.eqb_spec k1 k'); [congruence | reflexivity].
Qed.

Lemma keys_add (k : string) (q : Z) (groups : list (string * list Z)) :
  map fst (Adapter.add_to_group k q groups)
  = if mem k (map fst groups) then map fst groups else map fst groups ++ [k].
Proof.
  unfold mem. induction groups as [|[k1 qs] groups IH]; simpl; [reflexivity|].
  destruct (String.eqb k k1); simpl; [reflexivity|].
  rewrite IH. destruct (existsb (String.eqb k) (map fst groups)); reflexivity.
Qed.

Lemma nonempty_add (k : string) (q : Z) (groups : list (string * list Z)) :
  Forall (fun g => snd g <> []) groups ->
  Forall (fun g => snd g <> []) (Adapter.add_to_group k q groups).
Proof.
  induction 1 as [|[k1 qs] groups Hg Hrest IH]; simpl.
  - constructor; [discriminate | constructor].
  - destruct (String.eqb k k1).
    + constructor; [simpl; destruct qs; discriminate | exact Hrest].
    + constructor; [exact Hg | exact IH].
Qed.

Lemma gathered_In (k : string) (qs : list Z) (groups : list (string * list Z)) :
  NoDup (map fst groups) -> In (k, qs) groups -> Spec.gathered k groups = qs.
Proof.
  induction groups as [|[k1 qs1] groups IH]; simpl; intros Hnd Hin; [destruct Hin|].
  inversion Hnd as [|? ? Hnin Hnd']; subst.
  destruct Hin as [E|Hin].
  - inversion E; subst. now rewrite String.eqb_refl.
  - destruct (String.eqb_spec k k1) as [->|Hne]; [|now apply IH].
    exfalso. apply Hnin. change k1 with (fst (k1, qs)). now apply in_map.
Qed.

Lemma gathered_key (k : string) (groups : list (string * list Z)) :
  In k (map fst groups) -> In (k, Spec.gathered k groups) groups.
Proof.
  induction groups as [|[k1 qs1] groups IH]; simpl; [intros []|].
  destruct (String.eqb_spec k k1) as [->|Hne]; [now left|].
  intros [E|Hin]; [congruence | right; now apply IH].
Qed.

Lemma gathered_absent (k : string) (groups : list (string * list Z)) :
  ~ In k (map fst groups) -> Spec.gathered k groups = [].
Proof.
  induction groups as [|[k1 qs1] groups IH]; simpl; [reflexivity|].
  intros H. destruct (String.eqb_spec k k1) as [->|Hne]; [tauto|].
  apply IH. tauto.
Qed.

(** The grouping loop, from any state of the groups. *)
Lemma group_rows_from (rows : list (option string * Z)) :
  forall groups : list (string * list Z),
    NoDup (map fst groups) ->
    Forall (fun g => snd g <> []) groups ->
    let final :=
      fold_left (fun groups row =>
                   match fst row with
                   | Some k => Adapter.add_to_group k (snd row) groups
                   | None => groups
                   end) rows groups in
    NoDup (map fst final)
    /\ Forall (fun g => snd g <> []) final
    /\ forall k, Spec.gathered k final
                 = Spec.gathered k groups ++ Spec.group_of k rows.
Proof.
  induction rows as [|[[k'|] q] rows IH]; intros groups Hnd Hne; simpl.
  - split; [exact Hnd|]. split; [exact Hne|].
    intros k. now rewrite app_nil_r.
  - destruct (IH (Adapter.add_to_group k' q groups)) as (H1 & H2 & H3).
    + rewrite keys_add. destruct (mem k' (map fst groups)) eqn:E; [exact Hnd|].
      apply mem_false in E.
      apply NoDup_rev in Hnd. rewrite <- (rev_involutive (_ ++ [k'])).
      apply NoDup_rev. rewrite rev_app_distr. simpl.
      constructor; [now rewrite <- in_rev | exact Hnd].
    + now apply nonempty_add.
    + split; [exact H1|]. split; [exact H2|].
      intros k. rewrite H3, gathered_add. unfold Spec.group_of. simpl.
      rewrite (String.eqb_sym k' k).
      destruct (String.eqb k k'); simpl; [now rewrite <- app_assoc | reflexivity].
  - apply IH; assumption.
Qed.

Lemma group_rows_spec (rows : list (option string * Z)) (k : string)
      (qs : list Z) :
  In (k, qs) (Adapter.group_rows rows)
  <-> qs <> [] /\ qs = Spec.group_of k rows.
Proof.
  unfold Adapter.group_rows.
  destruct (group_rows_from rows [] (NoDup_nil _) (Forall_nil _))
    as (Hnd & Hne & Hg).
  simpl in Hg. split.
  - intros Hin. split.
    + rewrite Forall_forall in Hne. exact (Hne _ Hin).
    + rewrite <- Hg. symmetry. now apply gathered_In.
  - intros [Hq ->]. rewrite <- Hg in *. apply gathered_key.
    destruct (in_dec string_dec k
                     (map fst (fold_left
                                 (fun groups row =>
                                    match fst row with
                                    | Some k0 => Adapter.add_to_group k0 (snd row) groups
                                    | None => groups
                                    end) rows []))) as [Hin|Hnin];
      [exact Hin|].
    apply gathered_absent in Hnin. congruence.
Qed.

Lemma group_rows_keys_NoDup (rows : list (option string * Z)) :
  NoDup (map fst (Adapter.group_rows rows)).
Proof.
  unfold Adapter.group_rows.
  now destruct (group_rows_from rows [] (NoDup_nil _) (Forall_nil _)).
Qed.

Lemma group_of_raw (k : string) (raw : Adapter.RawTable) :
  Spec.group_of k (map (fun r => (Adapter.str_extract (fst r), snd r)) raw)
  = map snd (filter (fun r => match Adapter.str_extract (fst r) with
                              | Some k' => String.eqb k' k
                              | None => false
                              end) raw).
Proof.
  unfold Spec.group_of. induction raw as [|r raw IH]; simpl; [reflexivity|].
  destruct (Adapter.str_extract (fst r)) as [k'|]; [|exact IH].
  destruct (String.eqb k' k); simpl; [now rewrite IH | exact IH].
Qed.

Lemma group_of_nonempty (k : string) (raw : Adapter.RawTable) :
  Spec.group_of k (map (fun r => (Adapter.str_extract (fst r), snd r)) raw) <> []
  <-> exists r, In r raw /\ Adapter.str_extract (fst r) = Some k.
Proof.
  rewrite group_of_raw. split.
  - intros H.
    destruct (filter _ raw) as [|r rest] eqn:E; [now elim H|].
    assert (Hin : In r (filter (fun r => match Adapter.str_extract (fst r) with
                                         | Some k' => String.eqb k' k
                                         | None => false
                                         end) raw))
      by (rewrite E; now left).
    apply filter_In in Hin. destruct Hin as [Hin Hp].
    exists r. split; [exact Hin|].
    destruct (Adapter.str_extract (fst r)) as [k'|]; [|discriminate].
    apply String.eqb_eq in Hp. now subst.
  - intros (r & Hin & Hr) H. apply map_eq_nil in H.
    assert (Hf : In r (filter (fun r => match Adapter.str_extract (fst r) with
                                        | Some k' => String.eqb k' k
                                        | None => false
                                        end) raw)).
    { apply filter_In. split; [exact Hin|]. rewrite Hr. apply String.eqb_refl. }
    rewrite H in Hf. destruct Hf.
Qed.

Lemma contributions_of_key (raw : Adapter.RawTable) (k : string) :
  Spec.collision_free raw ->
  (exists r, In r raw /\ Adapter.str_extract (fst r) = Some k) ->
  Adapter.contributions (Adapter.int_of_digits k) raw
  = Spec.group_of k (map (fun r => (Adapter.str_extract (fst r), snd r)) raw).
Proof.
  intros Hfree (r0 & Hin0 & Hr0). rewrite group_of_raw.
  unfold Adapter.contributions. f_equal. apply filter_ext_in.
  intros r Hin. destruct (Adapter.str_extract (fst r)) as [k'|] eqn:Hr;
    [|reflexivity].
  destruct (String.eqb_spec k' k) as [->|Hne]; [apply Z.eqb_refl|].
  apply Z.eqb_neq. intros E. apply Hne.
  exact (Hfree r r0 k' k Hin Hin0 Hr Hr0 E).
Qed.

Lemma contributions_nonempty (raw : Adapter.RawTable) (d : Z) :
  Adapter.contributions d raw <> [] ->
  exists r k, In r raw /\ Adapter.str_extract (fst r) = Some k
              /\ Adapter.int_of_digits k = d.
Proof.
  unfold Adapter.contributions. intros H.
  destruct (filter _ raw) as [|r rest] eqn:E; [now elim H|].
  assert (Hin : In r (filter (fun r => match Adapter.str_extract (fst r) with
                                       | Some k => Adapter.int_of_digits k =? d
                                       | None => false
                                       end) raw))
    by (rewrite E; now left).
  apply filter_In in Hin. destruct Hin as [Hin Hp].
  destruct (Adapter.str_extract (fst r)) as [k|] eqn:Hr; [|discriminate].
  apply Z.eqb_eq in Hp. exists r, k. auto.
Qed.

Lemma groupby_sum_spec (rows : list (option string * Z)) (k : string) (s : Z) :
  In (k, s) (Adapter.groupby_sum rows)
  <-> Spec.group_of k rows <> [] /\ s = sum_int64 (Spec.group_of k rows).
Proof.
  unfold Adapter.groupby_sum. rewrite in_map_iff. split.
  - intros ([k' qs] & E & Hin). simpl in E. inversion E; subst.
    apply (Permutation_in _ (sort_by_perm _ _)) in Hin.
    apply group_rows_spec in Hin. destruct Hin as [Hne ->]. auto.
  - intros [Hne ->]. exists (k, Spec.group_of k rows). split; [reflexivity|].
    apply (Permutation_in _ (Permutation_sym (sort_by_perm _ _))).
    apply group_rows_spec. auto.
Qed.

Lemma groupby_sum_keys_NoDup (rows : list (option string * Z)) :
  NoDup (map fst (Adapter.groupby_sum rows)).
Proof.
  unfold Adapter.groupby_sum. rewrite map_map. simpl.
  change (fun x : string * list Z => fst x) with (@fst string (list Z)).
  eapply Permutation_NoDup;
    [apply Permutation_map, Permutation_sym, sort_by_perm|].
  apply group_rows_keys_NoDup.
Qed.

(** On a table without colliding digit runs, every [clean] does what the
    specification says: the records come strictly ascending by DesignID (so
    one per DesignID), there is a record for exactly the DesignIDs that some
    identity strips to, and its quantity is the int64 sum of the quantities
    of those entries. *)
Lemma clean_steps_collision_free (raw : Adapter.RawTable) :
  Spec.collision_free raw ->
  StronglySorted (fun a b => fst a < fst b) (Adapter.clean_steps raw)
  /\ forall d q,
       In (d, q) (Adapter.clean_steps raw)
       <-> Adapter.contributions d raw <> []
           /\ q = sum_int64 (Adapter.contributions d raw).
Proof.
  intros Hfree. unfold Adapter.clean_steps, Adapter.sort_values.
  set (rows := map (fun r => (Adapter.str_extract (fst r), snd r)) raw).
  set (conv := map (fun r : string * Z => (Adapter.int_of_digits (fst r), snd r))
                   (Adapter.groupby_sum rows)).
  assert (Hkey : forall k, In k (map fst (Adapter.groupby_sum rows)) ->
                           exists r, In r raw
                                     /\ Adapter.str_extract (fst r) = Some k).
  { intros k Hin. apply in_map_iff in Hin. destruct Hin as ([k' s] & E & Hin).
    simpl in E. subst k'. apply groupby_sum_spec in Hin.
    destruct Hin as [Hne _]. now apply group_of_nonempty. }
  split.
  - apply sorted_NoDup_strict; [apply (sort_by_sorted fst)|].
    eapply Permutation_NoDup;
      [apply Permutation_map, Permutation_sym, sort_by_perm|].
    unfold conv. rewrite map_map. simpl. rewrite <- map_map.
    apply NoDup_map_NoDup_ForallPairs; [|apply groupby_sum_keys_NoDup].
    intros k1 k2 H1 H2 E.
    destruct (Hkey k1 H1) as (r1 & Hr1 & He1).
    destruct (Hkey k2 H2) as (r2 & Hr2 & He2).
    exact (Hfree r1 r2 k1 k2 Hr1 Hr2 He1 He2 E).
  - intros d q. split.
    + intros Hin. apply (Permutation_in _ (sort_by_perm _ _)) in Hin.
      unfold conv in Hin. apply in_map_iff in Hin.
      destruct Hin as ([k s] & E & Hin). simpl in E. inversion E; subst.
      apply groupby_sum_spec in Hin. destruct Hin as [Hne ->].
      rewrite (contributions_of_key raw k Hfree) by (now apply group_of_nonempty).
      auto.
    + intros [Hne ->].
      destruct (contributions_nonempty raw d Hne) as (r & k & Hin & Hr & <-).
      assert (Hk : exists r, In r raw /\ Adapter.str_extract (fst r) = Some k)
        by eauto.
      rewrite (contributions_of_key raw k Hfree Hk) in *.
      apply (Permutation_in _ (Permutation_sym (sort_by_perm _ _))).
      unfold conv. apply in_map_iff.
      exists (k, sum_int64 (Spec.group_of k rows)). split; [reflexivity|].
      apply groupby_sum_spec. auto.
Qed.

(** C1.  Evaluation of [clean] where the claim breaks: the texts ["0301"]
    and ["301"] are two groups for [groupby], and both become the DesignID
    301 afterwards, so the cleaned table holds two records for one DesignID
    and neither carries the sum 3 of the contributing quantities.  The
    specification's own example evaluates as it states. *)
Theorem clean_duplicates_DesignID_on_leading_zero :
  Adapter.RebrickableCSV_clean [("0301", 1); ("301", 2)] = [(301, 1); (301, 2)]
  /\ Adapter.LDCadPBG_clean [("0301", "1"); ("301", "2")]
     = Ok [(301, 1); (301, 2)]
  /\ ~ NoDup (map fst (Adapter.RebrickableCSV_clean [("0301", 1); ("301", 2)]))
  /\ Adapter.contributions 301 [("0301", 1); ("301", 2)] = [1; 2]
  /\ Adapter.RebrickableCSV_clean [("3001", 5); ("3002", 2); ("3001", 3)]
     = [(3001, 8); (3002, 2)]
  /\ Adapter.LDCadPBG_clean [("3001", "5"); ("3002", "2"); ("3001", "3")]
     = Ok [(3001, 8); (3002, 2)].
Proof.
  repeat split; try (vm_compute; reflexivity).
  intros H. vm_compute in H. inversion H as [|x l Hin _]; subst.
  apply Hin. left. reflexivity.
Qed.

(** ** The label hierarchy encoder *)

Lemma fromkeys_extends (l acc : list string) :
  exists t, fold_left dict_step l acc = acc ++ t
            /\ forall x, In x t -> In x l /\ ~ In x acc.
Proof.
  revert acc. induction l as [|y l IH]; intros acc.
  - exists []. simpl. rewrite app_nil_r. split; [reflexivity | intros x []].
  - simpl fold_left. unfold dict_step at 2. destruct (mem y acc) eqn:E.
    + destruct (IH acc) as (t & Ht & Hin). exists t. split; [exact Ht|].
      intros x Hx. destruct (Hin x Hx). split; [now right | assumption].
    + destruct (IH (acc ++ [y])) as (t & Ht & Hin).
      exists (y :: t). split.
      * rewrite Ht, <- app_assoc. reflexivity.
      * intros x [<-|Hx].
        -- split; [now left | now apply mem_false].
        -- destruct (Hin x Hx) as [H1 H2]. split; [now right|].
           intros H. apply H2, in_or_app. now left.
Qed.

Lemma fromkeys_In (l acc : list string) (x : string) :
  In x (fold_left dict_step l acc) <-> In x acc \/ In x l.
Proof.
  revert acc. induction l as [|y l IH]; intros acc; simpl.
  - tauto.
  - rewrite IH. unfold dict_step. destruct (mem y acc) eqn:E.
    + apply mem_In in E. split; [tauto|].
      intros [H|[<-|H]]; auto.
    + rewrite in_app_iff. simpl. tauto.
Qed.

Lemma fromkeys_NoDup (l acc : list string) :
  NoDup acc -> NoDup (fold_left dict_step l acc).
Proof.
  revert acc. induction l as [|y l IH]; intros acc H; simpl; [exact H|].
  apply IH. unfold dict_step. destruct (mem y acc) eqn:E; [exact H|].
  apply mem_false in E.
  apply NoDup_rev in H. rewrite <- (rev_involutive (acc ++ [y])).
  apply NoDup_rev. rewrite rev_app_distr. simpl. constructor; [|exact H].
  now rewrite <- in_rev.
Qed.

(** A key met before another one is listed before it. *)
Lemma fromkeys_order (l1 l2 : list string) (a b : string) :
  a <> b -> ~ In b l1 -> In b l2 ->
  exists p q r, dict_fromkeys (l1 ++ a :: l2) = p ++ a :: q ++ b :: r.
Proof.
  intros Hab Hb1 Hb2. unfold dict_fromkeys.
  replace (l1 ++ a :: l2) with ((l1 ++ [a]) ++ l2)
    by (rewrite <- app_assoc; reflexivity).
  rewrite fold_left_app.
  set (acc := fold_left dict_step (l1 ++ [a]) []).
  assert (Ha : In a acc).
  { apply fromkeys_In. right. apply in_or_app. right. now left. }
  assert (Hb : ~ In b acc).
  { intros H. apply fromkeys_In in H. destruct H as [[]|H].
    apply in_app_or in H. destruct H as [H|[H|[]]]; [auto | congruence]. }
  destruct (fromkeys_extends l2 acc) as (t & Ht & _).
  assert (Hbt : In b t).
  { assert (H : In b (fold_left dict_step l2 acc)) by (apply fromkeys_In; now right).
    rewrite Ht in H. apply in_app_or in H. tauto. }
  apply in_split in Ha. destruct Ha as (p & q & Hacc).
  apply in_split in Hbt. destruct Hbt as (t1 & t2 & Htt).
  exists p, (q ++ t1), t2.
  rewrite Ht, Hacc, Htt, <- !app_assoc. simpl. rewrite <- ?app_assoc. reflexivity.
Qed.

Lemma dict_fromkeys_In (l : list string) (x : string) :
  In x (dict_fromkeys l) <-> In x l.
Proof.
  unfold dict_fromkeys. rewrite fromkeys_In. simpl. tauto.
Qed.

Lemma dict_fromkeys_NoDup (l : list string) : NoDup (dict_fromkeys l).
Proof.
  unfold dict_fromkeys. apply fromkeys_NoDup. constructor.
Qed.

Lemma truthy_true (s : string) : Inventory.truthy s = true <-> s <> "".
Proof.
  unfold Inventory.truthy. rewrite negb_true_iff. apply String.eqb_neq.
Qed.

Lemma labels_len_fold (la : list (list string)) (n : nat) :
  let m := fold_left (fun n subarray =>
                        if (n <? List.length subarray)%nat
                        then List.length subarray else n) la n in
  (n <= m)%nat /\ forall sub, In sub la -> (List.length sub <= m)%nat.
Proof.
  revert n. induction la as [|s la IH]; intros n; simpl.
  - split; [lia | intros sub []].
  - destruct (Nat.ltb_spec n (List.length s)).
    + destruct (IH (List.length s)) as [H1 H2]. split; [lia|].
      intros sub [<-|Hin]; [exact H1 | now apply H2].
    + destruct (IH n) as [H1 H2]. split; [lia|].
      intros sub [<-|Hin]; [lia | now apply H2].
Qed.

Lemma labels_len_ge (la : list (list string)) (sub : list string) :
  In sub la -> (List.length sub <= Inventory.labels_len la)%nat.
Proof.
  intros H. now apply (labels_len_fold la O).
Qed.

Lemma level_In (la : list (list string)) (i : nat) (t : string) :
  In t (Inventory.level la i)
  <-> exists sub, In sub la /\ nth_error sub i = Some t.
Proof.
  unfold Inventory.level. rewrite in_flat_map. split.
  - intros (sub & Hin & H). exists sub. split; [exact Hin|].
    destruct (nth_error sub i); simpl in H; [|tauto].
    destruct H as [<-|[]]. reflexivity.
  - intros (sub & Hin & H). exists sub. split; [exact Hin|].
    rewrite H. now left.
Qed.

Lemma collect_labels_In (la : list (list string)) (t : string) :
  In t (Inventory.collect_labels la)
  <-> exists sub, In sub la /\ In t sub.
Proof.
  unfold Inventory.collect_labels. rewrite in_flat_map. split.
  - intros (i & _ & H). apply level_In in H. destruct H as (sub & Hin & H).
    exists sub. split; [exact Hin | eapply nth_error_In; eassumption].
  - intros (sub & Hin & H). apply In_nth_error in H. destruct H as (i & H).
    exists i. split.
    + apply in_seq. split; [lia|]. simpl.
      assert (i < List.length sub)%nat by (apply nth_error_Some; congruence).
      pose proof (labels_len_ge la sub Hin). lia.
    + apply level_In. eauto.
Qed.

Lemma filter_split_two {A : Type} (f : A -> bool) (p q r : list A) (a b : A) :
  f a = true -> f b = true ->
  filter f (p ++ a :: q ++ b :: r)
  = filter f p ++ a :: filter f q ++ b :: filter f r.
Proof.
  intros Ha Hb. rewrite filter_app. simpl. rewrite Ha.
  rewrite filter_app. simpl. rewrite Hb. reflexivity.
Qed.

(** Shallower terms come first among the columns. *)
Lemma hierarchy_columns_order (la : list (list string)) (a b : string) (i : nat) :
  a <> "" -> In b (Inventory.hierarchy_columns la) ->
  (exists sub, In sub la /\ nth_error sub i = Some a) ->
  (forall sub j, In sub la -> nth_error sub j = Some b -> (i < j)%nat) ->
  exists p q r, Inventory.hierarchy_columns la = p ++ a :: q ++ b :: r.
Proof.
  intros Ha Hb (sub & Hsub & Hi) Hdeep.
  unfold Inventory.hierarchy_columns in *.
  apply filter_In in Hb. destruct Hb as [Hb Hbt].
  apply (proj1 (dict_fromkeys_In _ _)) in Hb.
  assert (Hab : a <> b).
  { intros <-. specialize (Hdeep sub i Hsub Hi). lia. }
  assert (Hlen : (i < Inventory.labels_len la)%nat).
  { assert (i < List.length sub)%nat by (apply nth_error_Some; congruence).
    pose proof (labels_len_ge la sub Hsub). lia. }
  unfold Inventory.collect_labels in *.
  replace (seq 0 (Inventory.labels_len la))
    with (seq 0 (S i) ++ seq (S i) (Inventory.labels_len la - S i)) in *
    by (rewrite <- seq_app; f_equal; lia).
  rewrite flat_map_app in *.
  set (A := flat_map (Inventory.level la) (seq 0 (S i))) in *.
  set (B := flat_map (Inventory.level la)
                     (seq (S i) (Inventory.labels_len la - S i))) in *.
  assert (HaA : In a A).
  { apply in_flat_map. exists i. split; [apply in_seq; lia|].
    apply level_In. eauto. }
  assert (HbA : ~ In b A).
  { intros H. apply in_flat_map in H. destruct H as (j & Hj & H).
    apply in_seq in Hj. apply level_In in H. destruct H as (s' & Hs' & H).
    specialize (Hdeep s' j Hs' H). lia. }
  assert (HbB : In b B).
  { apply in_app_or in Hb. tauto. }
  apply in_split in HaA. destruct HaA as (l1 & l1' & HA).
  assert (Hb1 : ~ In b l1).
  { intros H. apply HbA. rewrite HA. apply in_or_app. now left. }
  destruct (fromkeys_order l1 (l1' ++ B) a b Hab Hb1) as (p & q & r & E).
  { apply in_or_app. now right. }
  exists (filter Inventory.truthy p), (filter Inventory.truthy q),
         (filter Inventory.truthy r).
  rewrite HA, <- app_assoc. simpl. rewrite E.
  apply filter_split_two; [now apply truthy_true | exact Hbt].
Qed.

Lemma hierarchy_columns_In (la : list (list string)) (t : string) :
  In t (Inventory.hierarchy_columns la)
  <-> t <> "" /\ exists sub, In sub la /\ In t sub.
Proof.
  unfold Inventory.hierarchy_columns.
  rewrite filter_In, dict_fromkeys_In, collect_labels_In, truthy_true. tauto.
Qed.

Lemma hierarchy_columns_NoDup (la : list (list string)) :
  NoDup (Inventory.hierarchy_columns la).
Proof.
  unfold Inventory.hierarchy_columns. apply NoDup_filter, dict_fromkeys_NoDup.
Qed.

Lemma literal_compile_is_literal_engine :
  Sample.literal_engine Sample.literal_compile.
Proof.
  intros p Hp. unfold Sample.literal_compile. rewrite Hp.
  exists (is_substring p). split; reflexivity.
Qed.

Lemma create_labels_hirarchy_columns
      (re_compile : string -> result (string -> bool))
      (df : list Inventory.Part) (frame : Frame.DataFrame) :
  Inventory.create_labels_hirarchy re_compile df = Ok frame ->
  exists la, Inventory.labels_array df = Ok la
             /\ Frame.columns frame
                = "DesignID" :: "Quantity" :: Inventory.hierarchy_columns la.
Proof.
  unfold Inventory.create_labels_hirarchy. intros H.
  destruct (Inventory.labels_array df) as [la|e]; simpl in H; [|discriminate].
  destruct (mapM _ (Inventory.hierarchy_columns la)) as [cols|e];
    simpl in H; [|discriminate].
  exists la. split; [reflexivity|]. inversion H. reflexivity.
Qed.

(** C2.  Evaluation of the encoder where the claim breaks: the column of a
    term is filled by a search in the comma-joined label text, so the record
    labelled [Lego,Pins] gets a 1 in the column [Pin] although [Pin] is none
    of its labels.  This holds with every pattern engine that treats
    operator-free patterns as Python's does. *)
Theorem contains_marks_substring_as_label
        (re_compile : string -> result (string -> bool)) :
  Sample.literal_engine re_compile ->
  Inventory.create_labels_hirarchy re_compile Sample.pin_and_pins
  = Ok {| Frame.columns := ["DesignID"; "Quantity"; "Lego"; "Pin"; "Pins"];
          Frame.data := [[1; 1; 1; 1; 0]; [2; 1; 1; 1; 1]] |}
  /\ ~ In "Pin" (split "," "Lego,Pins").
Proof.
  intros Hre. split.
  - destruct (Hre "Lego" eq_refl) as (f1 & E1 & F1).
    destruct (Hre "Pin" eq_refl) as (f2 & E2 & F2).
    destruct (Hre "Pins" eq_refl) as (f3 & E3 & F3).
    unfold Inventory.create_labels_hirarchy.
    replace (Inventory.labels_array Sample.pin_and_pins)
      with (Ok [["Lego"; "Pin"]; ["Lego"; "Pins"]]) by reflexivity.
    cbn [bind].
    replace (Inventory.hierarchy_columns [["Lego"; "Pin"]; ["Lego"; "Pins"]])
      with ["Lego"; "Pin"; "Pins"] by reflexivity.
    cbn [mapM]. unfold Inventory.where_contains.
    rewrite E1, E2, E3. cbn [bind Sample.pin_and_pins map Sample.part Inventory.Labels].
    rewrite !F1, !F2, !F3. reflexivity.
  - simpl. intros [H|[H|[]]]; discriminate.
Qed.

Lemma contains_marks_substring_as_label_witness :
  Inventory.create_labels_hirarchy Sample.literal_compile Sample.pin_and_pins
  = Ok {| Frame.columns := ["DesignID"; "Quantity"; "Lego"; "Pin"; "Pins"];
          Frame.data := [[1; 1; 1; 1; 0]; [2; 1; 1; 1; 1]] |}
  /\ ~ In "Pin" (split "," "Lego,Pins").
Proof.
  apply (contains_marks_substring_as_label Sample.literal_compile).
  intros p Hp. unfold Sample.literal_compile. rewrite Hp.
  exists (is_substring p). split; reflexivity.
Defined.

(** C3, as the claim states it, fails on the two records of its example:
    the columns start with the root term [Lego]. *)
Lemma hierarchy_keeps_root_counterexample :
  exists frame,
    Inventory.create_labels_hirarchy Sample.literal_compile Sample.gears_and_pins
    = Ok frame
    /\ skipn 2 (Frame.columns frame) = ["Lego"; "Technic"; "Gears"; "Pins"]
    /\ skipn 2 (Frame.columns frame) <> ["Technic"; "Gears"; "Pins"].
Proof.
  eexists. split; [vm_compute; reflexivity|]. split; [reflexivity|].
  simpl. discriminate.
Qed.

(** C3, amended.  The frame built by [create_labels_hirarchy] has the
    columns [DesignID], [Quantity] and then one column per distinct
    non-empty term of the records' label paths, each listed once; a term
    that occurs at some depth comes before every term that occurs only at
    greater depths (breadth-first across depth).  The root term is a column
    like any other: for the records labelled [Lego,Technic,Gears] and
    [Lego,Technic,Pins] the term columns are [Lego; Technic; Gears; Pins],
    and record 1 has Lego=1, Technic=1, Gears=1, Pins=0. *)
Theorem hierarchy_columns_breadth_first_with_root
        (re_compile : string -> result (string -> bool))
        (df : list Inventory.Part) (frame : Frame.DataFrame) :
  Inventory.create_labels_hirarchy re_compile df = Ok frame ->
  (exists la,
      Inventory.labels_array df = Ok la
      /\ Frame.columns frame
         = "DesignID" :: "Quantity" :: Inventory.hierarchy_columns la
      /\ NoDup (Inventory.hierarchy_columns la)
      /\ (forall t, In t (Inventory.hierarchy_columns la)
                    <-> t <> "" /\ exists sub, In sub la /\ In t sub)
      /\ (forall a b i,
             a <> "" -> In b (Inventory.hierarchy_columns la) ->
             (exists sub, In sub la /\ nth_error sub i = Some a) ->
             (forall sub j, In sub la -> nth_error sub j = Some b -> (i < j)%nat) ->
             exists p q r, Inventory.hierarchy_columns la = p ++ a :: q ++ b :: r))
  /\ (Sample.literal_engine re_compile ->
      Inventory.create_labels_hirarchy re_compile Sample.gears_and_pins
      = Ok {| Frame.columns :=
                ["DesignID"; "Quantity"; "Lego"; "Technic"; "Gears"; "Pins"];
              Frame.data := [[1; 1; 1; 1; 1; 0]; [2; 1; 1; 1; 0; 1]] |}).
Proof.
  intros H. split.
  - destruct (create_labels_hirarchy_columns _ _ _ H) as (la & Hla & Hcols).
    exists la. split; [exact Hla|]. split; [exact Hcols|].
    split; [apply hierarchy_columns_NoDup|].
    split; [intros t; apply hierarchy_columns_In|].
    intros a b i. apply hierarchy_columns_order.
  - intros Hre.
    destruct (Hre "Lego" eq_refl) as (f1 & E1 & F1).
    destruct (Hre "Technic" eq_refl) as (f2 & E2 & F2).
    destruct (Hre "Gears" eq_refl) as (f3 & E3 & F3).
    destruct (Hre "Pins" eq_refl) as (f4 & E4 & F4).
    unfold Inventory.create_labels_hirarchy.
    replace (Inventory.labels_array Sample.gears_and_pins)
      with (Ok [["Lego"; "Technic"; "Gears"]; ["Lego"; "Technic"; "Pins"]])
      by reflexivity.
    cbn [bind].
    replace (Inventory.hierarchy_columns
               [["Lego"; "Technic"; "Gears"]; ["Lego"; "Technic"; "Pins"]])
      with ["Lego"; "Technic"; "Gears"; "Pins"] by reflexivity.
    cbn [mapM]. unfold Inventory.where_contains.
    rewrite E1, E2, E3, E4.
    cbn [bind Sample.gears_and_pins map Sample.part Inventory.Labels].
    rewrite !F1, !F2, !F3, !F4. reflexivity.
Qed.

Lemma hierarchy_columns_breadth_first_with_root_witness :
  exists p q r,
    Inventory.hierarchy_columns
      [["Lego"; "Technic"; "Gears"]; ["Lego"; "Technic"; "Pins"]]
    = p ++ "Lego" :: q ++ "Pins" :: r.
Proof.
  destruct (hierarchy_columns_breadth_first_with_root
              Sample.literal_compile Sample.gears_and_pins
              {| Frame.columns :=
                   ["DesignID"; "Quantity"; "Lego"; "Technic"; "Gears"; "Pins"];
                 Frame.data := [[1; 1; 1; 1; 1; 0]; [2; 1; 1; 1; 0; 1]] |}
              eq_refl) as [(la & Hla & _ & _ & _ & Hord) _].
  injection Hla as <-.
  apply (Hord "Lego" "Pins" 0%nat).
  - discriminate.
  - vm_compute. tauto.
  - exists ["Lego"; "Technic"; "Gears"]. split; [now left | reflexivity].
  - intros sub j [<-|[<-|[]]] Hj;
      (destruct j as [|[|[|j]]]; simpl in Hj; try discriminate; try lia;
       destruct j; discriminate).
Defined.

(** *** The encoder never misses a label *)

Lemma split_head_prefix (sep : ascii) (s : string) :
  match split sep s with
  | h :: _ => starts_with h s = true
  | [] => False
  end.
Proof.
  induction s as [|c s IH]; simpl; [reflexivity|].
  destruct (Ascii.eqb c sep); [reflexivity|].
  destruct (split sep s) as [|h t]; [destruct IH|].
  simpl. now rewrite Ascii.eqb_refl.
Qed.

(** A term of the split text occurs in the text. *)
Lemma split_term_is_substring (sep : ascii) (t s : string) :
  In t (split sep s) -> is_substring t s = true.
Proof.
  induction s as [|c s IH]; simpl.
  - intros [<-|[]]. reflexivity.
  - destruct (Ascii.eqb c sep).
    + intros [<-|Hin]; [reflexivity|].
      rewrite (IH Hin). apply orb_true_r.
    + pose proof (split_head_prefix sep s) as Hh.
      destruct (split sep s) as [|h tl]; [destruct Hh|].
      intros [<-|Hin].
      * simpl. now rewrite Ascii.eqb_refl, Hh.
      * rewrite IH by (now right). apply orb_true_r.
Qed.

(** No false negative: with an engine that treats operator-free patterns as
    Python's does, the column of such a term holds a 1 for every record that
    has the term among its labels. *)
Lemma where_contains_no_false_negative
      (re_compile : string -> result (string -> bool))
      (label : string) (df : list Inventory.Part) (col : list Z) :
  Sample.literal_engine re_compile ->
  Sample.literal_pattern label = true ->
  Inventory.where_contains re_compile label df = Ok col ->
  Forall2 (fun r v => forall s, Inventory.Labels r = Some s ->
                                In label (split "," s) -> v = 1) df col.
Proof.
  intros Hre Hlit. unfold Inventory.where_contains.
  destruct (Hre label Hlit) as (search & -> & Hsearch). cbn [bind].
  intros H. inversion H; subst. clear H.
  induction df as [|r df IH]; simpl; constructor; [|exact IH].
  intros s Hs Hin. rewrite Hs, Hsearch.
  now rewrite (split_term_is_substring _ _ _ Hin).
Qed.

(** ** The enrichment fetcher *)

Lemma set_labels_ids (part : Z) (new_labels : string) (df : list Inventory.Part) :
  map Inventory.DesignID (Inventory.set_labels part new_labels df)
  = map Inventory.DesignID df.
Proof.
  unfold Inventory.set_labels. rewrite map_map. apply map_ext.
  intros r. destruct (Inventory.DesignID r =? part); reflexivity.
Qed.

Lemma collect_parts_spec (today : Database.date)
      (results : list (Z * string * option string))
      (acc : list Database.Row) (df : list Inventory.Part) :
  fst (Inventory.collect_parts today results acc df)
  = acc ++ map (Inventory.new_row today) results
  /\ map Inventory.DesignID (snd (Inventory.collect_parts today results acc df))
     = map Inventory.DesignID df.
Proof.
  revert acc df. induction results as [|r results IH]; intros acc df; simpl.
  - rewrite app_nil_r. split; reflexivity.
  - destruct (IH (acc ++ [Inventory.new_row today r])
                 (Inventory.set_labels (fst (fst r)) (snd (fst r)) df))
      as [H1 H2].
    rewrite H1, H2, <- app_assoc, set_labels_ids. split; reflexivity.
Qed.

Lemma append_parts_dataframe_Ok (rows : list Database.Row) (db db' : Database.table) :
  Database.append_parts_dataframe rows db = Ok db' -> db' = db ++ rows.
Proof.
  unfold Database.append_parts_dataframe.
  destruct (Database.unique_ids _); intros H; inversion H. reflexivity.
Qed.

Lemma fetch_part_info_Ok (remote : BrickArchitect.Remote) (partid : Z)
      (r : Z * string * option string) :
  BrickArchitect.fetch_part_info remote partid = Ok r ->
  fst (fst r) = partid
  /\ exists resolved,
       BrickArchitect.get_labels remote (str partid) = Ok (resolved, snd (fst r))
       /\ BrickArchitect.get_image remote resolved = Ok (snd r).
Proof.
  unfold BrickArchitect.fetch_part_info.
  destruct (BrickArchitect.get_labels remote (str partid)) as [[resolved l]|e];
    simpl; [|discriminate].
  destruct (BrickArchitect.get_image remote resolved) as [img|e] eqn:E;
    simpl; [|discriminate].
  intros H. inversion H. simpl. split; [reflexivity|].
  exists resolved. split; [reflexivity | exact E].
Qed.

(** What a successful fetch phase leaves behind. *)
Lemma fetch_missing_parts_Ok (remote : BrickArchitect.Remote)
      (now : Database.datetime) (df df' : list Inventory.Part)
      (db db' : Database.table) :
  Inventory.fetch_missing_parts remote now df db = Ok (df', db') ->
  exists results,
    mapM (BrickArchitect.fetch_part_info remote)
         (map Inventory.DesignID (filter Inventory.isna df)) = Ok results
    /\ db' = db ++ map (Inventory.new_row (Database.to_date now)) results
    /\ map Inventory.DesignID df' = map Inventory.DesignID df.
Proof.
  unfold Inventory.fetch_missing_parts.
  set (unknown := map Inventory.DesignID (filter Inventory.isna df)).
  destruct (Nat.ltb_spec 0 (List.length unknown)) as [Hlen|Hlen].
  - destruct (mapM _ unknown) as [results|e]; simpl; [|discriminate].
    pose proof (collect_parts_spec (Database.to_date now) results [] df) as [H1 H2].
    destruct (Inventory.collect_parts _ results [] df) as [rows df1].
    simpl in H1, H2. subst rows.
    destruct (Database.append_parts_dataframe _ db) as [db1|e] eqn:E;
      simpl; [|discriminate].
    intros H. inversion H; subst. apply append_parts_dataframe_Ok in E.
    exists results. auto.
  - intros H. inversion H; subst. exists [].
    destruct unknown; [|simpl in Hlen; lia].
    simpl. rewrite app_nil_r. auto.
Qed.

Lemma new_rows_of_results (remote : BrickArchitect.Remote)
      (today : Database.date) (parts : list Z)
      (results : list (Z * string * option string)) :
  Forall2 (fun p r => BrickArchitect.fetch_part_info remote p = Ok r)
          parts results ->
  map Database.DesignID (map (Inventory.new_row today) results) = parts
  /\ Forall (fun row =>
               exists resolved,
                 BrickArchitect.get_labels remote (str (Database.DesignID row))
                 = Ok (resolved, Database.Labels row)
                 /\ BrickArchitect.get_image remote resolved
                    = Ok (Database.Image row)
                 /\ Database.Updated row = today)
            (map (Inventory.new_row today) results).
Proof.
  induction 1 as [|p r ps rs Hp _ [IH1 IH2]]; simpl.
  - split; [reflexivity | constructor].
  - apply fetch_part_info_Ok in Hp. destruct Hp as [Hp (resolved & Hl & Hi)].
    destruct r as [[p' l] img]. simpl in *. subst p'. split.
    + now rewrite IH1.
    + constructor; [|exact IH2]. exists resolved. auto.
Qed.


(** C4, as the claim states it, fails: the service resolves the queried
    part 3001 to the canonical id 3002, and the row that the fetch phase
    adds to the cache is keyed 3001; the cache holds no row keyed 3002. *)
Lemma cache_row_keyed_by_resolved_id_counterexample :
  let now := Sample.at_time (Sample.day 2025 3 1) 0 in
  BrickArchitect.get_labels Sample.redirecting_remote (str 3001)
  = Ok ("3002", "Lego,1. Basic,Brick")
  /\ exists df' db',
       Inventory.fetch_missing_parts Sample.redirecting_remote now
                                     [Sample.unknown 3001 4] []
       = Ok (df', db')
       /\ map Database.DesignID db' = [3001]
       /\ ~ In 3002 (map Database.DesignID db').
Proof.
  split; [vm_compute; reflexivity|].
  eexists. eexists. split; [vm_compute; reflexivity|].
  split; [reflexivity|]. simpl. intros [H|[]]. discriminate.
Qed.

(** C4, amended.  For every part that the fetch phase looks up, the cache
    row it creates is keyed by the id that was queried, which also stays the
    key of the working set; the labels of the row are the ones found for the
    queried id, and its image is the one fetched under the id that the
    lookup resolved to. *)
Theorem cache_row_keyed_by_queried_id (remote : BrickArchitect.Remote)
        (now : Database.datetime) (df df' : list Inventory.Part)
        (db db' : Database.table) :
  Inventory.fetch_missing_parts remote now df db = Ok (df', db') ->
  exists new_rows,
    db' = db ++ new_rows
    /\ map Database.DesignID new_rows
       = map Inventory.DesignID (filter Inventory.isna df)
    /\ map Inventory.DesignID df' = map Inventory.DesignID df
    /\ Forall (fun row =>
                 exists resolved,
                   BrickArchitect.get_labels remote (str (Database.DesignID row))
                   = Ok (resolved, Database.Labels row)
                   /\ BrickArchitect.get_image remote resolved
                      = Ok (Database.Image row)
                   /\ Database.Updated row = Database.to_date now) new_rows.
Proof.
  intros H. apply fetch_missing_parts_Ok in H.
  destruct H as (results & Hres & Hdb & Hdf).
  exists (map (Inventory.new_row (Database.to_date now)) results).
  split; [exact Hdb|]. apply mapM_Ok_Forall2 in Hres.
  destruct (new_rows_of_results remote (Database.to_date now) _ _ Hres)
    as [Hids Hrows].
  split; [exact Hids|]. split; [exact Hdf | exact Hrows].
Qed.

Lemma cache_row_keyed_by_queried_id_witness :
  exists new_rows,
    [Inventory.new_row (Sample.day 2025 3 1)
                       (3001, "Lego,1. Basic,Brick", Some "b64:png-of-3002")]
    = [] ++ new_rows
    /\ map Database.DesignID new_rows = [3001].
Proof.
  destruct (cache_row_keyed_by_queried_id
              Sample.redirecting_remote (Sample.at_time (Sample.day 2025 3 1) 0)
              [Sample.unknown 3001 4] [Sample.part 3001 4 "Lego,1. Basic,Brick"]
              []
              [Inventory.new_row (Sample.day 2025 3 1)
                 (3001, "Lego,1. Basic,Brick", Some "b64:png-of-3002")]
              eq_refl) as (rows & H1 & H2 & _).
  exists rows. split; [exact H1 | exact H2].
Defined.










(** ** The staleness refresher *)

Lemma date_ltb_irrefl (d : Database.date) : Database.date_ltb d d = false.
Proof.
  unfold Database.date_ltb. rewrite !Z.ltb_irrefl, !Z.eqb_refl. reflexivity.
Qed.

Lemma update_image_refreshes (today : Database.date) (part : Z)
      (image : option string) (r : Database.Row) :
  let r' := if Database.DesignID r =? part
            then {| Database.DesignID := Database.DesignID r;
                    Database.Labels := Database.Labels r;
                    Database.Image := Some (Database.format_image image);
                    Database.Updated := today |}
            else r in
  Spec.refreshed today [part] r r'.
Proof.
  simpl. destruct (Z.eqb_spec (Database.DesignID r) part) as [E|E].
  - right. simpl. repeat split; auto.
  - left. split; [|reflexivity]. simpl. intros [H|[]]. congruence.
Qed.

Lemma refreshed_compose (today : Database.date) (p : Z) (ps : list Z)
      (r r1 r2 : Database.Row) :
  Spec.refreshed today [p] r r1 -> Spec.refreshed today ps r1 r2 ->
  Spec.refreshed today (p :: ps) r r2.
Proof.
  unfold Spec.refreshed. simpl.
  intros [[H1 ->]|(H1 & Hid & Hl & Hi & Hu)] [[H2 ->]|(H2 & Hid' & Hl' & Hi' & Hu')].
  - left. split; [tauto | reflexivity].
  - right. repeat split; try congruence; tauto.
  - right. repeat split; try congruence; tauto.
  - right. repeat split; try congruence; tauto.
Qed.

(** The loop of the refresher: which parts it fetches and what it leaves in
    the table. *)
Lemma update_rows_Ok (remote : BrickArchitect.Remote) (now : Database.datetime)
      (rows : list (Z * Database.date)) :
  forall (db db1 : Database.table) (fetched fetched1 : list Z),
    Inventory.update_rows remote now rows db fetched = Ok (db1, fetched1) ->
    let todo := map fst (filter (fun row => Database.date_ltb
                                              (snd row) (Database.to_date now))
                                rows) in
    fetched1 = fetched ++ todo
    /\ exists h, db1 = map h db
                 /\ forall r, Spec.refreshed (Database.to_date now) todo r (h r).
Proof.
  induction rows as [|[part d] rows IH]; intros db db1 fetched fetched1 H; simpl in *.
  - inversion H; subst. rewrite app_nil_r. split; [reflexivity|].
    exists (fun r => r). split; [now rewrite map_id|].
    intros r. left. split; [intros [] | reflexivity].
  - destruct (Database.date_ltb d (Database.to_date now)); simpl.
    + destruct (BrickArchitect.get_image remote (str part)) as [img|e];
        simpl in H; [|discriminate].
      apply IH in H. destruct H as (-> & h & -> & Hh).
      rewrite <- app_assoc. split; [reflexivity|].
      unfold Database.update_image. rewrite map_map.
      eexists. split; [reflexivity|].
      intros r. eapply refreshed_compose; [apply update_image_refreshes | apply Hh].
    + apply IH in H. exact H.
Qed.

Lemma update_rows_idle (remote : BrickArchitect.Remote) (now : Database.datetime)
      (rows : list (Z * Database.date)) (db : Database.table) (fetched : list Z) :
  (forall row, In row rows ->
               Database.date_ltb (snd row) (Database.to_date now) = false) ->
  Inventory.update_rows remote now rows db fetched = Ok (db, fetched).
Proof.
  induction rows as [|[part d] rows IH]; intros H; simpl; [reflexivity|].
  pose proof (H (part, d) (or_introl eq_refl)) as Hd. simpl in Hd.
  rewrite Hd. apply IH.
  intros row Hin. apply H. now right.
Qed.

Lemma stale_rows (today : Database.date) (ids : list Z) (db : Database.table) :
  map fst (filter (fun row => Database.date_ltb (snd row) today)
                  (Database.get_missing_images ids db))
  = map Database.DesignID (filter (Spec.stale today ids) db).
Proof.
  unfold Database.get_missing_images, Spec.stale, Spec.no_image.
  induction db as [|r db IH]; simpl; [reflexivity|].
  destruct (Database.in_ids ids (Database.DesignID r)); simpl; [|exact IH].
  destruct (Database.Image r); simpl; [exact IH|].
  destruct (Database.date_ltb (Database.Updated r) today); simpl;
    [now rewrite IH | exact IH].
Qed.

(** C8.  A run of the refresher that returns has fetched the image exactly
    for the rows of the cache that belong to the working set, have no image
    and were last attempted strictly before today (dates only are compared),
    and it has stamped each of them with today's date; a second run at any
    time of the same calendar day fetches nothing and leaves the cache as it
    is. *)
Theorem refresher_exact_and_idempotent_same_day
        (remote : BrickArchitect.Remote) (now now' : Database.datetime)
        (df : list Inventory.Part) (db db1 : Database.table)
        (fetched : list Z) :
  Inventory.update_images remote now df db = Ok (db1, fetched) ->
  Database.to_date now' = Database.to_date now ->
  fetched
  = map Database.DesignID
        (filter (Spec.stale (Database.to_date now)
                            (map Inventory.DesignID df)) db)
  /\ (forall r, In r db1 -> In (Database.DesignID r) fetched ->
                Database.Updated r = Database.to_date now)
  /\ Inventory.update_images remote now' df db1 = Ok (db1, []).
Proof.
  unfold Inventory.update_images. intros H Hday.
  set (ids := map Inventory.DesignID df) in *.
  apply update_rows_Ok in H. simpl in H.
  rewrite stale_rows in H. destruct H as (-> & h & -> & Hh).
  set (todo := map Database.DesignID
                   (filter (Spec.stale (Database.to_date now) ids) db)) in *.
  split; [reflexivity|]. split.
  - intros r1 Hin Hf. apply in_map_iff in Hin. destruct Hin as (r & <- & Hr).
    destruct (Hh r) as [[Hn E]|(_ & _ & _ & _ & Hu)]; [|exact Hu].
    rewrite E in Hf. contradiction.
  - apply update_rows_idle. rewrite Hday.
    intros row Hin. unfold Database.get_missing_images in Hin.
    apply in_map_iff in Hin. destruct Hin as (r1 & <- & Hr1).
    apply filter_In in Hr1. destruct Hr1 as [Hr1 Hc].
    apply in_map_iff in Hr1. destruct Hr1 as (r & <- & Hr).
    apply andb_true_iff in Hc. destruct Hc as [Hid Hnone]. simpl.
    destruct (Hh r) as [[Hn E]|(_ & _ & _ & Hi & _)].
    + rewrite E in *.
      destruct (Database.date_ltb (Database.Updated r) (Database.to_date now))
               eqn:Hlt; [|reflexivity].
      exfalso. apply Hn. unfold todo. apply in_map, filter_In.
      split; [exact Hr|]. unfold Spec.stale, Spec.no_image.
      now rewrite Hid, Hnone, Hlt.
    + unfold Spec.no_image in Hi.
      destruct (Database.Image (h r)); discriminate.
Qed.

Lemma refresher_exact_and_idempotent_same_day_witness :
  [3001]
  = map Database.DesignID
        (filter (Spec.stale (Sample.day 2025 3 1) [3001; 3002; 3003])
                Sample.cache_with_gaps)
  /\ Inventory.update_images
       Sample.error_page_remote (Sample.at_time (Sample.day 2025 3 1) 86000)
       [Sample.part 3001 1 "Lego,1. Basic,Brick"; Sample.part 3002 1 "Lego";
        Sample.part 3003 1 "Lego,1. Basic,Plate"]
       [Sample.cached 3001 "Lego,1. Basic,Brick" (Some "None") (Sample.day 2025 3 1);
        Sample.cached 3002 "Lego" None (Sample.day 2025 3 1);
        Sample.cached 3003 "Lego,1. Basic,Plate" (Some "b64:png-of-3003")
                      (Sample.day 2025 1 5)]
     = Ok ([Sample.cached 3001 "Lego,1. Basic,Brick" (Some "None")
                          (Sample.day 2025 3 1);
            Sample.cached 3002 "Lego" None (Sample.day 2025 3 1);
            Sample.cached 3003 "Lego,1. Basic,Plate" (Some "b64:png-of-3003")
                          (Sample.day 2025 1 5)], []).
Proof.
  destruct (refresher_exact_and_idempotent_same_day
              Sample.error_page_remote
              (Sample.at_time (Sample.day 2025 3 1) 600)
              (Sample.at_time (Sample.day 2025 3 1) 86000)
              [Sample.part 3001 1 "Lego,1. Basic,Brick"; Sample.part 3002 1 "Lego";
               Sample.part 3003 1 "Lego,1. Basic,Plate"]
              Sample.cache_with_gaps
              [Sample.cached 3001 "Lego,1. Basic,Brick" (Some "None")
                             (Sample.day 2025 3 1);
               Sample.cached 3002 "Lego" None (Sample.day 2025 3 1);
               Sample.cached 3003 "Lego,1. Basic,Plate" (Some "b64:png-of-3003")
                             (Sample.day 2025 1 5)]
              [3001] eq_refl eq_refl) as (H1 & _ & H3).
  split; [exact H1 | exact H3].
Defined.

(** ** The renderer *)

Lemma string_append_assoc (a b c : string) :
  ((a ++ b) ++ c)%string = (a ++ b ++ c)%string.
Proof.
  induction a as [|x a IH]; simpl; [reflexivity | now rewrite IH].
Qed.

Lemma nth_error_set_slot {B : Type} (i j : nat) (v : B) (slots : list (option B)) :
  nth_error (Inventory.set_slot i v slots) j
  = if (j =? i)%nat
    then match nth_error slots j with
         | Some _ => Some (Some v)
         | None => None
         end
    else nth_error slots j.
Proof.
  revert j slots. induction i as [|i IH]; intros j [|s slots]; simpl.
  - destruct j; simpl; [reflexivity|]. now destruct j.
  - destruct j; reflexivity.
  - destruct (j =? S i)%nat; now destruct j.
  - destruct j as [|j]; simpl; [reflexivity | apply IH].
Qed.

Lemma length_set_slot {B : Type} (i : nat) (v : B) (slots : list (option B)) :
  List.length (Inventory.set_slot i v slots) = List.length slots.
Proof.
  revert slots. induction i as [|i IH]; intros [|s slots]; simpl; auto.
Qed.

(** The slot of a task after the workers are done: filled with the task's
    own result when the task was scheduled. *)
Lemma run_tasks_slot {A B : Type} (fn : A -> B) (xs : list A)
      (schedule : list nat) :
  forall (slots : list (option B)) (j : nat) (x : A),
    List.length slots = List.length xs ->
    nth_error xs j = Some x ->
    nth_error (fold_left (Inventory.complete fn xs) schedule slots) j
    = if existsb (Nat.eqb j) schedule then Some (Some (fn x))
      else nth_error slots j.
Proof.
  induction schedule as [|i schedule IH]; intros slots j x Hlen Hj; simpl;
    [reflexivity|].
  assert (Hlen' : List.length (Inventory.complete fn xs slots i) = List.length xs).
  { unfold Inventory.complete. destruct (nth_error xs i); [|exact Hlen].
    now rewrite length_set_slot. }
  rewrite (IH _ j x Hlen' Hj).
  destruct (existsb (Nat.eqb j) schedule); [now rewrite orb_true_r|].
  rewrite orb_false_r. unfold Inventory.complete.
  destruct (Nat.eqb_spec j i) as [->|Hne].
  - rewrite Hj, nth_error_set_slot, Nat.eqb_refl.
    assert (Hlt : (i < List.length slots)%nat)
      by (rewrite Hlen; apply nth_error_Some; congruence).
    apply nth_error_Some in Hlt.
    destruct (nth_error slots i); [reflexivity | congruence].
  - destruct (nth_error xs i); [|reflexivity].
    rewrite nth_error_set_slot.
    destruct (Nat.eqb_spec j i); [contradiction | reflexivity].
Qed.

Lemma length_run_tasks {A B : Type} (fn : A -> B) (xs : list A)
      (schedule : list nat) (slots : list (option B)) :
  List.length (fold_left (Inventory.complete fn xs) schedule slots)
  = List.length slots.
Proof.
  revert slots. induction schedule as [|i schedule IH]; intros slots; simpl;
    [reflexivity|].
  rewrite IH. unfold Inventory.complete.
  destruct (nth_error xs i); [apply length_set_slot | reflexivity].
Qed.

Lemma run_tasks_all_done {A B : Type} (fn : A -> B) (xs : list A)
      (schedule : list nat) :
  Permutation schedule (seq 0 (List.length xs)) ->
  Inventory.run_tasks fn xs schedule = map Some (map fn xs).
Proof.
  intros Hperm. unfold Inventory.run_tasks. apply nth_error_ext. intros j.
  destruct (nth_error xs j) as [x|] eqn:Hj.
  - rewrite (run_tasks_slot fn xs schedule _ j x (repeat_length _ _) Hj).
    assert (Hin : In j schedule).
    { apply (Permutation_in j (Permutation_sym Hperm)), in_seq.
      assert (j < List.length xs)%nat by (apply nth_error_Some; congruence). lia. }
    replace (existsb (Nat.eqb j) schedule) with true.
    + rewrite !nth_error_map, Hj. reflexivity.
    + symmetry. apply existsb_exists. exists j. split; [exact Hin|].
      apply Nat.eqb_refl.
  - rewrite !nth_error_map, Hj. simpl. apply nth_error_None.
    rewrite length_run_tasks, repeat_length. now apply nth_error_None.
Qed.

Lemma yield_all_Some {B : Type} (l : list B) :
  Inventory.yield_all (map Some l) = Some l.
Proof.
  induction l as [|x l IH]; simpl; [reflexivity | now rewrite IH].
Qed.

Lemma html_string_loop (db : Database.table)
      (clusters : list Cluster.ClusterSummary) (html_string : string) :
  fold_left (fun html_string result => (html_string ++ join "" result)%string)
            (map (Inventory.single_cluster_html db) clusters) html_string
  = (html_string ++ Inventory.sequential_rendering db clusters)%string.
Proof.
  revert html_string. induction clusters as [|c clusters IH]; intros acc; simpl.
  - induction acc as [|x acc IHa]; simpl; [reflexivity | now rewrite <- IHa].
  - rewrite IH. apply string_append_assoc.
Qed.

(** C9.  Whatever the order in which the workers finish the per-cluster
    tasks, [as_html] returns the blocks of the clusters concatenated in the
    order of the given list: the concurrent rendering equals the sequential
    one. *)
Theorem as_html_equals_sequential_rendering
        (db : Database.table) (clusters : list Cluster.ClusterSummary)
        (schedule : list nat) :
  Permutation schedule (seq 0 (List.length clusters)) ->
  Inventory.as_html db clusters schedule
  = Some (Inventory.sequential_rendering db clusters).
Proof.
  intros Hperm. unfold Inventory.as_html, Inventory.executor_map.
  rewrite (run_tasks_all_done _ _ _ Hperm), yield_all_Some. simpl.
  now rewrite html_string_loop.
Qed.

Lemma as_html_equals_sequential_rendering_witness :
  Inventory.as_html Sample.cache_with_gaps Sample.three_clusters [2; 0; 1]%nat
  = Some (Inventory.sequential_rendering Sample.cache_with_gaps
                                         Sample.three_clusters).
Proof.
  apply (as_html_equals_sequential_rendering
           Sample.cache_with_gaps Sample.three_clusters [2; 0; 1]%nat).
  simpl. apply perm_trans with [0; 2; 1]%nat.
  - apply perm_swap.
  - apply perm_skip, perm_swap.
Defined.

(** ** The clusterer *)

Lemma index_of_In (name : string) (cols : list string) (i : nat) :
  Frame.index_of name cols = Some i -> In name cols.
Proof.
  revert i. induction cols as [|c cols IH]; intros i; simpl; [discriminate|].
  destruct (String.eqb_spec name c) as [->|Hne]; [now left|].
  destruct (Frame.index_of name cols) as [n|] eqn:E; simpl; [|discriminate].
  intros _. right. exact (IH n eq_refl).
Qed.

Lemma index_of_In_Some (name : string) (cols : list string) :
  In name cols -> exists i, Frame.index_of name cols = Some i.
Proof.
  induction cols as [|c cols IH]; simpl; [intros []|].
  destruct (String.eqb_spec name c) as [->|Hne]; [eauto|].
  intros [E|Hin]; [congruence|].
  destruct (IH Hin) as (i & ->). simpl. eauto.
Qed.

Lemma index_of_fresh (name : string) (cols : list string) :
  ~ In name cols -> Frame.index_of name cols = None.
Proof.
  intros H. destruct (Frame.index_of name cols) eqn:E; [|reflexivity].
  apply index_of_In in E. contradiction.
Qed.

Lemma index_of_appended (name : string) (cols : list string) :
  ~ In name cols ->
  Frame.index_of name (cols ++ [name]) = Some (List.length cols).
Proof.
  induction cols as [|c cols IH]; simpl; intros H.
  - now rewrite String.eqb_refl.
  - destruct (String.eqb_spec name c) as [->|Hne]; [tauto|].
    rewrite IH by tauto. reflexivity.
Qed.

Lemma cell_appended (row : list Z) (v : Z) :
  Frame.cell (List.length row) (row ++ [v]) = v.
Proof.
  unfold Frame.cell. rewrite app_nth2 by lia. now rewrite Nat.sub_diag.
Qed.

(** What a call of [kmeans_clusters] that returns has done. *)
Lemma kmeans_clusters_Ok
      (kmeans_labels : list (list Z) -> list Z -> Z -> option Z -> list Z)
      (input_df df' : Frame.DataFrame) (num_clusters : Z) (seed : option Z)
      (cs : list Cluster.ClusterSummary) :
  Cluster.kmeans_clusters kmeans_labels input_df num_clusters seed = Ok (df', cs) ->
  exists w labels,
    Frame.column "Quantity" input_df = Ok w
    /\ Cluster.KMeans_fit kmeans_labels (Frame.iloc_from 2 input_df) w
                          num_clusters seed = Ok labels
    /\ Cluster.silhouette_score (Frame.iloc_from 2 input_df) labels = Ok tt
    /\ df' = Frame.set_column "cluster" labels input_df
    /\ In "DesignID" (Frame.columns df').
Proof.
  unfold Cluster.kmeans_clusters. intros H.
  destruct (Frame.column "Quantity" input_df) as [w|e] eqn:Hw;
    simpl in H; [|discriminate].
  destruct (Cluster.KMeans_fit _ _ w num_clusters seed) as [labels|e] eqn:Hfit;
    simpl in H; [|discriminate].
  destruct (Cluster.silhouette_score _ labels) as [[]|e] eqn:Hsil;
    simpl in H; [|discriminate].
  destruct (Frame.drop "DesignID" _) as [clusters|e] eqn:Hdrop;
    simpl in H; [|discriminate].
  destruct (Cluster.groupby_cluster_sum _ _) as [grouped|e]; simpl in H;
    [|discriminate].
  destruct (Frame.column "DesignID" _) as [ids|e]; simpl in H; [|discriminate].
  destruct (Frame.column "cluster" _) as [assigned|e]; simpl in H; [|discriminate].
  destruct (mapM _ (Frame.data grouped)) as [summaries|e]; simpl in H;
    [|discriminate].
  inversion H; subst. exists w, labels.
  split; [reflexivity|]. split; [exact Hfit|]. split; [exact Hsil|].
  split; [reflexivity|].
  unfold Frame.drop in Hdrop.
  destruct (Frame.index_of "DesignID" _) eqn:E; [|discriminate].
  now apply index_of_In in E.
Qed.

Lemma KMeans_fit_Ok
      (kmeans_labels : list (list Z) -> list Z -> Z -> option Z -> list Z)
      (X : Frame.DataFrame) (w : list Z) (k : Z) (seed : option Z)
      (labels : list Z) :
  Cluster.KMeans_fit kmeans_labels X w k seed = Ok labels ->
  1 <= k <= Z.of_nat (List.length (Frame.data X))
  /\ labels = kmeans_labels (Frame.data X) w k seed.
Proof.
  unfold Cluster.KMeans_fit.
  destruct (Z.ltb_spec k 1) as [Hk|Hk]; [discriminate|].
  destruct (match seed with Some s => _ | None => false end); [discriminate|].
  destruct (_ || _); [discriminate|].
  destruct (Z.ltb_spec (Z.of_nat (List.length (Frame.data X))) k) as [Hn|Hn];
    [discriminate|].
  intros H. inversion H. split; [lia | reflexivity].
Qed.

Lemma appended_column_read (n : nat) (rows : list (list Z)) (values : list Z) :
  Forall (fun row => List.length row = n) rows ->
  List.length values = List.length rows ->
  map (Frame.cell n) (map (fun rv => fst rv ++ [snd rv]) (combine rows values))
  = values.
Proof.
  intros Hrows. revert values.
  induction Hrows as [|row rows Hrow _ IH]; intros [|v values] Hlen;
    simpl in *; try reflexivity; try discriminate.
  rewrite <- Hrow, cell_appended, Hrow, IH by lia. reflexivity.
Qed.

(** C10.  A call of [kmeans_clusters] that returns has changed the frame it
    was given: the caller's frame has gained the column [cluster], which
    holds the cluster assigned to each record, and [Inventory.cluster] keeps
    that frame as its working set, so the feature columns
    ([iloc[:, 2:]]) of a later call contain the assignment column. *)
Theorem kmeans_clusters_adds_cluster_column
        (kmeans_labels : list (list Z) -> list Z -> Z -> option Z -> list Z)
        (input_df df' : Frame.DataFrame) (num_clusters : Z) (seed : option Z)
        (cs : list Cluster.ClusterSummary) :
  ~ In "cluster" (Frame.columns input_df) ->
  Cluster.kmeans_clusters kmeans_labels input_df num_clusters seed = Ok (df', cs) ->
  exists w labels,
    Frame.column "Quantity" input_df = Ok w
    /\ labels = kmeans_labels (Frame.data (Frame.iloc_from 2 input_df)) w
                              num_clusters seed
    /\ Frame.columns df' = Frame.columns input_df ++ ["cluster"]
    /\ Frame.data df'
       = map (fun rv => fst rv ++ [snd rv]) (combine (Frame.data input_df) labels)
    /\ (Forall (fun row => List.length row = List.length (Frame.columns input_df))
               (Frame.data input_df) ->
        List.length labels = List.length (Frame.data input_df) ->
        Frame.column "cluster" df' = Ok labels)
    /\ df' <> input_df
    /\ Frame.columns (Frame.iloc_from 2 df')
       = Frame.columns (Frame.iloc_from 2 input_df) ++ ["cluster"]
    /\ (forall previous,
           Inventory.cluster kmeans_labels
                             {| Inventory.df := input_df;
                                Inventory.clusters := previous |}
                             num_clusters seed
           = Ok {| Inventory.df := df'; Inventory.clusters := Some cs |}).
Proof.
  intros Hfresh H.
  destruct (kmeans_clusters_Ok _ _ _ _ _ _ H) as (w & labels & Hw & Hfit & _ & Hdf & Hid).
  apply KMeans_fit_Ok in Hfit. destruct Hfit as [_ Hlabels].
  exists w, labels. split; [exact Hw|]. split; [exact Hlabels|].
  assert (Hcols : Frame.columns df' = Frame.columns input_df ++ ["cluster"]).
  { subst df'. unfold Frame.set_column.
    now rewrite (index_of_fresh _ _ Hfresh). }
  assert (Hdata : Frame.data df'
                  = map (fun rv => fst rv ++ [snd rv])
                        (combine (Frame.data input_df) labels)).
  { subst df'. unfold Frame.set_column.
    now rewrite (index_of_fresh _ _ Hfresh). }
  split; [exact Hcols|]. split; [exact Hdata|]. split; [|split; [|split]].
  - intros Hrows Hlen. unfold Frame.column.
    rewrite Hcols, (index_of_appended _ _ Hfresh), Hdata.
    now rewrite appended_column_read.
  - intros E. rewrite E in Hcols.
    apply (f_equal (@List.length string)) in Hcols.
    rewrite length_app in Hcols. simpl in Hcols. lia.
  - simpl. rewrite Hcols.
    assert (Hq : In "Quantity" (Frame.columns input_df)).
    { unfold Frame.column in Hw.
      destruct (Frame.index_of "Quantity" _) eqn:E; [|discriminate].
      now apply index_of_In in E. }
    rewrite Hcols in Hid. apply in_app_or in Hid.
    destruct Hid as [Hid|[Hid|[]]]; [|discriminate].
    destruct (Frame.columns input_df) as [|c1 [|c2 cols]]; simpl in *.
    + destruct Hq.
    + destruct Hq as [Hq|[]]. destruct Hid as [Hid|[]]. congruence.
    + reflexivity.
  - intros previous. unfold Inventory.cluster. simpl. rewrite H. reflexivity.
Qed.

Lemma kmeans_clusters_adds_cluster_column_witness :
  exists w labels,
    Frame.column "Quantity" Sample.three_parts_frame = Ok w
    /\ labels = Sample.feature_assignment
                  (Frame.data (Frame.iloc_from 2 Sample.three_parts_frame)) w 2 None
    /\ Frame.columns Sample.clustered_frame
       = Frame.columns Sample.three_parts_frame ++ ["cluster"].
Proof.
  destruct (kmeans_clusters_adds_cluster_column
              Sample.feature_assignment Sample.three_parts_frame
              Sample.clustered_frame 2 None Sample.clustered_summaries)
    as (w & labels & H1 & H2 & H3 & _).
  - simpl. intros H. repeat (destruct H as [H|H]; [discriminate|]). exact H.
  - vm_compute. reflexivity.
  - exists w, labels. split; [exact H1|]. split; [exact H2 | exact H3].
Defined.

Lemma distinct_single_cluster (labels seen : list Z) :
  seen = [] \/ seen = [0] ->
  Forall (fun l => 0 <= l < 1) labels ->
  let d := fold_left (fun seen x => if existsb (Z.eqb x) seen then seen
                                    else seen ++ [x]) labels seen in
  d = [] \/ d = [0].
Proof.
  intros Hseen Hl. revert seen Hseen.
  induction Hl as [|x labels Hx _ IH]; intros seen Hseen; simpl; [exact Hseen|].
  assert (x = 0) by lia. subst x. apply IH.
  destruct Hseen as [->| ->]; simpl; auto.
Qed.

Lemma silhouette_single_cluster (X : Frame.DataFrame) (labels : list Z) :
  Forall (fun l => 0 <= l < 1) labels ->
  Cluster.silhouette_score X labels = Raise ValueError.
Proof.
  intros H. unfold Cluster.silhouette_score, Cluster.distinct.
  destruct (distinct_single_cluster labels [] (or_introl eq_refl) H) as [-> | ->];
    reflexivity.
Qed.

(** The fit of a call that returns ran with the seed the call was given,
    and its assignment is what the call wrote into the frame. *)
Lemma kmeans_clusters_runs_given_seed
      (kmeans_labels : list (list Z) -> list Z -> Z -> option Z -> list Z)
      (input_df df' : Frame.DataFrame) (k : Z) (seed : option Z)
      (cs : list Cluster.ClusterSummary) :
  Cluster.kmeans_clusters kmeans_labels input_df k seed = Ok (df', cs) ->
  exists w,
    Frame.column "Quantity" input_df = Ok w
    /\ df' = Frame.set_column
               "cluster"
               (kmeans_labels (Frame.data (Frame.iloc_from 2 input_df)) w k seed)
               input_df.
Proof.
  intros H.
  destruct (kmeans_clusters_Ok _ _ _ _ _ _ H)
    as (w & labels & Hw & Hfit & _ & Hdf & _).
  apply KMeans_fit_Ok in Hfit. destruct Hfit as [_ Hlabels].
  exists w. split; [exact Hw|]. now rewrite <- Hlabels.
Qed.

(** C6, as the claim states it, fails: called without a seed, the core
    draws none.  Whatever the k-means is, the fit of a call without a seed
    runs without a seed, and what the call returns are the frame it was given,
    with the assignment of that fit, and the summaries, which hold a label, a
    quantity and the member identities: no seed is reported.  On the three
    parts and two clusters the call returns the frame with the assignment of
    the unseeded fit and the two summaries given here. *)
Lemma core_draws_no_seed_counterexample :
  (exists df' cs,
      Cluster.kmeans_clusters Sample.feature_assignment Sample.three_parts_frame
                              2 None
      = Ok (df', cs)
      /\ Frame.column "cluster" df'
         = Ok (Sample.feature_assignment
                 (Frame.data (Frame.iloc_from 2 Sample.three_parts_frame))
                 [1; 3; 4] 2 None)
      /\ Permutation cs [Sample.summary "Technic" 4 "3648, 2780";
                         Sample.summary "Brick" 4 "3001"])
  /\ (forall (kmeans_labels : list (list Z) -> list Z -> Z -> option Z -> list Z)
             (input_df df' : Frame.DataFrame) (k : Z)
             (cs : list Cluster.ClusterSummary),
         Cluster.kmeans_clusters kmeans_labels input_df k None = Ok (df', cs) ->
         exists w,
           Frame.column "Quantity" input_df = Ok w
           /\ df' = Frame.set_column
                      "cluster"
                      (kmeans_labels (Frame.data (Frame.iloc_from 2 input_df))
                                     w k None)
                      input_df).
Proof.
  split.
  - exists Sample.clustered_frame, Sample.clustered_summaries.
    split; [vm_compute; reflexivity|]. split; [vm_compute; reflexivity|].
    apply perm_swap.
  - intros kmeans_labels input_df df' k cs.
    apply kmeans_clusters_runs_given_seed.
Qed.

(** *** When the clusterer returns *)

Lemma mapM_succeeds {A B : Type} (f : A -> result B) (l : list A) :
  (forall x, In x l -> succeeds (f x)) -> succeeds (mapM f l).
Proof.
  induction l as [|x l IH]; intros H; simpl; [now exists []|].
  destruct (H x (or_introl eq_refl)) as (y & ->).
  destruct IH as (ys & ->); [intros; apply H; now right|].
  simpl. now exists (y :: ys).
Qed.

Lemma list_remove_appended (name : string) (cols : list string) :
  ~ In name cols -> Cluster.list_remove name (cols ++ [name]) = cols.
Proof.
  induction cols as [|c cols IH]; simpl; intros H.
  - now rewrite String.eqb_refl.
  - destruct (String.eqb_spec name c) as [->|Hne]; [tauto|].
    rewrite IH by tauto. reflexivity.
Qed.

Lemma lookup_succeeds (name : string) (cols : list string) (row : list Z) :
  In name cols -> succeeds (Frame.lookup name cols row).
Proof.
  intros H. unfold Frame.lookup.
  destruct (index_of_In_Some _ _ H) as (i & ->). now eexists.
Qed.

Lemma qualifying_succeeds (cols all_cols : list string) (x : list Z) :
  incl cols all_cols -> In "Lego" all_cols ->
  succeeds (Cluster.qualifying cols all_cols x).
Proof.
  intros Hincl Hlego. induction cols as [|col cols IH]; simpl; [now eexists|].
  assert (Hrest : succeeds (Cluster.qualifying cols all_cols x)).
  { apply IH. intros c Hc. apply Hincl. now right. }
  destruct (String.eqb col "Lego"); [exact Hrest|].
  destruct (lookup_succeeds col all_cols x (Hincl col (or_introl eq_refl)))
    as (v & ->).
  destruct (lookup_succeeds "Lego" all_cols x Hlego) as (lego & ->).
  destruct Hrest as (rest & ->). simpl. now eexists.
Qed.

(** On a frame of the encoder's shape, a fit that uses at least two and
    fewer than [n] distinct clusters makes [kmeans_clusters] return. *)
Lemma kmeans_clusters_succeeds
      (kmeans_labels : list (list Z) -> list Z -> Z -> option Z -> list Z)
      (input_df : Frame.DataFrame) (features : list string)
      (k : Z) (seed : option Z) (w labels : list Z) :
  Frame.columns input_df = "DesignID" :: "Quantity" :: features ->
  In "Lego" features ->
  ~ In "cluster" features ->
  Frame.column "Quantity" input_df = Ok w ->
  Cluster.KMeans_fit kmeans_labels (Frame.iloc_from 2 input_df) w k seed
  = Ok labels ->
  (2 <= List.length (Cluster.distinct labels)
   < List.length (Frame.data input_df))%nat ->
  succeeds (Cluster.kmeans_clusters kmeans_labels input_df k seed).
Proof.
  intros Hcols Hlego Hfresh Hw Hfit Hd.
  assert (Hfresh' : ~ In "cluster" (Frame.columns input_df)).
  { rewrite Hcols. simpl. intros [E|[E|H]]; [discriminate | discriminate | auto]. }
  unfold Cluster.kmeans_clusters. rewrite Hw. cbn [bind]. rewrite Hfit. cbn [bind].
  unfold Cluster.silhouette_score.
  replace (List.length (Frame.data (Frame.iloc_from 2 input_df)))
    with (List.length (Frame.data input_df)) by (simpl; now rewrite length_map).
  replace (1 <? List.length (Cluster.distinct labels))%nat with true
    by (symmetry; apply Nat.ltb_lt; lia).
  replace (List.length (Cluster.distinct labels)
           <? List.length (Frame.data input_df))%nat with true
    by (symmetry; apply Nat.ltb_lt; lia).
  cbn [andb bind].
  set (df1 := Frame.set_column "cluster" labels input_df).
  assert (Hcols1 : Frame.columns df1
                   = "DesignID" :: "Quantity" :: features ++ ["cluster"]).
  { unfold df1, Frame.set_column. rewrite (index_of_fresh _ _ Hfresh').
    simpl. now rewrite Hcols. }
  unfold Frame.drop. rewrite Hcols1.
  change (Frame.index_of "DesignID"
            ("DesignID" :: "Quantity" :: features ++ ["cluster"]))
    with (Some O).
  cbn [bind Frame.remove_nth Frame.columns].
  change ("Quantity" :: features ++ ["cluster"])
    with (("Quantity" :: features) ++ ["cluster"]).
  rewrite list_remove_appended
    by (simpl; intros [E|H]; [discriminate | auto]).
  unfold Cluster.groupby_cluster_sum, Frame.column at 1. cbn [Frame.columns].
  assert (Hin_cluster : In "cluster" (("Quantity" :: features) ++ ["cluster"]))
    by (apply in_or_app; right; now left).
  destruct (index_of_In_Some _ _ Hin_cluster) as (ci & Hci). rewrite Hci.
  cbn [bind].
  destruct (mapM_succeeds
              (fun c => match Frame.index_of c (("Quantity" :: features)
                                                  ++ ["cluster"]) with
                        | Some i => Ok i
                        | None => Raise KeyError
                        end) ("Quantity" :: features)) as (idx & Hidx).
  { intros c Hc.
    destruct (index_of_In_Some c (("Quantity" :: features) ++ ["cluster"]))
      as (i & ->); [apply in_or_app; now left | now eexists]. }
  rewrite Hidx. cbn [bind].
  unfold Frame.column. rewrite Hcols1.
  change (Frame.index_of "DesignID"
            ("DesignID" :: "Quantity" :: features ++ ["cluster"]))
    with (Some O).
  cbn [bind].
  assert (Hin1 : In "cluster" ("DesignID" :: "Quantity" :: features ++ ["cluster"])).
  { right. right. apply in_or_app. right. now left. }
  destruct (index_of_In_Some _ _ Hin1) as (cj & Hcj). rewrite Hcj.
  cbn [bind Frame.columns Frame.data].
  match goal with
  | |- succeeds (bind (mapM ?f ?l) _) =>
      destruct (mapM_succeeds f l) as (summaries & Hs)
  end.
  { intros x _. cbn [skipn].
    destruct (qualifying_succeeds features ("cluster" :: "Quantity" :: features) x)
      as (terms & ->).
    - intros c Hc. right. now right.
    - right. now right.
    - cbn [bind].
      destruct (lookup_succeeds "Quantity" ("cluster" :: "Quantity" :: features) x)
        as (q & ->); [right; now left|].
      destruct (lookup_succeeds "cluster" ("cluster" :: "Quantity" :: features) x)
        as (key & ->); [now left|].
      cbn [bind]. now eexists. }
  rewrite Hs. cbn [bind]. now eexists.
Qed.

(** C5, as the claim states it, fails: a working set of three records
    clustered with k = 1, which lies between 1 and the number of records, is
    rejected with a ValueError. *)
Lemma one_cluster_rejected_counterexample :
  1 <= 1 <= Z.of_nat (List.length (Frame.data Sample.three_parts_frame))
  /\ Sample.feature_assignment
       (Frame.data (Frame.iloc_from 2 Sample.three_parts_frame)) [1; 3; 4] 1 None
     = [0; 0; 0]
  /\ Cluster.kmeans_clusters Sample.feature_assignment Sample.three_parts_frame
                             1 None
     = Raise ValueError.
Proof.
  split; [simpl; lia|]. split; vm_compute; reflexivity.
Qed.

(** C5, amended.  On a working set with a [Quantity] column and [n]
    records, [kmeans_clusters] fails with InvalidParameterError when
    [k < 1] and with an error of the ValueError family when [k > n]; with
    [k = 1] it fails as well, with the ValueError of the silhouette
    diagnostic, whatever the working set.  A call that returns had
    [2 <= k <= n], and its fit used at least 2 and fewer than [n] distinct
    clusters; on a frame of the encoder's shape (columns [DesignID],
    [Quantity], then the terms with the root among them) every fit that
    does so makes the call return. *)
Theorem cluster_count_accepted_range
        (kmeans_labels : list (list Z) -> list Z -> Z -> option Z -> list Z)
        (input_df : Frame.DataFrame) (k : Z) (seed : option Z) :
  In "Quantity" (Frame.columns input_df) ->
  Sample.assigns_below_k kmeans_labels ->
  let n := Z.of_nat (List.length (Frame.data input_df)) in
  let outcome := Cluster.kmeans_clusters kmeans_labels input_df k seed in
  (k < 1 -> outcome = Raise InvalidParameterError)
  /\ (n < k -> exists e, outcome = Raise e /\ is_ValueError e = true)
  /\ (k = 1 -> exists e, outcome = Raise e /\ is_ValueError e = true)
  /\ (forall r, outcome = Ok r ->
                2 <= k <= n
                /\ exists w labels,
                     Frame.column "Quantity" input_df = Ok w
                     /\ labels = kmeans_labels
                                   (Frame.data (Frame.iloc_from 2 input_df))
                                   w k seed
                     /\ (2 <= List.length (Cluster.distinct labels)
                         < List.length (Frame.data input_df))%nat)
  /\ (forall features w labels,
         Frame.columns input_df = "DesignID" :: "Quantity" :: features ->
         In "Lego" features ->
         ~ In "cluster" features ->
         Frame.column "Quantity" input_df = Ok w ->
         Cluster.KMeans_fit kmeans_labels (Frame.iloc_from 2 input_df) w k seed
         = Ok labels ->
         (2 <= List.length (Cluster.distinct labels)
          < List.length (Frame.data input_df))%nat ->
         succeeds outcome).
Proof.
  intros Hq Hkm n outcome.
  destruct (index_of_In_Some _ _ Hq) as (iq & Hiq).
  assert (Hn : List.length (Frame.data (Frame.iloc_from 2 input_df))
               = List.length (Frame.data input_df)).
  { simpl. apply length_map. }
  assert (Hone : k = 1 -> exists e, outcome = Raise e /\ is_ValueError e = true).
  { intros ->. subst outcome. unfold Cluster.kmeans_clusters, Frame.column.
    rewrite Hiq. cbn [bind]. unfold Cluster.KMeans_fit.
    change (1 <? 1) with false. cbv iota.
    destruct (match seed with Some s => _ | None => false end);
      [cbn [bind]; eauto|].
    destruct (_ || _); [cbn [bind]; eauto|].
    destruct (_ <? 1); [cbn [bind]; eauto|].
    cbn [bind]. rewrite silhouette_single_cluster; [cbn [bind]; eauto|].
    apply Hkm. lia. }
  split; [|split; [|split; [exact Hone|split]]];
    [| | |intros features w labels; apply kmeans_clusters_succeeds].
  - intros Hk. subst outcome. unfold Cluster.kmeans_clusters, Frame.column.
    rewrite Hiq. cbn [bind]. unfold Cluster.KMeans_fit.
    replace (k <? 1) with true by (symmetry; apply Z.ltb_lt; lia).
    reflexivity.
  - intros Hk. subst outcome. unfold Cluster.kmeans_clusters, Frame.column.
    rewrite Hiq. cbn [bind]. unfold Cluster.KMeans_fit.
    destruct (k <? 1); [cbn [bind]; eauto|].
    destruct (match seed with Some s => _ | None => false end);
      [cbn [bind]; eauto|].
    destruct (_ || _); [cbn [bind]; eauto|].
    rewrite Hn.
    replace (Z.of_nat (List.length (Frame.data input_df)) <? k) with true
      by (symmetry; apply Z.ltb_lt; subst n; lia).
    cbn [bind]. eauto.
  - intros [df' cs] Hok. subst outcome.
    destruct (kmeans_clusters_Ok _ _ _ _ _ _ Hok)
      as (w & labels & Hw & Hfit & Hsil & _ & _).
    apply KMeans_fit_Ok in Hfit. rewrite Hn in Hfit. destruct Hfit as [Hk Hlabels].
    split.
    + destruct (Z.eq_dec k 1) as [E|E]; [|subst n; lia].
      destruct (Hone E) as (e & He & _). rewrite Hok in He. discriminate.
    + exists w, labels. split; [exact Hw|]. split; [exact Hlabels|].
      unfold Cluster.silhouette_score in Hsil. rewrite Hn in Hsil.
      destruct (Nat.ltb_spec 1 (List.length (Cluster.distinct labels)));
        [|discriminate].
      destruct (Nat.ltb_spec (List.length (Cluster.distinct labels))
                             (List.length (Frame.data input_df)));
        [|discriminate].
      lia.
Qed.

Lemma cluster_count_accepted_range_witness :
  (exists e,
      Cluster.kmeans_clusters Sample.feature_assignment Sample.three_parts_frame
                              1 None = Raise e
      /\ is_ValueError e = true)
  /\ 2 <= 2 <= Z.of_nat (List.length (Frame.data Sample.three_parts_frame)).
Proof.
  assert (Hq : In "Quantity" (Frame.columns Sample.three_parts_frame))
    by (simpl; tauto).
  assert (Hkm : Sample.assigns_below_k Sample.feature_assignment).
  { intros X w k rs Hk. unfold Sample.feature_assignment.
    destruct rs; (split; [apply length_map|]);
      apply Forall_map, Forall_forall; intros row _;
      apply Z.mod_pos_bound; lia. }
  split.
  - destruct (cluster_count_accepted_range
                Sample.feature_assignment Sample.three_parts_frame 1 None Hq Hkm)
      as (_ & _ & H & _).
    apply H. reflexivity.
  - destruct (cluster_count_accepted_range
                Sample.feature_assignment Sample.three_parts_frame 2 None Hq Hkm)
      as (_ & _ & _ & H & _).
    apply (H (Sample.clustered_frame, Sample.clustered_summaries)).
    vm_compute. reflexivity.
Defined.

(** ** The request handler *)

Lemma request_seed_cases (form : WebPage.Form) (rng_integers : Z) :
  (WebPage.py_int (WebPage.form_seed form) = Raise ValueError ->
   WebPage.request_seed form rng_integers = rng_integers)
  /\ (forall s, WebPage.py_int (WebPage.form_seed form) = Ok s ->
                WebPage.request_seed form rng_integers = s).
Proof.
  unfold WebPage.request_seed. split.
  - intros ->. reflexivity.
  - intros s ->. reflexivity.
Qed.

Lemma KMeans_fit_accepts (kmeans_labels : list (list Z) -> list Z -> Z -> option Z -> list Z)
      (X : Frame.DataFrame) (w : list Z) (k s : Z) :
  0 <= s < 2 ^ 32 - 1 ->
  1 <= k <= Z.of_nat (List.length (Frame.data X)) ->
  Frame.columns X <> [] ->
  Cluster.KMeans_fit kmeans_labels X w k (Some s)
  = Ok (kmeans_labels (Frame.data X) w k (Some s)).
Proof.
  intros Hs Hk Hcols. unfold Cluster.KMeans_fit.
  replace (k <? 1) with false by (symmetry; apply Z.ltb_ge; lia).
  replace (s <? 0) with false by (symmetry; apply Z.ltb_ge; lia).
  replace (2 ^ 32 - 1 <? s) with false by (symmetry; apply Z.ltb_ge; lia).
  cbn [orb].
  destruct (Frame.data X) as [|row rows] eqn:Hd; [simpl in Hk; lia|].
  destruct (Frame.columns X) as [|c cols]; [congruence|].
  cbn [List.length Nat.eqb orb].
  replace (Z.of_nat (S (List.length rows)) <? k) with false
    by (symmetry; apply Z.ltb_ge; simpl List.length in Hk; lia).
  reflexivity.
Qed.

Lemma index_post_Ok (remote : BrickArchitect.Remote)
      (re_compile : string -> result (string -> bool))
      (kmeans_labels : list (list Z) -> list Z -> Z -> option Z -> list Z)
      (form : WebPage.Form) (rng_integers : Z) (now : Database.datetime)
      (input : option Adapter.RawTable) (db : Database.table)
      (schedule : list nat) (attrs : WebPage.Attrs) (page : WebPage.Page) :
  WebPage.index_post remote re_compile kmeans_labels form rng_integers now
                     input db schedule = Some (Ok (attrs, page)) ->
  WebPage.seed attrs = WebPage.request_seed form rng_integers
  /\ WebPage.page_seed page = WebPage.request_seed form rng_integers
  /\ forall html,
       WebPage.page_result page = Some html ->
       exists n loaded db' inventory,
         WebPage.py_int (WebPage.form_num_clusters form) = Ok n
         /\ Inventory.load remote re_compile now input db = Ok (loaded, db')
         /\ Inventory.cluster kmeans_labels loaded n
                              (Some (WebPage.request_seed form rng_integers))
            = Ok inventory.
Proof.
  unfold WebPage.index_post.
  destruct (WebPage.py_int (WebPage.form_num_clusters form)) as [n|e];
    [|discriminate].
  destruct (Inventory.load remote re_compile now input db)
    as [[loaded db']|e] eqn:Hload; cbn [bind fst snd].
  - destruct (Inventory.cluster kmeans_labels loaded n _)
      as [inventory|e] eqn:Hcl; cbn [bind].
    + destruct (Inventory.clusters inventory) as [cs|]; [|discriminate].
      destruct (Inventory.as_html db' cs schedule) as [html|]; [|discriminate].
      simpl. intros H. inversion H; subst. simpl.
      split; [reflexivity|]. split; [reflexivity|].
      intros html' _. exists n, loaded, db', inventory. auto.
    + destruct (is_ValueError e); intros H; inversion H; subst. simpl.
      split; [reflexivity|]. split; [reflexivity|]. discriminate.
  - destruct (is_ValueError e); intros H; inversion H; subst. simpl.
    split; [reflexivity|]. split; [reflexivity|]. discriminate.
Qed.

(** The validation of the fit looks at the seed only to accept or refuse
    it: two accepted seeds with the same assignment give the same answer. *)
Lemma KMeans_fit_same_assignment
      (kmeans_labels : list (list Z) -> list Z -> Z -> option Z -> list Z)
      (X : Frame.DataFrame) (w : list Z) (k : Z) (s1 s2 : option Z) :
  match s1 with Some v => 0 <= v <= 2 ^ 32 - 1 | None => True end ->
  match s2 with Some v => 0 <= v <= 2 ^ 32 - 1 | None => True end ->
  kmeans_labels (Frame.data X) w k s1 = kmeans_labels (Frame.data X) w k s2 ->
  Cluster.KMeans_fit kmeans_labels X w k s1
  = Cluster.KMeans_fit kmeans_labels X w k s2.
Proof.
  intros H1 H2 E. unfold Cluster.KMeans_fit.
  destruct (k <? 1); [reflexivity|].
  assert (A1 : match s1 with
               | Some s => (s <? 0) || (2 ^ 32 - 1 <? s)
               | None => false
               end = false).
  { destruct s1 as [v|]; [|reflexivity]. apply orb_false_iff.
    split; apply Z.ltb_ge; lia. }
  assert (A2 : match s2 with
               | Some s => (s <? 0) || (2 ^ 32 - 1 <? s)
               | None => false
               end = false).
  { destruct s2 as [v|]; [|reflexivity]. apply orb_false_iff.
    split; apply Z.ltb_ge; lia. }
  rewrite A1, A2, E. reflexivity.
Qed.

Lemma kmeans_clusters_same_assignment
      (kmeans_labels : list (list Z) -> list Z -> Z -> option Z -> list Z)
      (input_df : Frame.DataFrame) (w : list Z) (k : Z) (s1 s2 : option Z) :
  Frame.column "Quantity" input_df = Ok w ->
  match s1 with Some v => 0 <= v <= 2 ^ 32 - 1 | None => True end ->
  match s2 with Some v => 0 <= v <= 2 ^ 32 - 1 | None => True end ->
  kmeans_labels (Frame.data (Frame.iloc_from 2 input_df)) w k s1
  = kmeans_labels (Frame.data (Frame.iloc_from 2 input_df)) w k s2 ->
  Cluster.kmeans_clusters kmeans_labels input_df k s1
  = Cluster.kmeans_clusters kmeans_labels input_df k s2.
Proof.
  intros Hw H1 H2 E. unfold Cluster.kmeans_clusters. rewrite Hw. cbn [bind].
  now rewrite (KMeans_fit_same_assignment _ _ _ _ s1 s2 H1 H2 E).
Qed.

(** [Inventory.cluster] hands its seed to [kmeans_clusters] and keeps the
    frame and the summaries that come back. *)
Lemma cluster_runs_given_seed
      (kmeans_labels : list (list Z) -> list Z -> Z -> option Z -> list Z)
      (self inventory : Inventory.State) (k : Z) (seed : option Z) :
  Inventory.cluster kmeans_labels self k seed = Ok inventory ->
  exists w df' cs,
    Frame.column "Quantity" (Inventory.df self) = Ok w
    /\ Cluster.kmeans_clusters kmeans_labels (Inventory.df self) k seed
       = Ok (df', cs)
    /\ df' = Frame.set_column
               "cluster"
               (kmeans_labels
                  (Frame.data (Frame.iloc_from 2 (Inventory.df self))) w k seed)
               (Inventory.df self)
    /\ inventory = {| Inventory.df := df'; Inventory.clusters := Some cs |}.
Proof.
  unfold Inventory.cluster. intros H.
  destruct (Cluster.kmeans_clusters kmeans_labels (Inventory.df self) k seed)
    as [[df' cs]|e] eqn:Hk; cbn [bind] in H; [|discriminate].
  destruct (kmeans_clusters_runs_given_seed _ _ _ _ _ _ Hk) as (w & Hw & Hdf).
  exists w, df', cs. split; [exact Hw|]. split; [reflexivity|].
  split; [exact Hdf|]. now inversion H.
Qed.

(** C6, amended.  The seed is substituted by the request handler, not by
    the core: when the seed field of the form does not parse as an integer
    (an empty field included), the handler takes the draw of its random
    generator, which lies between 0 and 2^32 - 2, otherwise the parsed
    value; it passes that seed to the core's cluster operation and renders
    the page with it.  The core passes the seed it is given to k-means as it
    is (a missing seed stays missing): [Inventory.cluster] calls
    [kmeans_clusters] with it, and the assignment that [kmeans_clusters]
    writes into the frame is the one of the fit run with exactly that seed.
    The core returns the frame and the cluster summaries only: two accepted
    seeds (or none) for which the fit assigns alike give the same result, so
    nothing of the seed is reported.  A drawn seed is one that the k-means
    validation accepts. *)
Theorem seed_substituted_by_request_handler
        (remote : BrickArchitect.Remote)
        (re_compile : string -> result (string -> bool))
        (kmeans_labels : list (list Z) -> list Z -> Z -> option Z -> list Z)
        (form : WebPage.Form) (rng_integers : Z) :
  0 <= rng_integers < 2 ^ 32 - 1 ->
  (WebPage.py_int (WebPage.form_seed form) = Raise ValueError ->
   WebPage.request_seed form rng_integers = rng_integers)
  /\ (forall s, WebPage.py_int (WebPage.form_seed form) = Ok s ->
                WebPage.request_seed form rng_integers = s)
  /\ WebPage.py_int "" = Raise ValueError
  /\ (forall now input db schedule attrs page,
         WebPage.index_post remote re_compile kmeans_labels form rng_integers
                            now input db schedule = Some (Ok (attrs, page)) ->
         WebPage.seed attrs = WebPage.request_seed form rng_integers
         /\ WebPage.page_seed page = WebPage.request_seed form rng_integers
         /\ forall html,
              WebPage.page_result page = Some html ->
              exists n loaded db' inventory,
                WebPage.py_int (WebPage.form_num_clusters form) = Ok n
                /\ Inventory.load remote re_compile now input db
                   = Ok (loaded, db')
                /\ Inventory.cluster
                     kmeans_labels loaded n
                     (Some (WebPage.request_seed form rng_integers))
                   = Ok inventory)
  /\ (forall X w k seed labels,
         Cluster.KMeans_fit kmeans_labels X w k seed = Ok labels ->
         labels = kmeans_labels (Frame.data X) w k seed)
  /\ (forall X w k,
         1 <= k <= Z.of_nat (List.length (Frame.data X)) ->
         Frame.columns X <> [] ->
         Cluster.KMeans_fit kmeans_labels X w k (Some rng_integers)
         = Ok (kmeans_labels (Frame.data X) w k (Some rng_integers)))
  /\ (forall self k seed inventory,
         Inventory.cluster kmeans_labels self k seed = Ok inventory ->
         exists w df' cs,
           Frame.column "Quantity" (Inventory.df self) = Ok w
           /\ Cluster.kmeans_clusters kmeans_labels (Inventory.df self) k seed
              = Ok (df', cs)
           /\ df' = Frame.set_column
                      "cluster"
                      (kmeans_labels
                         (Frame.data (Frame.iloc_from 2 (Inventory.df self)))
                         w k seed)
                      (Inventory.df self)
           /\ inventory = {| Inventory.df := df';
                             Inventory.clusters := Some cs |})
  /\ (forall input_df k seed df' cs,
         Cluster.kmeans_clusters kmeans_labels input_df k seed = Ok (df', cs) ->
         exists w,
           Frame.column "Quantity" input_df = Ok w
           /\ df' = Frame.set_column
                      "cluster"
                      (kmeans_labels (Frame.data (Frame.iloc_from 2 input_df))
                                     w k seed)
                      input_df)
  /\ (forall input_df w k s1 s2,
         Frame.column "Quantity" input_df = Ok w ->
         match s1 with Some v => 0 <= v <= 2 ^ 32 - 1 | None => True end ->
         match s2 with Some v => 0 <= v <= 2 ^ 32 - 1 | None => True end ->
         kmeans_labels (Frame.data (Frame.iloc_from 2 input_df)) w k s1
         = kmeans_labels (Frame.data (Frame.iloc_from 2 input_df)) w k s2 ->
         Cluster.kmeans_clusters kmeans_labels input_df k s1
         = Cluster.kmeans_clusters kmeans_labels input_df k s2).
Proof.
  intros Hdraw.
  destruct (request_seed_cases form rng_integers) as [H1 H2].
  split; [exact H1|]. split; [exact H2|]. split; [reflexivity|].
  split; [|split; [|split; [|split; [|split]]]].
  - intros now input db schedule attrs page. apply index_post_Ok.
  - intros X w k seed labels H. now apply KMeans_fit_Ok in H.
  - intros X w k Hk Hcols. now apply KMeans_fit_accepts.
  - intros self k seed inventory. apply cluster_runs_given_seed.
  - intros input_df k seed df' cs. apply kmeans_clusters_runs_given_seed.
  - intros input_df w k s1 s2. apply kmeans_clusters_same_assignment.
Qed.

Lemma seed_substituted_by_request_handler_witness :
  WebPage.request_seed {| WebPage.form_num_clusters := "2";
                          WebPage.form_seed := "" |} 123456789
  = 123456789
  /\ WebPage.request_seed {| WebPage.form_num_clusters := "2";
                             WebPage.form_seed := "42" |} 123456789
     = 42.
Proof.
  split.
  - destruct (seed_substituted_by_request_handler
                Sample.error_page_remote Sample.literal_compile
                Sample.feature_assignment
                {| WebPage.form_num_clusters := "2"; WebPage.form_seed := "" |}
                123456789) as (H & _); [lia|].
    apply H. reflexivity.
  - destruct (seed_substituted_by_request_handler
                Sample.error_page_remote Sample.literal_compile
                Sample.feature_assignment
                {| WebPage.form_num_clusters := "2"; WebPage.form_seed := "42" |}
                123456789) as (_ & H & _); [lia|].
    apply H. reflexivity.
Defined.

(* ===================================================================== *)
(** * Further properties of the code                                      *)
(* ===================================================================== *)

(** ** Decimal text of integers *)

Lemma digits_from_uint (d : Decimal.uint) (acc : positive) :
  Z.pos (Pos.of_uint_acc d acc)
  = Spec.digits_from (Z.pos acc) (NilEmpty.string_of_uint d).
Proof.
  revert acc.
  induction d as [|d IH|d IH|d IH|d IH|d IH|d IH|d IH|d IH|d IH|d IH];
    intros acc;
    cbn [Pos.of_uint_acc NilEmpty.string_of_uint Spec.digits_from];
    [reflexivity|..];
    rewrite IH; f_equal;
    match goal with
    | |- context [digit_val ?c] =>
        let v := eval vm_compute in (digit_val c) in
        change (digit_val c) with v
    end;
    rewrite ?Pos2Z.inj_add, ?Pos2Z.inj_mul; lia.
Qed.

Lemma int_of_digits_uint (d : Decimal.uint) :
  Adapter.int_of_digits (NilEmpty.string_of_uint d) = Z.of_N (Pos.of_uint d).
Proof.
  change (Adapter.int_of_digits (NilEmpty.string_of_uint d))
    with (Spec.digits_from 0 (NilEmpty.string_of_uint d)).
  induction d as [|d IH|d IH|d IH|d IH|d IH|d IH|d IH|d IH|d IH|d IH];
    cbn [Pos.of_uint NilEmpty.string_of_uint Spec.digits_from Z.of_N];
    [reflexivity | exact IH | ..];
    rewrite digits_from_uint; reflexivity.
Qed.

(** [int(str(n)) = n] on the digit runs of the non-negative integers. *)
Lemma int_of_digits_str (z : Z) : 0 <= z -> Adapter.int_of_digits (str z) = z.
Proof.
  intros Hz. unfold str. destruct z as [|p|p]; [reflexivity | | lia].
  cbn [Z.to_int]. unfold NilZero.string_of_int, NilZero.string_of_uint.
  pose proof (DecimalPos.Unsigned.to_uint_nonnil p) as Hnil.
  destruct (Pos.to_uint p) eqn:E; try congruence;
    rewrite <- E, int_of_digits_uint, DecimalPos.Unsigned.of_to; reflexivity.
Qed.

Lemma uint_digits (d : Decimal.uint) :
  string_forallb is_digit (NilEmpty.string_of_uint d) = true.
Proof.
  induction d; simpl; try reflexivity; exact IHd.
Qed.

(** The decimal text of a non-negative integer: a non-empty run of digits. *)
Lemma str_digits (z : Z) :
  0 <= z -> string_forallb is_digit (str z) = true /\ str z <> "".
Proof.
  intros Hz. unfold str. destruct z as [|p|p]; [split; [reflexivity | discriminate] | | lia].
  cbn [Z.to_int]. unfold NilZero.string_of_int, NilZero.string_of_uint.
  pose proof (DecimalPos.Unsigned.to_uint_nonnil p) as Hnil.
  pose proof (uint_digits (Pos.to_uint p)) as Hd.
  destruct (Pos.to_uint p); try congruence; (split; [exact Hd | discriminate]).
Qed.

Lemma str_negative (p : positive) :
  str (Z.neg p) = String "-" (str (Z.pos p)).
Proof.
  unfold str. cbn [Z.to_int]. unfold NilZero.string_of_int, NilZero.string_of_uint.
  pose proof (DecimalPos.Unsigned.to_uint_nonnil p) as Hnil.
  destruct (Pos.to_uint p); try congruence; reflexivity.
Qed.

Lemma digits_value_digits (s : string) (acc : Z) (after_digit : bool) :
  string_forallb is_digit s = true -> s <> "" ->
  WebPage.digits_value acc after_digit s = Some (Spec.digits_from acc s).
Proof.
  revert acc after_digit. induction s as [|c s IH]; intros acc b Hd Hne;
    [congruence|].
  simpl in Hd. apply andb_true_iff in Hd. destruct Hd as [Hc Hs].
  cbn [WebPage.digits_value Spec.digits_from]. rewrite Hc.
  destruct s as [|c' s']; [reflexivity|].
  apply IH; [exact Hs | discriminate].
Qed.

Lemma digit_not_space (c : ascii) : is_digit c = true -> WebPage.is_space c = false.
Proof.
  unfold is_digit, WebPage.is_space. intros H.
  apply andb_true_iff in H. destruct H as [H1 H2].
  apply Nat.leb_le in H1, H2.
  apply orb_false_iff. split.
  - apply Nat.eqb_neq. lia.
  - apply andb_false_iff. right. apply Nat.leb_gt. lia.
Qed.

Lemma rstrip_digits (s : string) :
  string_forallb is_digit s = true -> WebPage.rstrip s = s.
Proof.
  induction s as [|c s IH]; intros Hd; [reflexivity|].
  simpl in Hd. apply andb_true_iff in Hd. destruct Hd as [Hc Hs].
  cbn [WebPage.rstrip]. rewrite (IH Hs).
  destruct s; [now rewrite (digit_not_space c Hc) | reflexivity].
Qed.

Lemma py_int_digits (s : string) :
  string_forallb is_digit s = true -> s <> "" ->
  WebPage.py_int s = Ok (Adapter.int_of_digits s).
Proof.
  intros Hd Hne. unfold WebPage.py_int.
  destruct s as [|c s]; [congruence|].
  pose proof Hd as Hd'. simpl in Hd'. apply andb_true_iff in Hd'.
  destruct Hd' as [Hc _].
  assert (Hl : WebPage.lstrip (String c s) = String c s).
  { cbn [WebPage.lstrip]. now rewrite (digit_not_space c Hc). }
  rewrite Hl, (rstrip_digits _ Hd).
  pose proof (digits_value_digits _ 0 false Hd Hne) as Hv.
  change (Spec.digits_from 0 (String c s))
    with (Adapter.int_of_digits (String c s)) in Hv.
  clear Hl Hd Hne.
  destruct c as [[|] [|] [|] [|] [|] [|] [|] [|]];
    vm_compute in Hc; try discriminate Hc;
    cbv iota beta; rewrite Hv; f_equal; lia.
Qed.

(** X1.  [int(str(n)) = n] for every integer: the seed that the page shows
    parses back to itself, so a form that sends the displayed seed makes the
    handler use exactly that seed, whatever its random generator draws. *)
Theorem displayed_seed_parses_back (s : Z) :
  WebPage.py_int (str s) = Ok s
  /\ forall num_clusters rng_integers,
       WebPage.request_seed {| WebPage.form_num_clusters := num_clusters;
                               WebPage.form_seed := str s |} rng_integers
       = s.
Proof.
  assert (H : WebPage.py_int (str s) = Ok s).
  { destruct s as [|p|p].
    - reflexivity.
    - destruct (str_digits (Z.pos p)) as [Hd Hne]; [lia|].
      rewrite (py_int_digits _ Hd Hne), int_of_digits_str by lia. reflexivity.
    - rewrite str_negative.
      destruct (str_digits (Z.pos p)) as [Hd Hne]; [lia|].
      unfold WebPage.py_int. cbn [WebPage.lstrip].
      change (WebPage.is_space "-") with false. cbv iota.
      assert (Hr : WebPage.rstrip (String "-" (str (Z.pos p)))
                   = String "-" (str (Z.pos p))).
      { cbn [WebPage.rstrip]. rewrite (rstrip_digits _ Hd).
        destruct (str (Z.pos p)); [congruence | reflexivity]. }
      rewrite Hr. cbv iota beta.
      rewrite (digits_value_digits _ 0 false Hd Hne).
      change (Spec.digits_from 0 (str (Z.pos p)))
        with (Adapter.int_of_digits (str (Z.pos p))).
      rewrite int_of_digits_str by lia. reflexivity. }
  split; [exact H|].
  intros num_clusters rng_integers. unfold WebPage.request_seed.
  cbn [WebPage.form_seed]. now rewrite H.
Qed.

(** ** Joined texts and their splitting *)

Lemma split_free (sep : ascii) (s : string) :
  Spec.free_of sep s = true -> split sep s = [s].
Proof.
  unfold Spec.free_of. induction s as [|c s IH]; simpl; [reflexivity|].
  intros H. apply andb_true_iff in H. destruct H as [Hc Hs].
  apply negb_true_iff in Hc. rewrite Hc, (IH Hs). reflexivity.
Qed.

Lemma split_app_sep (sep : ascii) (a b : string) :
  Spec.free_of sep a = true ->
  split sep (a ++ String sep b) = a :: split sep b.
Proof.
  unfold Spec.free_of. induction a as [|c a IH]; simpl.
  - intros _. now rewrite Ascii.eqb_refl.
  - intros H. apply andb_true_iff in H. destruct H as [Hc Ha].
    apply negb_true_iff in Hc. rewrite Hc, (IH Ha). reflexivity.
Qed.

(** [sep.join(l).split(sep) = l] for a non-empty list of texts free of the
    separator. *)
Lemma split_join (sep : ascii) (l : list string) :
  l <> [] -> Forall (fun t => Spec.free_of sep t = true) l ->
  split sep (join (String sep "") l) = l.
Proof.
  intros Hne Hl. induction Hl as [|t l Ht Hl IH]; [congruence|].
  destruct l as [|t' l'].
  - simpl. now apply split_free.
  - change (join (String sep "") (t :: t' :: l'))
      with (t ++ String sep (join (String sep "") (t' :: l')))%string.
    rewrite (split_app_sep sep t _ Ht), IH by discriminate. reflexivity.
Qed.

(** X2.  The label text that [get_labels] builds from a breadcrumb whose
    anchors contain no comma splits back, in the encoder, into exactly those
    anchors, with the catalogue's title replaced by the root term. *)
Theorem get_labels_text_splits_into_anchors
        (remote : BrickArchitect.Remote) (partid : string)
        (page : BrickArchitect.PartPage) (first : string) (rest : list string) :
  BrickArchitect.get_page remote partid = Ok page ->
  BrickArchitect.chapternav page = Some (first :: rest) ->
  Forall (fun t => Spec.free_of "," t = true) (first :: rest) ->
  exists new_part labels,
    BrickArchitect.get_labels remote partid = Ok (new_part, labels)
    /\ new_part = last (split "/" (BrickArchitect.url page)) ""
    /\ split "," labels
       = (if String.eqb first "The LEGO Parts Guide" then "Lego" else first)
           :: rest.
Proof.
  intros Hpage Hnav Hfree. unfold BrickArchitect.get_labels.
  rewrite Hpage. cbn [bind]. rewrite Hnav. cbn [bind try_except].
  eexists. eexists. split; [reflexivity|]. split; [reflexivity|].
  inversion Hfree as [|? ? Hfirst Hrest]; subst.
  destruct (String.eqb first "The LEGO Parts Guide").
  - apply split_join; [discriminate|]. constructor; [reflexivity | exact Hrest].
  - apply split_join; [discriminate | exact Hfree].
Qed.

Lemma get_labels_text_splits_into_anchors_witness :
  exists new_part labels,
    BrickArchitect.get_labels Sample.redirecting_remote "3001"
    = Ok (new_part, labels)
    /\ new_part = "3002"
    /\ split "," labels = ["Lego"; "1. Basic"; "Brick"].
Proof.
  destruct (get_labels_text_splits_into_anchors
              Sample.redirecting_remote "3001"
              {| BrickArchitect.url := "https://brickarchitect.com/parts/3002";
                 BrickArchitect.chapternav :=
                   Some ["The LEGO Parts Guide"; "1. Basic"; "Brick"] |}
              "The LEGO Parts Guide" ["1. Basic"; "Brick"]
              eq_refl eq_refl)
    as (new_part & labels & H1 & H2 & H3).
  - repeat constructor.
  - exists new_part, labels. split; [exact H1|]. split; [exact H2 | exact H3].
Defined.

(** ** The cache: keys, joins and updates *)

Lemma unique_ids_NoDup (ids : list Z) :
  Database.unique_ids ids = true <-> NoDup ids.
Proof.
  induction ids as [|d ids IH]; simpl.
  - split; [constructor | reflexivity].
  - rewrite andb_true_iff, negb_true_iff, IH. split.
    + intros [Hd Hn]. constructor; [|exact Hn].
      intros Hin. apply in_ids_In in Hin. congruence.
    + intros H. inversion H as [|? ? Hnin Hn]; subst. split; [|exact Hn].
      destruct (Database.in_ids ids d) eqn:E; [|reflexivity].
      apply in_ids_In in E. contradiction.
Qed.

Lemma filter_key_unique {A : Type} (key : A -> Z) (k : Z) (l : list A) :
  NoDup (map key l) ->
  filter (fun x => key x =? k) l = []
  \/ exists x, filter (fun x => key x =? k) l = [x].
Proof.
  induction l as [|y l IH]; simpl; intros Hnd; [now left|].
  inversion Hnd as [|? ? Hnin Hnd']; subst.
  destruct (Z.eqb_spec (key y) k) as [E|E]; [|now apply IH].
  right. exists y. f_equal.
  destruct (filter (fun x => key x =? k) l) as [|z rest] eqn:F; [reflexivity|].
  exfalso. apply Hnin.
  assert (Hz : In z (filter (fun x => key x =? k) l)) by (rewrite F; now left).
  apply filter_In in Hz. destruct Hz as [Hz Hk]. apply Z.eqb_eq in Hk.
  rewrite E, <- Hk. now apply in_map.
Qed.

(** The rows of the left join with a cache of unique ids. *)
Lemma merge_with_database_rows
        (input_df : Adapter.PartTable) (db : Database.table) :
  NoDup (map Database.DesignID db) ->
  Forall2 (fun r p =>
             Inventory.DesignID p = fst r
             /\ Inventory.Quantity p = snd r
             /\ (forall l, Inventory.Labels p = Some l
                           <-> exists row, In row db
                                           /\ Database.DesignID row = fst r
                                           /\ Database.Labels row = l))
          input_df (Inventory.merge_with_database input_df db).
Proof.
  intros Hnd. unfold Inventory.merge_with_database.
  set (ids := map fst input_df).
  assert (Hsub : forall r, In r input_df -> In (fst r) ids)
    by (intros r Hr; now apply in_map).
  clearbody ids. revert Hsub.
  induction input_df as [|r input_df IH]; intros Hsub; simpl; [constructor|].
  assert (Hr : In (fst r) ids) by (apply Hsub; now left).
  set (hits := filter (fun d : Z * string => fst d =? fst r)
                      (Database.get_labels_dataframe ids db)).
  assert (Hhits : forall d, In d hits <->
                            exists row, In row db
                                        /\ Database.DesignID row = fst r
                                        /\ d = (fst r, Database.Labels row)).
  { intros d. unfold hits, Database.get_labels_dataframe.
    rewrite filter_In, in_map_iff. split.
    - intros [(row & <- & Hrow) E]. apply filter_In in Hrow. simpl in E.
      apply Z.eqb_eq in E. exists row. rewrite E. tauto.
    - intros (row & Hrow & E & ->). split; [|apply Z.eqb_refl].
      exists row. split; [now rewrite E|].
      apply filter_In. split; [exact Hrow|]. apply in_ids_In. now rewrite E. }
  assert (Hone : hits = [] \/ exists d, hits = [d]).
  { apply filter_key_unique. unfold Database.get_labels_dataframe.
    rewrite map_map. simpl.
    assert (G : forall l : Database.table,
               NoDup (map Database.DesignID l) ->
               NoDup (map Database.DesignID
                          (filter (fun r0 => Database.in_ids ids
                                               (Database.DesignID r0)) l))).
    { clear. induction l as [|x l IHl]; simpl; intros H; [constructor|].
      inversion H as [|? ? Hnin Hn]; subst.
      destruct (Database.in_ids ids (Database.DesignID x)); simpl; [|auto].
      constructor; [|auto]. intros Hin. apply Hnin.
      apply in_map_iff in Hin. destruct Hin as (y & E & Hy).
      apply filter_In in Hy. rewrite <- E. apply in_map. tauto. }
    exact (G db Hnd). }
  destruct Hone as [E|(d & E)]; rewrite E; simpl.
  - constructor; [|apply IH; intros r' Hr'; apply Hsub; now right].
    simpl. split; [reflexivity|]. split; [reflexivity|].
    intros l. split; [discriminate|].
    intros (row & Hrow & Hid & Hl). exfalso.
    assert (Hin : In (fst r, Database.Labels row) hits)
      by (apply Hhits; eauto).
    rewrite E in Hin. destruct Hin.
  - constructor; [|apply IH; intros r' Hr'; apply Hsub; now right].
    simpl. split; [reflexivity|]. split; [reflexivity|].
    assert (Hd : In d hits) by (rewrite E; now left).
    apply Hhits in Hd. destruct Hd as (row & Hrow & Hid & ->). simpl.
    intros l. split.
    + intros [= <-]. eauto.
    + intros (row' & Hrow' & Hid' & <-). f_equal.
      assert (Hin : In (fst r, Database.Labels row') hits)
        by (apply Hhits; eauto).
      rewrite E in Hin. destruct Hin as [Hin|[]]. now inversion Hin.
Qed.

(** X3.  The left join with the cache: when the cached ids are unique, the
    working set has exactly one row per row of the cleaned input, in the
    same order and with the same DesignID and Quantity; its Labels are the
    cached labels of that id, and NaN exactly when the id is not cached
    (a missing id is never an error). *)
Theorem merge_with_database_left_join
        (input_df : Adapter.PartTable) (db : Database.table) :
  NoDup (map Database.DesignID db) ->
  Forall2 (fun r p =>
             Inventory.DesignID p = fst r
             /\ Inventory.Quantity p = snd r
             /\ (forall l, Inventory.Labels p = Some l
                           <-> exists row, In row db
                                           /\ Database.DesignID row = fst r
                                           /\ Database.Labels row = l))
          input_df (Inventory.merge_with_database input_df db).
Proof. apply merge_with_database_rows. Qed.

Lemma merge_with_database_left_join_witness :
  Forall2 (fun r p =>
             Inventory.DesignID p = fst r
             /\ Inventory.Quantity p = snd r
             /\ (forall l, Inventory.Labels p = Some l
                           <-> exists row, In row Sample.cache_with_gaps
                                           /\ Database.DesignID row = fst r
                                           /\ Database.Labels row = l))
          [(3001, 4); (4000, 2)]
          (Inventory.merge_with_database [(3001, 4); (4000, 2)]
                                         Sample.cache_with_gaps).
Proof.
  apply (merge_with_database_left_join [(3001, 4); (4000, 2)]
                                       Sample.cache_with_gaps).
  simpl. repeat constructor; simpl; intuition discriminate.
Defined.

(** X4.  After [update_image] for a part, the part is no longer among the
    rows that [get_missing_images] reports, whether an image was fetched or
    not (a failed fetch stores the text [None]) and the other candidates are
    reported as before; for a cached part, [fetch_part_image] then returns
    the text that was stored. *)
Theorem update_image_clears_candidate
        (today : Database.date) (part : Z) (image : option string)
        (ids : list Z) (db : Database.table) :
  Database.get_missing_images ids (Database.update_image today part image db)
  = filter (fun row => negb (fst row =? part))
           (Database.get_missing_images ids db)
  /\ (In part (map Database.DesignID db) ->
      Database.fetch_part_image part
                                (Database.update_image today part image db)
      = Ok (Some (Database.format_image image)))
  /\ (~ In part (map Database.DesignID db) ->
      Database.update_image today part image db = db
      /\ Database.fetch_part_image part db = Raise TypeError).
Proof.
  unfold Database.get_missing_images, Database.update_image,
    Database.fetch_part_image.
  split; [|split].
  - induction db as [|r db IH]; simpl; [reflexivity|].
    destruct (Z.eqb_spec (Database.DesignID r) part) as [E|E]; simpl.
    + rewrite andb_false_r.
      destruct (Database.in_ids ids (Database.DesignID r)
                && match Database.Image r with
                   | Some _ => false
                   | None => true
                   end); simpl; [|exact IH].
      replace (Database.DesignID r =? part) with true
        by (symmetry; now apply Z.eqb_eq).
      exact IH.
    + destruct (Database.in_ids ids (Database.DesignID r)
                && match Database.Image r with
                   | Some _ => false
                   | None => true
                   end); simpl; [|exact IH].
      replace (Database.DesignID r =? part) with false
        by (symmetry; now apply Z.eqb_neq).
      simpl. now rewrite IH.
  - induction db as [|r db IH]; simpl; [intros []|].
    destruct (Z.eqb_spec (Database.DesignID r) part) as [E|E]; simpl.
    + intros _. replace (Database.DesignID r =? part) with true
        by (symmetry; now apply Z.eqb_eq).
      reflexivity.
    + intros [H|H]; [contradiction|].
      replace (Database.DesignID r =? part) with false
        by (symmetry; now apply Z.eqb_neq).
      now apply IH.
  - intros Hnin. induction db as [|r db IH]; simpl; [split; reflexivity|].
    simpl in Hnin.
    destruct (Z.eqb_spec (Database.DesignID r) part) as [E|E]; [tauto|].
    destruct IH as [IH1 IH2]; [tauto|]. rewrite IH1. split; [reflexivity|].
    exact IH2.
Qed.

Lemma update_image_clears_candidate_witness :
  Database.fetch_part_image
    3001 (Database.update_image (Sample.day 2025 3 1) 3001 None
                                Sample.cache_with_gaps)
  = Ok (Some "None").
Proof.
  destruct (update_image_clears_candidate
              (Sample.day 2025 3 1) 3001 None [3001] Sample.cache_with_gaps)
    as (_ & H & _).
  apply H. simpl. tauto.
Defined.

Lemma collect_parts_df (today : Database.date)
      (results : list (Z * string * option string))
      (acc : list Database.Row) (df : list Inventory.Part) :
  snd (Inventory.collect_parts today results acc df)
  = fold_left (fun d r => Inventory.set_labels (fst (fst r)) (snd (fst r)) d)
              results df.
Proof.
  revert acc df. induction results as [|r results IH]; intros acc df; simpl;
    [reflexivity | apply IH].
Qed.

Lemma set_labels_all_set (results : list (Z * string * option string)) :
  forall df : list Inventory.Part,
    Forall (fun r => Inventory.isna r = true ->
                     In (Inventory.DesignID r) (map (fun x => fst (fst x)) results))
           df ->
    Forall (fun r => Inventory.isna r = false)
           (fold_left (fun d r => Inventory.set_labels (fst (fst r)) (snd (fst r)) d)
                      results df).
Proof.
  induction results as [|x results IH]; intros df Hdf; simpl.
  - eapply Forall_impl; [|exact Hdf]. simpl. intros r H.
    destruct (Inventory.isna r); [destruct (H eq_refl) | reflexivity].
  - apply IH. unfold Inventory.set_labels. apply Forall_map.
    eapply Forall_impl; [|exact Hdf]. simpl. intros r H.
    destruct (Z.eqb_spec (Inventory.DesignID r) (fst (fst x))) as [E|E].
    + unfold Inventory.isna. simpl. discriminate.
    + intros Hna. destruct (H Hna) as [Hx|Hin]; [congruence | exact Hin].
Qed.

(** X5.  A fetch phase that returns leaves no record of the working set
    without labels, so the encoder's split of the labels does not fail
    afterwards; a record without labels would make it raise a TypeError. *)
Theorem fetch_missing_parts_labels_all_set
        (remote : BrickArchitect.Remote) (now : Database.datetime)
        (df df' : list Inventory.Part) (db db' : Database.table) :
  Inventory.fetch_missing_parts remote now df db = Ok (df', db') ->
  Forall (fun r => Inventory.Labels r <> None) df'
  /\ succeeds (Inventory.labels_array df')
  /\ forall (re_compile : string -> result (string -> bool))
            (other : list Inventory.Part),
       (exists r, In r other /\ Inventory.Labels r = None) ->
       Inventory.create_labels_hirarchy re_compile other = Raise TypeError.
Proof.
  intros H.
  assert (Hset : Forall (fun r => Inventory.isna r = false) df').
  { unfold Inventory.fetch_missing_parts in H.
    set (unknown := map Inventory.DesignID (filter Inventory.isna df)) in *.
    destruct (Nat.ltb_spec 0 (List.length unknown)) as [Hlen|Hlen].
    - destruct (mapM _ unknown) as [results|e] eqn:Hres; simpl in H;
        [|discriminate].
      pose proof (collect_parts_df (Database.to_date now) results [] df) as Hdf.
      destruct (Inventory.collect_parts _ results [] df) as [rows df1].
      simpl in Hdf.
      destruct (Database.append_parts_dataframe rows db); simpl in H;
        [|discriminate].
      inversion H; subst. apply set_labels_all_set.
      apply mapM_Ok_Forall2 in Hres.
      assert (Hids : map (fun x : Z * string * option string => fst (fst x)) results
                     = unknown).
      { clear -Hres. induction Hres as [|p r ps rs Hp _ IH]; simpl;
          [reflexivity|].
        apply fetch_part_info_Ok in Hp. destruct Hp as [Hp _].
        now rewrite Hp, IH. }
      rewrite Hids. apply Forall_forall. intros r Hr Hna.
      unfold unknown. apply in_map, filter_In. auto.
    - inversion H; subst. destruct unknown eqn:E; [|simpl in Hlen; lia].
      apply Forall_forall. intros r Hr.
      destruct (Inventory.isna r) eqn:Hna; [|reflexivity].
      assert (Hin : In (Inventory.DesignID r) unknown).
      { unfold unknown. apply in_map, filter_In. auto. }
      rewrite E in Hin. destruct Hin. }
  split; [|split].
  - eapply Forall_impl; [|exact Hset]. unfold Inventory.isna. simpl.
    intros r Hr. destruct (Inventory.Labels r); [discriminate | discriminate].
  - unfold Inventory.labels_array. apply mapM_succeeds.
    intros r Hr. rewrite Forall_forall in Hset. specialize (Hset r Hr).
    unfold Inventory.isna in Hset.
    destruct (Inventory.Labels r); [now eexists | discriminate].
  - intros re_compile other (r & Hr & Hnone).
    unfold Inventory.create_labels_hirarchy, Inventory.labels_array.
    assert (G : mapM (fun r0 => match Inventory.Labels r0 with
                                | Some s => Ok (split "," s)
                                | None => Raise TypeError
                                end) other = Raise TypeError).
    { clear -Hr Hnone. induction other as [|x other IH]; [destruct Hr|].
      simpl. destruct (Inventory.Labels x) eqn:Hx.
      - destruct Hr as [->|Hr]; [congruence|].
        cbn [bind]. now rewrite (IH Hr).
      - reflexivity. }
    now rewrite G.
Qed.

Lemma fetch_missing_parts_labels_all_set_witness :
  Forall (fun r => Inventory.Labels r <> None)
         [Sample.part 3001 4 "Lego,1. Basic,Brick"].
Proof.
  destruct (fetch_missing_parts_labels_all_set
              Sample.redirecting_remote (Sample.at_time (Sample.day 2025 3 1) 0)
              [Sample.unknown 3001 4] [Sample.part 3001 4 "Lego,1. Basic,Brick"]
              []
              [Inventory.new_row (Sample.day 2025 3 1)
                 (3001, "Lego,1. Basic,Brick", Some "b64:png-of-3002")]
              eq_refl) as (H & _).
  exact H.
Defined.

(** X6.  Cache-aside completeness: after the left join and a fetch phase
    that returns, every DesignID of the cleaned input has a row in the
    cache, the rows that were cached before are still there in their
    places, and the working set still lists the input's ids in order. *)
Theorem every_input_id_cached_after_fetch
        (remote : BrickArchitect.Remote) (now : Database.datetime)
        (input_df : Adapter.PartTable) (df' : list Inventory.Part)
        (db db' : Database.table) :
  Inventory.fetch_missing_parts
    remote now (Inventory.merge_with_database input_df db) db = Ok (df', db') ->
  (forall d, In d (map fst input_df) -> In d (map Database.DesignID db'))
  /\ firstn (List.length db) db' = db
  /\ map Inventory.DesignID df'
     = map Inventory.DesignID (Inventory.merge_with_database input_df db).
Proof.
  intros H. apply fetch_missing_parts_Ok in H.
  destruct H as (results & Hres & -> & Hdf).
  apply mapM_Ok_Forall2 in Hres.
  destruct (new_rows_of_results remote (Database.to_date now) _ _ Hres)
    as [Hids _].
  split; [|split; [|exact Hdf]].
  - intros d Hd. rewrite map_app, Hids. apply in_or_app.
    apply in_map_iff in Hd. destruct Hd as (r & <- & Hr).
    unfold Inventory.merge_with_database.
    set (hits_of := fun r : Z * Z =>
                      filter (fun d : Z * string => fst d =? fst r)
                             (Database.get_labels_dataframe (map fst input_df) db)).
    destruct (hits_of r) as [|h hs] eqn:E.
    + right. apply in_map_iff.
      exists {| Inventory.DesignID := fst r; Inventory.Quantity := snd r;
                Inventory.Labels := None |}.
      split; [reflexivity|]. apply filter_In. split; [|reflexivity].
      apply in_flat_map. exists r. split; [exact Hr|].
      fold (hits_of r). rewrite E. now left.
    + left.
      assert (Hh : In h (hits_of r)) by (rewrite E; now left).
      unfold hits_of in Hh. apply filter_In in Hh. destruct Hh as [Hh Hk].
      apply Z.eqb_eq in Hk. unfold Database.get_labels_dataframe in Hh.
      apply in_map_iff in Hh. destruct Hh as (row & <- & Hrow).
      apply filter_In in Hrow. simpl in Hk. rewrite <- Hk.
      apply in_map. tauto.
  - rewrite firstn_app, Nat.sub_diag, firstn_all. simpl. apply app_nil_r.
Qed.

Lemma every_input_id_cached_after_fetch_witness :
  In 3001 (map Database.DesignID
               [Inventory.new_row (Sample.day 2025 3 1)
                  (3001, "Lego,1. Basic,Brick", Some "b64:png-of-3002")]).
Proof.
  destruct (every_input_id_cached_after_fetch
              Sample.redirecting_remote (Sample.at_time (Sample.day 2025 3 1) 0)
              [(3001, 4)] [Sample.part 3001 4 "Lego,1. Basic,Brick"]
              []
              [Inventory.new_row (Sample.day 2025 3 1)
                 (3001, "Lego,1. Basic,Brick", Some "b64:png-of-3002")]
              eq_refl) as (H & _).
  apply H. left. reflexivity.
Defined.

(** X7.  The insert of the fetch phase is all or nothing on the key: when
    the lookups of the unknown parts all return, the phase returns exactly
    when the cached ids together with the ids of the unknown parts are
    pairwise distinct, and raises the IntegrityError of the UNIQUE
    constraint otherwise. *)
Theorem fetch_missing_parts_integrity
        (remote : BrickArchitect.Remote) (now : Database.datetime)
        (df : list Inventory.Part) (db : Database.table)
        (results : list (Z * string * option string)) :
  let unknown := map Inventory.DesignID (filter Inventory.isna df) in
  unknown <> [] ->
  mapM (BrickArchitect.fetch_part_info remote) unknown = Ok results ->
  (NoDup (map Database.DesignID db ++ unknown) ->
   succeeds (Inventory.fetch_missing_parts remote now df db))
  /\ (~ NoDup (map Database.DesignID db ++ unknown) ->
      Inventory.fetch_missing_parts remote now df db = Raise IntegrityError).
Proof.
  intros unknown Hne Hres. unfold Inventory.fetch_missing_parts.
  fold unknown. rewrite Hres. cbn [bind].
  replace (0 <? List.length unknown)%nat with true
    by (symmetry; apply Nat.ltb_lt; destruct unknown; [congruence | simpl; lia]).
  pose proof (collect_parts_spec (Database.to_date now) results [] df) as [H1 _].
  destruct (Inventory.collect_parts _ results [] df) as [rows df1].
  simpl in H1. subst rows.
  pose proof (mapM_Ok_Forall2 _ _ _ Hres) as HF.
  destruct (new_rows_of_results remote (Database.to_date now) _ _ HF)
    as [Hids _].
  unfold Database.append_parts_dataframe. rewrite map_app, Hids.
  split; intros Hnd.
  - apply unique_ids_NoDup in Hnd. rewrite Hnd. cbn [bind]. now eexists.
  - destruct (Database.unique_ids (map Database.DesignID db ++ unknown)) eqn:E;
      [|reflexivity].
    apply unique_ids_NoDup in E. contradiction.
Qed.

Lemma fetch_missing_parts_integrity_witness :
  Inventory.fetch_missing_parts
    Sample.error_page_remote (Sample.at_time (Sample.day 2025 3 1) 0)
    [Sample.unknown 301 1; Sample.unknown 301 2] []
  = Raise IntegrityError.
Proof.
  destruct (fetch_missing_parts_integrity
              Sample.error_page_remote (Sample.at_time (Sample.day 2025 3 1) 0)
              [Sample.unknown 301 1; Sample.unknown 301 2] []
              [(301, "Lego", None); (301, "Lego", None)])
    as [_ H].
  - discriminate.
  - reflexivity.
  - apply H. simpl. intros Hnd. inversion Hnd as [|? ? Hnin _]; subst.
    apply Hnin. now left.
Defined.

Lemma update_images_preserves
        (remote : BrickArchitect.Remote) (now : Database.datetime)
        (df : list Inventory.Part) (db db1 : Database.table)
        (fetched : list Z) :
  Inventory.update_images remote now df db = Ok (db1, fetched) ->
  map Database.DesignID db1 = map Database.DesignID db
  /\ map Database.Labels db1 = map Database.Labels db
  /\ Forall2 (fun r r1 => ~ In (Database.DesignID r) fetched -> r1 = r) db db1
  /\ incl fetched (map Inventory.DesignID df).
Proof.
  unfold Inventory.update_images. intros H.
  apply update_rows_Ok in H. simpl in H. rewrite stale_rows in H.
  destruct H as (-> & h & -> & Hh).
  set (todo := map Database.DesignID
                   (filter (Spec.stale (Database.to_date now)
                                       (map Inventory.DesignID df)) db)) in *.
  split; [|split; [|split]].
  - rewrite map_map. apply map_ext. intros r.
    destruct (Hh r) as [[_ ->]|(_ & E & _)]; [reflexivity | exact E].
  - rewrite map_map. apply map_ext. intros r.
    destruct (Hh r) as [[_ ->]|(_ & _ & E & _)]; [reflexivity | exact E].
  - simpl. clearbody todo. clear -Hh.
    induction db as [|r db IH]; simpl; [constructor|].
    constructor; [|exact IH].
    intros Hn. destruct (Hh r) as [[_ E]|(Hin & _)]; [exact E | contradiction].
  - intros d Hd. unfold todo in Hd. apply in_map_iff in Hd.
    destruct Hd as (r & <- & Hr). apply filter_In in Hr.
    destruct Hr as [_ Hs]. unfold Spec.stale in Hs.
    apply andb_true_iff in Hs. destruct Hs as [Hs _].
    apply andb_true_iff in Hs. destruct Hs as [Hs _].
    now apply in_ids_In.
Qed.

(** X8.  The refresher only touches images and dates: a run that returns
    leaves the cache with the same rows in the same order as to DesignID and
    Labels, changes no row of a part it did not fetch, and fetches parts of
    the working set only. *)
Theorem refresher_keeps_ids_and_labels
        (remote : BrickArchitect.Remote) (now : Database.datetime)
        (df : list Inventory.Part) (db db1 : Database.table)
        (fetched : list Z) :
  Inventory.update_images remote now df db = Ok (db1, fetched) ->
  map Database.DesignID db1 = map Database.DesignID db
  /\ map Database.Labels db1 = map Database.Labels db
  /\ Forall2 (fun r r1 => ~ In (Database.DesignID r) fetched -> r1 = r) db db1
  /\ incl fetched (map Inventory.DesignID df).
Proof.
  apply update_images_preserves.
Qed.

Lemma refresher_keeps_ids_and_labels_witness :
  map Database.Labels
      [Sample.cached 3001 "Lego,1. Basic,Brick" (Some "None") (Sample.day 2025 3 1);
       Sample.cached 3002 "Lego" None (Sample.day 2025 3 1);
       Sample.cached 3003 "Lego,1. Basic,Plate" (Some "b64:png-of-3003")
                     (Sample.day 2025 1 5)]
  = map Database.Labels Sample.cache_with_gaps.
Proof.
  destruct (refresher_keeps_ids_and_labels
              Sample.error_page_remote
              (Sample.at_time (Sample.day 2025 3 1) 600)
              [Sample.part 3001 1 "Lego,1. Basic,Brick"; Sample.part 3002 1 "Lego";
               Sample.part 3003 1 "Lego,1. Basic,Plate"]
              Sample.cache_with_gaps
              [Sample.cached 3001 "Lego,1. Basic,Brick" (Some "None")
                             (Sample.day 2025 3 1);
               Sample.cached 3002 "Lego" None (Sample.day 2025 3 1);
               Sample.cached 3003 "Lego,1. Basic,Plate" (Some "b64:png-of-3003")
                             (Sample.day 2025 1 5)]
              [3001] eq_refl) as (_ & H & _).
  exact H.
Defined.

Lemma fetch_missing_parts_keeps_unique
      (remote : BrickArchitect.Remote) (now : Database.datetime)
      (df df' : list Inventory.Part) (db db' : Database.table) :
  NoDup (map Database.DesignID db) ->
  Inventory.fetch_missing_parts remote now df db = Ok (df', db') ->
  NoDup (map Database.DesignID db').
Proof.
  intros Hnd. unfold Inventory.fetch_missing_parts.
  destruct (0 <? _)%nat; [|intros H; inversion H; now subst].
  destruct (mapM _ _) as [results|e]; simpl; [|discriminate].
  destruct (Inventory.collect_parts _ results [] df) as [rows df1].
  unfold Database.append_parts_dataframe.
  destruct (Database.unique_ids (map Database.DesignID (db ++ rows))) eqn:E;
    simpl; [|discriminate].
  intros H. inversion H; subst. now apply unique_ids_NoDup.
Qed.

(** X9.  What a load that returns has done to the cache: the keys are still
    unique, the rows cached before are still the first rows with their
    DesignID and Labels (labels are never refreshed, nothing is deleted),
    and the inventory starts without clusters, on a frame whose first two
    columns are [DesignID] and [Quantity]. *)
Theorem load_keeps_cache_invariants
        (remote : BrickArchitect.Remote)
        (re_compile : string -> result (string -> bool))
        (now : Database.datetime) (input : option Adapter.RawTable)
        (db db' : Database.table) (inventory : Inventory.State) :
  NoDup (map Database.DesignID db) ->
  Inventory.load remote re_compile now input db = Ok (inventory, db') ->
  NoDup (map Database.DesignID db')
  /\ firstn (List.length db) (map Database.DesignID db')
     = map Database.DesignID db
  /\ firstn (List.length db) (map Database.Labels db')
     = map Database.Labels db
  /\ Inventory.clusters inventory = None
  /\ firstn 2 (Frame.columns (Inventory.df inventory))
     = ["DesignID"; "Quantity"].
Proof.
  intros Hnd. unfold Inventory.load. destruct input as [raw|]; [|discriminate].
  destruct (Inventory.fetch_missing_parts _ _ _ db) as [[df1 db1]|e] eqn:Hf;
    cbn [bind fst snd]; [|discriminate].
  destruct (Inventory.update_images _ _ df1 db1) as [[db2 fetched]|e] eqn:Hu;
    cbn [bind fst snd]; [|discriminate].
  destruct (Inventory.create_labels_hirarchy _ df1) as [frame|e] eqn:Hc;
    cbn [bind]; [|discriminate].
  intros H. inversion H; subst. clear H.
  pose proof (fetch_missing_parts_keeps_unique _ _ _ _ _ _ Hnd Hf) as Hnd1.
  apply fetch_missing_parts_Ok in Hf. destruct Hf as (results & _ & -> & _).
  destruct (update_images_preserves _ _ _ _ _ _ Hu) as (Hids & Hlabels & _).
  destruct (create_labels_hirarchy_columns _ _ _ Hc) as (la & _ & Hcols).
  split; [now rewrite Hids|]. split; [|split; [|split]].
  - rewrite Hids, map_app, firstn_app, length_map, Nat.sub_diag.
    rewrite <- (length_map Database.DesignID db) at 1.
    rewrite firstn_all. simpl. apply app_nil_r.
  - rewrite Hlabels, map_app, firstn_app, length_map, Nat.sub_diag.
    rewrite <- (length_map Database.Labels db) at 1.
    rewrite firstn_all. simpl. apply app_nil_r.
  - reflexivity.
  - simpl. now rewrite Hcols.
Qed.

Lemma load_keeps_cache_invariants_witness :
  NoDup (map Database.DesignID
             [Sample.cached 3001 "Lego" None (Sample.day 2025 3 1)]).
Proof.
  destruct (load_keeps_cache_invariants
              Sample.error_page_remote Sample.literal_compile
              (Sample.at_time (Sample.day 2025 3 1) 0)
              (Some [("3001", 1)]) []
              [Sample.cached 3001 "Lego" None (Sample.day 2025 3 1)]
              {| Inventory.df :=
                   {| Frame.columns := ["DesignID"; "Quantity"; "Lego"];
                      Frame.data := [[3001; 1; 1]] |};
                 Inventory.clusters := None |})
    as (H & _).
  - constructor.
  - vm_compute. reflexivity.
  - exact H.
Defined.

(** ** The encoded frame *)

Lemma map_snd_combine {A B : Type} (l1 : list A) (l2 : list B) :
  List.length l1 = List.length l2 -> map snd (combine l1 l2) = l2.
Proof.
  revert l2. induction l1 as [|x l1 IH]; intros [|y l2] H; simpl in *;
    try reflexivity; try discriminate.
  f_equal. apply IH. lia.
Qed.

Lemma where_contains_bits (re_compile : string -> result (string -> bool))
      (label : string) (df : list Inventory.Part) (col : list Z) :
  Inventory.where_contains re_compile label df = Ok col ->
  Forall (fun v => v = 0 \/ v = 1) col.
Proof.
  unfold Inventory.where_contains.
  destruct (re_compile label) as [search|e]; simpl; [|discriminate].
  intros H. inversion H; subst. apply Forall_map, Forall_forall.
  intros r _. destruct (Inventory.Labels r) as [s|]; [|now right].
  destruct (search s); [now right | now left].
Qed.

(** The rows of the frame that the encoder returns. *)
Lemma create_labels_hirarchy_rows
        (re_compile : string -> result (string -> bool))
        (df : list Inventory.Part) (frame : Frame.DataFrame) :
  Inventory.create_labels_hirarchy re_compile df = Ok frame ->
  List.length (Frame.data frame) = List.length df
  /\ Forall (fun row => List.length row = List.length (Frame.columns frame))
            (Frame.data frame)
  /\ map (Frame.cell 0) (Frame.data frame) = map Inventory.DesignID df
  /\ map (Frame.cell 1) (Frame.data frame) = map Inventory.Quantity df
  /\ Forall (fun row => Forall (fun v => v = 0 \/ v = 1) (skipn 2 row))
            (Frame.data frame).
Proof.
  unfold Inventory.create_labels_hirarchy. intros H.
  destruct (Inventory.labels_array df) as [la|e]; simpl in H; [|discriminate].
  destruct (mapM _ (Inventory.hierarchy_columns la)) as [cols|e] eqn:Hcols;
    simpl in H; [|discriminate].
  inversion H; subst. clear H. simpl.
  pose proof (mapM_Ok_length _ _ _ Hcols) as Hlen.
  assert (Hseq : List.length (seq 0 (List.length df)) = List.length df)
    by apply length_seq.
  split; [|split; [|split; [|split]]].
  - now rewrite length_map, length_combine, Hseq, Nat.min_id.
  - apply Forall_map, Forall_forall. intros ir _. simpl.
    now rewrite length_map, Hlen.
  - transitivity (map Inventory.DesignID
                      (map snd (combine (seq 0 (List.length df)) df)));
      [rewrite !map_map; apply map_ext; reflexivity
      | now rewrite map_snd_combine].
  - transitivity (map Inventory.Quantity
                      (map snd (combine (seq 0 (List.length df)) df)));
      [rewrite !map_map; apply map_ext; reflexivity
      | now rewrite map_snd_combine].
  - apply Forall_map, Forall_forall. intros ir _. simpl.
    apply Forall_map. apply mapM_Ok_Forall2 in Hcols.
    clear -Hcols. induction Hcols as [|label col labels cols' Hc _ IH];
      constructor; [|exact IH].
    apply where_contains_bits in Hc. unfold Frame.cell.
    destruct (nth_in_or_default (fst ir) col 0) as [Hin| ->]; [|now left].
    rewrite Forall_forall in Hc. now apply Hc.
Qed.

(** X10.  The frame that the encoder returns is rectangular and carries the
    working set: one row per record, every row as wide as the column list,
    the first two cells of a row are the record's DesignID and Quantity, and
    every other cell is 0 or 1. *)
Theorem create_labels_hirarchy_frame_shape
        (re_compile : string -> result (string -> bool))
        (df : list Inventory.Part) (frame : Frame.DataFrame) :
  Inventory.create_labels_hirarchy re_compile df = Ok frame ->
  List.length (Frame.data frame) = List.length df
  /\ Forall (fun row => List.length row = List.length (Frame.columns frame))
            (Frame.data frame)
  /\ map (Frame.cell 0) (Frame.data frame) = map Inventory.DesignID df
  /\ map (Frame.cell 1) (Frame.data frame) = map Inventory.Quantity df
  /\ Forall (fun row => Forall (fun v => v = 0 \/ v = 1) (skipn 2 row))
            (Frame.data frame).
Proof. apply create_labels_hirarchy_rows. Qed.

Lemma create_labels_hirarchy_frame_shape_witness :
  List.length [[1; 1; 1; 1; 1; 0]; [2; 1; 1; 1; 0; 1]]
  = List.length Sample.gears_and_pins.
Proof.
  destruct (create_labels_hirarchy_frame_shape
              Sample.literal_compile Sample.gears_and_pins
              {| Frame.columns :=
                   ["DesignID"; "Quantity"; "Lego"; "Technic"; "Gears"; "Pins"];
                 Frame.data := [[1; 1; 1; 1; 1; 0]; [2; 1; 1; 1; 0; 1]] |}
              eq_refl) as (H & _).
  exact H.
Defined.

(** X11.  No false negative: with a pattern engine that treats operator-free
    patterns as Python's does, the column that the encoder computes for such
    a term holds a 1 for every record that has the term among the entries of
    its Labels. *)
Theorem term_column_marks_every_member
        (re_compile : string -> result (string -> bool))
        (label : string) (df : list Inventory.Part) (col : list Z) :
  Sample.literal_engine re_compile ->
  Sample.literal_pattern label = true ->
  Inventory.where_contains re_compile label df = Ok col ->
  Forall2 (fun r v => forall s, Inventory.Labels r = Some s ->
                                In label (split "," s) -> v = 1) df col.
Proof.
  apply where_contains_no_false_negative.
Qed.

Lemma term_column_marks_every_member_witness :
  Forall2 (fun r v => forall s, Inventory.Labels r = Some s ->
                                In "Gears" (split "," s) -> v = 1)
          Sample.gears_and_pins [1; 0].
Proof.
  apply (term_column_marks_every_member
           Sample.literal_compile "Gears" Sample.gears_and_pins [1; 0]).
  - intros p Hp. unfold Sample.literal_compile. rewrite Hp.
    exists (is_substring p). split; reflexivity.
  - reflexivity.
  - reflexivity.
Defined.

(** ** The cluster summaries *)

Lemma filter_map_swap {A B : Type} (f : B -> bool) (g : A -> B) (l : list A) :
  filter f (map g l) = map g (filter (fun x => f (g x)) l).
Proof.
  induction l as [|x l IH]; simpl; [reflexivity|].
  destruct (f (g x)); simpl; now rewrite IH.
Qed.

Lemma combine_maps {A B C : Type} (f : A -> B) (g : A -> C) (l : list A) :
  combine (map f l) (map g l) = map (fun x => (f x, g x)) l.
Proof.
  induction l as [|x l IH]; simpl; [reflexivity | now rewrite IH].
Qed.

Lemma in_combine_width (m : nat) (rows : list (list Z)) (labels : list Z)
      (rl : list Z * Z) :
  Forall (fun row => List.length row = m) rows ->
  In rl (combine rows labels) -> List.length (fst rl) = m.
Proof.
  intros Hw Hin. destruct rl as [r l]. apply in_combine_l in Hin.
  rewrite Forall_forall in Hw. now apply Hw.
Qed.

(** The cells of a labelled row, before and after [DesignID] is dropped. *)
Lemma labelled_row_cells (m : nat) (r : list Z) (l : Z) :
  List.length r = (2 + m)%nat ->
  Frame.cell 0 (r ++ [l]) = Frame.cell 0 r
  /\ Frame.cell (2 + m) (r ++ [l]) = l
  /\ Frame.cell 0 (Frame.remove_nth 0 (r ++ [l])) = Frame.cell 1 r
  /\ Frame.cell (S m) (Frame.remove_nth 0 (r ++ [l])) = l.
Proof.
  intros Hlen. destruct r as [|a [|b r']]; simpl in Hlen; try lia.
  assert (Hm : List.length r' = m) by lia. subst m.
  repeat split; try reflexivity.
  - change (Frame.cell (2 + List.length r') ((a :: b :: r') ++ [l]))
      with (Frame.cell (List.length r') (r' ++ [l])).
    apply cell_appended.
  - change (Frame.cell (S (List.length r'))
                       (Frame.remove_nth 0 ((a :: b :: r') ++ [l])))
      with (Frame.cell (List.length r') (r' ++ [l])).
    apply cell_appended.
Qed.

Lemma Forall2_mapped {A B C : Type} (R : B -> C -> Prop) (g : A -> B)
      (l : list A) (l' : list C) :
  Forall2 R (map g l) l' -> Forall2 (fun x y => R (g x) y) l l'.
Proof.
  revert l'. induction l as [|x l IH]; intros l' H; inversion H; subst;
    constructor; auto.
Qed.

Lemma Forall2_pick_r {A B : Type} (R : A -> B -> Prop) (l : list A)
      (l' : list B) (y : B) :
  Forall2 R l l' -> In y l' -> exists x, In x l /\ R x y.
Proof.
  induction 1 as [|x y' l l' Hxy _ IH]; intros Hin; [destruct Hin|].
  destruct Hin as [->|Hin]; [exists x; split; [now left | exact Hxy]|].
  destruct (IH Hin) as (x' & Hx' & HR). exists x'. split; [now right | exact HR].
Qed.

Lemma Forall2_pick_l {A B : Type} (R : A -> B -> Prop) (l : list A)
      (l' : list B) (x : A) :
  Forall2 R l l' -> In x l -> exists y, In y l' /\ R x y.
Proof.
  induction 1 as [|x' y l l' Hxy _ IH]; intros Hin; [destruct Hin|].
  destruct Hin as [->|Hin]; [exists y; split; [now left | exact Hxy]|].
  destruct (IH Hin) as (y' & Hy' & HR). exists y'. split; [now right | exact HR].
Qed.

Lemma index_of_app_left (name : string) (cols rest : list string) :
  In name cols -> Frame.index_of name (cols ++ rest) = Frame.index_of name cols.
Proof.
  induction cols as [|c cols IH]; intros Hin; [destruct Hin|].
  simpl. destruct (String.eqb_spec name c) as [->|Hne]; [reflexivity|].
  rewrite IH; [reflexivity|]. destruct Hin as [E|Hin]; [congruence | exact Hin].
Qed.

Lemma index_of_lt (name : string) (cols : list string) (i : nat) :
  Frame.index_of name cols = Some i -> (i < List.length cols)%nat.
Proof.
  revert i. induction cols as [|c cols IH]; intros i H; [discriminate|].
  simpl in H. destruct (String.eqb name c); [inversion H; simpl; lia|].
  destruct (Frame.index_of name cols) as [j|]; [|discriminate].
  inversion H. simpl. specialize (IH j eq_refl). lia.
Qed.

Lemma index_of_nth_error (name : string) (cols : list string) (i : nat) :
  Frame.index_of name cols = Some i -> nth_error cols i = Some name.
Proof.
  revert i. induction cols as [|c cols IH]; intros i H; [discriminate|].
  simpl in H. destruct (String.eqb_spec name c) as [->|Hne];
    [inversion H; reflexivity|].
  destruct (Frame.index_of name cols) as [j|]; [|discriminate].
  inversion H. simpl. now apply IH.
Qed.

(** The positions that [groupby(...)[columns]] selects: those of the
    columns in the frame without its last column. *)
Lemma group_indices (cols sub : list string) (last : string) (idx : list nat) :
  incl sub cols ->
  mapM (fun c => match Frame.index_of c (cols ++ [last]) with
                 | Some i => Ok i
                 | None => Raise KeyError
                 end) sub = Ok idx ->
  Forall2 (fun c i => Frame.index_of c cols = Some i) sub idx.
Proof.
  revert idx. induction sub as [|c sub IH]; intros idx Hincl H; simpl in H.
  - inversion H. constructor.
  - rewrite (index_of_app_left c cols [last]) in H
      by (apply Hincl; now left).
    destruct (Frame.index_of c cols) as [i|] eqn:E; cbn [bind] in H;
      [|discriminate].
    destruct (mapM _ sub) as [rest|e] eqn:Hrest; cbn [bind] in H;
      [|discriminate].
    inversion H. constructor; [exact E|].
    apply IH; [|reflexivity]. intros x Hx. apply Hincl. now right.
Qed.

(** A cell of a labelled row after [DesignID] is dropped. *)
Lemma cell_dropped_labelled (m i : nat) (r : list Z) (l : Z) :
  List.length r = (2 + m)%nat -> (i <= m)%nat ->
  Frame.cell i (Frame.remove_nth 0 (r ++ [l])) = Frame.cell (S i) r.
Proof.
  intros Hlen Hi. destruct r as [|a r']; simpl in Hlen; [lia|].
  cbn [app Frame.remove_nth]. unfold Frame.cell. cbn [nth].
  apply app_nth1. lia.
Qed.

(** What the summaries of a call that returns are, on a frame of the
    encoder's shape: one per distinct assigned cluster, taken in ascending
    order of the cluster index and then sorted by quantity; each is computed
    from the row of column sums of its cluster. *)
Lemma kmeans_clusters_summary_rows
      (kmeans_labels : list (list Z) -> list Z -> Z -> option Z -> list Z)
      (input_df df' : Frame.DataFrame) (features : list string)
      (k : Z) (seed : option Z) (cs : list Cluster.ClusterSummary) :
  Frame.columns input_df = "DesignID" :: "Quantity" :: features ->
  ~ In "cluster" features ->
  Forall (fun row => List.length row = (2 + List.length features)%nat)
         (Frame.data input_df) ->
  Sample.assigns_below_k kmeans_labels ->
  Cluster.kmeans_clusters kmeans_labels input_df k seed = Ok (df', cs) ->
  exists labels summaries idx,
    labels = kmeans_labels (Frame.data (Frame.iloc_from 2 input_df))
                           (map (Frame.cell 1) (Frame.data input_df)) k seed
    /\ List.length labels = List.length (Frame.data input_df)
    /\ cs = Adapter.sort_by (fun a b => Cluster.Quantity a <=? Cluster.Quantity b)
                            summaries
    /\ Forall2 (fun c i => Frame.index_of c ("Quantity" :: features) = Some i)
               ("Quantity" :: features) idx
    /\ Forall2 (fun key c =>
                  let rows := Spec.members key
                                           (combine (Frame.data input_df) labels) in
                  Cluster.Quantity c = sum_int64 (map (Frame.cell 1) rows)
                  /\ Cluster.DesignIDs c
                     = join ", " (map str (map (Frame.cell 0) rows))
                  /\ Cluster.label c <> ""
                  /\ exists terms,
                       Cluster.qualifying
                         features ("cluster" :: "Quantity" :: features)
                         (key :: map (fun i => sum_int64 (map (Frame.cell (S i)) rows))
                                     idx)
                       = Ok terms
                       /\ Cluster.label c
                          = if String.eqb (join ", " terms) "" then "Other"
                            else join ", " terms)
               (Adapter.sort_by Z.leb (Cluster.distinct labels)) summaries.
Proof.
  intros Hcols Hfresh Hwidth Hkm H.
  set (m := List.length features) in *.
  unfold Cluster.kmeans_clusters in H.
  unfold Frame.column at 1 in H. rewrite Hcols in H.
  change (Frame.index_of "Quantity" ("DesignID" :: "Quantity" :: features))
    with (Some 1%nat) in H.
  cbn [bind] in H.
  destruct (Cluster.KMeans_fit _ _ _ k seed) as [labels|e] eqn:Hfit;
    cbn [bind] in H; [|discriminate].
  destruct (Cluster.silhouette_score _ labels) as [[]|e];
    cbn [bind] in H; [|discriminate].
  apply KMeans_fit_Ok in Hfit. destruct Hfit as [Hk Hlabels].
  assert (Hlen : List.length labels = List.length (Frame.data input_df)).
  { rewrite Hlabels. destruct (Hkm (Frame.data (Frame.iloc_from 2 input_df))
                                   (map (Frame.cell 1) (Frame.data input_df))
                                   k seed) as [Hl _]; [lia|].
    rewrite Hl. simpl. apply length_map. }
  set (P := combine (Frame.data input_df) labels) in *.
  assert (Hdf1 : Frame.set_column "cluster" labels input_df
                 = {| Frame.columns :=
                        "DesignID" :: "Quantity" :: features ++ ["cluster"];
                      Frame.data := map (fun rv => fst rv ++ [snd rv]) P |}).
  { unfold Frame.set_column. rewrite index_of_fresh.
    - rewrite Hcols. reflexivity.
    - rewrite Hcols. simpl. intros [E|[E|E]]; [discriminate | discriminate | auto]. }
  rewrite Hdf1 in H. clear Hdf1.
  unfold Frame.drop in H. cbn [Frame.columns Frame.data] in H.
  change (Frame.index_of "DesignID"
            ("DesignID" :: "Quantity" :: features ++ ["cluster"]))
    with (Some O) in H.
  cbn [bind Frame.remove_nth Frame.columns Frame.data] in H.
  change ("Quantity" :: features ++ ["cluster"])
    with (("Quantity" :: features) ++ ["cluster"]) in H.
  assert (Hfresh' : ~ In "cluster" ("Quantity" :: features))
    by (simpl; intros [E|E]; [discriminate | auto]).
  rewrite (list_remove_appended _ _ Hfresh') in H.
  unfold Cluster.groupby_cluster_sum, Frame.column in H.
  cbn [Frame.columns Frame.data] in H.
  rewrite (index_of_appended _ _ Hfresh') in H.
  cbn [bind] in H.
  destruct (mapM _ ("Quantity" :: features)) as [idx|e] eqn:Hidx;
    cbn [bind] in H; [|discriminate].
  assert (Hidx0 : exists rest, idx = O :: rest).
  { cbn [mapM] in Hidx.
    change (Frame.index_of "Quantity" (("Quantity" :: features) ++ ["cluster"]))
      with (Some O) in Hidx.
    cbn [bind] in Hidx. destruct (mapM _ features) as [rest|e];
      cbn [bind] in Hidx; [|discriminate].
    inversion Hidx. eauto. }
  destruct Hidx0 as (rest & ->).
  change (Frame.index_of "DesignID"
            ("DesignID" :: ("Quantity" :: features) ++ ["cluster"]))
    with (Some O) in H.
  cbn [bind Frame.columns Frame.data] in H.
  assert (Hci : Frame.index_of "cluster"
                  ("DesignID" :: ("Quantity" :: features) ++ ["cluster"])
                = Some (2 + m)%nat).
  { change ("DesignID" :: ("Quantity" :: features) ++ ["cluster"])
      with (("DesignID" :: "Quantity" :: features) ++ ["cluster"]).
    rewrite index_of_appended; [reflexivity|].
    simpl. intros [E|[E|E]]; [discriminate | discriminate | auto]. }
  rewrite Hci in H. cbn [bind] in H.
  destruct (mapM _ (map _ (Adapter.sort_by Z.leb _))) as [summaries|e] eqn:Hs;
    cbn [bind] in H; [|discriminate].
  inversion H; subst df' cs. clear H.
  exists labels, summaries, (O :: rest).
  split; [exact Hlabels|]. split; [exact Hlen|]. split; [reflexivity|].
  assert (HidxF : Forall2 (fun c i => Frame.index_of c ("Quantity" :: features)
                                      = Some i)
                          ("Quantity" :: features) (O :: rest)).
  { apply (group_indices _ _ "cluster"); [intros x Hx; exact Hx | exact Hidx]. }
  split; [exact HidxF|].
  assert (Fw : forall rl, In rl P -> List.length (fst rl) = (2 + m)%nat).
  { intros rl Hin. exact (in_combine_width _ _ _ _ Hwidth Hin). }
  assert (Fsub : forall key rl,
             In rl (filter (fun rl => snd rl =? key) P) -> In rl P).
  { intros key rl Hin. now apply filter_In in Hin. }
  change (Datatypes.length ("Quantity" :: features)) with (S m) in Hs.
  change (fun l : list Z => match l with [] => [] | _ :: l' => l' end)
    with (Frame.remove_nth (A := Z) 0) in Hs.
  assert (F2 : map (Frame.cell (S m))
                   (map (Frame.remove_nth 0)
                        (map (fun rv : list Z * Z => fst rv ++ [snd rv]) P))
               = labels).
  { rewrite !map_map.
    transitivity (map snd P);
      [|apply map_snd_combine; symmetry; exact Hlen].
    apply map_ext_in. intros [r l] Hin.
    apply (labelled_row_cells m r l). exact (Fw _ Hin). }
  rewrite F2 in Hs.
  apply mapM_Ok_Forall2 in Hs. apply Forall2_mapped in Hs.
  revert Hs. apply Forall2_impl. intros key c Hc.
  assert (F3 : filter (fun r : list Z => Frame.cell (S m) r =? key)
                      (map (Frame.remove_nth 0)
                           (map (fun rv : list Z * Z => fst rv ++ [snd rv]) P))
               = map (Frame.remove_nth 0)
                     (map (fun rv : list Z * Z => fst rv ++ [snd rv])
                          (filter (fun rl => snd rl =? key) P))).
  { rewrite !filter_map_swap. do 2 f_equal. apply filter_ext_in.
    intros [r l] Hin. f_equal.
    apply (labelled_row_cells m r l). exact (Fw _ Hin). }
  rewrite F3 in Hc.
  assert (Hrow : map (fun i : nat =>
                        sum_int64
                          (map (Frame.cell i)
                               (map (Frame.remove_nth 0)
                                    (map (fun rv : list Z * Z => fst rv ++ [snd rv])
                                         (filter (fun rl => snd rl =? key) P)))))
                     (O :: rest)
                 = map (fun i : nat =>
                          sum_int64
                            (map (Frame.cell (S i))
                                 (map fst (filter (fun rl => snd rl =? key) P))))
                       (O :: rest)).
  { apply map_ext_in. intros i Hi. f_equal. rewrite !map_map.
    apply map_ext_in. intros [r l] Hin.
    apply (cell_dropped_labelled m i r l); [exact (Fw _ (Fsub _ _ Hin))|].
    destruct (Forall2_pick_r _ _ _ _ HidxF Hi) as (c0 & _ & Hc0).
    apply index_of_lt in Hc0. simpl in Hc0. fold m in Hc0. lia. }
  rewrite Hrow in Hc. clear Hrow.
  change (skipn 2 ("cluster" :: "Quantity" :: features)) with features in Hc.
  destruct (Cluster.qualifying _ _ _) as [terms|e] eqn:Hq; cbn [bind] in Hc;
    [|discriminate].
  change (Frame.lookup "Quantity" ("cluster" :: "Quantity" :: features))
    with (fun row : list Z => Ok (Frame.cell 1 row)) in Hc.
  change (Frame.lookup "cluster" ("cluster" :: "Quantity" :: features))
    with (fun row : list Z => Ok (Frame.cell 0 row)) in Hc.
  cbn [bind] in Hc. inversion Hc as [Ec]. clear Hc Ec.
  cbn [Cluster.Quantity Cluster.DesignIDs Cluster.label].
  unfold Spec.members. fold P.
  split; [|split; [|split]].
  - reflexivity.
  - f_equal. f_equal. rewrite !map_map, combine_maps, filter_map_swap, !map_map.
    cbn [fst snd].
    transitivity (map (fun x : list Z * Z => Frame.cell 0 (fst x ++ [snd x]))
                      (filter (fun rl => snd rl =? key) P)).
    + f_equal. apply filter_ext_in. intros [r l] Hin. cbn [fst snd].
      f_equal. apply (labelled_row_cells m r l). exact (Fw _ Hin).
    + apply map_ext_in. intros [r l] Hin.
      apply (labelled_row_cells m r l). exact (Fw _ (Fsub _ _ Hin)).
  - destruct (String.eqb_spec (join ", " terms) ""); [discriminate|assumption].
  - exists terms. split; [exact Hq | reflexivity].
Qed.

Lemma kmeans_clusters_summaries
      (kmeans_labels : list (list Z) -> list Z -> Z -> option Z -> list Z)
      (input_df df' : Frame.DataFrame) (features : list string)
      (k : Z) (seed : option Z) (cs : list Cluster.ClusterSummary) :
  Frame.columns input_df = "DesignID" :: "Quantity" :: features ->
  ~ In "cluster" features ->
  Forall (fun row => List.length row = (2 + List.length features)%nat)
         (Frame.data input_df) ->
  Sample.assigns_below_k kmeans_labels ->
  Cluster.kmeans_clusters kmeans_labels input_df k seed = Ok (df', cs) ->
  exists labels summaries,
    labels = kmeans_labels (Frame.data (Frame.iloc_from 2 input_df))
                           (map (Frame.cell 1) (Frame.data input_df)) k seed
    /\ List.length labels = List.length (Frame.data input_df)
    /\ cs = Adapter.sort_by (fun a b => Cluster.Quantity a <=? Cluster.Quantity b)
                            summaries
    /\ Forall2 (fun key c =>
                  let rows := Spec.members key
                                           (combine (Frame.data input_df) labels) in
                  Cluster.Quantity c = sum_int64 (map (Frame.cell 1) rows)
                  /\ Cluster.DesignIDs c
                     = join ", " (map str (map (Frame.cell 0) rows))
                  /\ Cluster.label c <> "")
               (Adapter.sort_by Z.leb (Cluster.distinct labels)) summaries.
Proof.
  intros Hcols Hfresh Hwidth Hkm H.
  destruct (kmeans_clusters_summary_rows _ _ _ _ _ _ _ Hcols Hfresh Hwidth Hkm H)
    as (labels & summaries & idx & H1 & H2 & H3 & _ & HF).
  exists labels, summaries. split; [exact H1|]. split; [exact H2|].
  split; [exact H3|]. revert HF. apply Forall2_impl.
  intros key c (Hq & Hi & Hl & _). auto.
Qed.


Lemma distinct_fold_facts (l seen : list Z) :
  NoDup seen ->
  let d := fold_left (fun seen x => if existsb (Z.eqb x) seen then seen
                                    else seen ++ [x]) l seen in
  NoDup d /\ (forall x, In x d <-> In x seen \/ In x l).
Proof.
  revert seen. induction l as [|y l IH]; intros seen Hnd; simpl.
  - split; [exact Hnd | tauto].
  - destruct (existsb (Z.eqb y) seen) eqn:E.
    + destruct (IH seen Hnd) as [H1 H2]. split; [exact H1|].
      intros x. rewrite (H2 x). apply existsb_exists in E.
      destruct E as (z & Hz & Ez). apply Z.eqb_eq in Ez. subst z.
      split; [tauto|]. intros [H|[H|H]]; subst; auto.
    + assert (Hnd' : NoDup (seen ++ [y])).
      { apply (Permutation_NoDup (Permutation_cons_append seen y)).
        constructor; [|exact Hnd]. intros Hin.
        assert (Et : existsb (Z.eqb y) seen = true)
          by (apply existsb_exists; exists y; split; [exact Hin | apply Z.eqb_refl]).
        congruence. }
      destruct (IH _ Hnd') as [H1 H2]. split; [exact H1|].
      intros x. rewrite (H2 x), in_app_iff. simpl. tauto.
Qed.

Lemma distinct_NoDup (l : list Z) : NoDup (Cluster.distinct l).
Proof. apply (distinct_fold_facts l []). constructor. Qed.

Lemma distinct_In (l : list Z) (x : Z) : In x (Cluster.distinct l) <-> In x l.
Proof.
  destruct (distinct_fold_facts l [] (NoDup_nil Z)) as [_ H].
  unfold Cluster.distinct. rewrite (H x). simpl. tauto.
Qed.

Lemma filter_split_perm {A : Type} (f : A -> bool) (l : list A) :
  Permutation (filter f l ++ filter (fun x => negb (f x)) l) l.
Proof.
  induction l as [|x l IH]; simpl; [constructor|].
  destruct (f x); simpl.
  - now constructor.
  - etransitivity; [symmetry; apply Permutation_middle|]. now constructor.
Qed.

Lemma filter_filter_implied {A : Type} (f g : A -> bool) (l : list A) :
  (forall x, In x l -> f x = true -> g x = true) ->
  filter f (filter g l) = filter f l.
Proof.
  induction l as [|x l IH]; intros H; simpl; [reflexivity|].
  assert (IH' : filter f (filter g l) = filter f l)
    by (apply IH; intros y Hy; apply H; now right).
  destruct (g x) eqn:Eg; simpl.
  - now rewrite IH'.
  - destruct (f x) eqn:Ef; [|exact IH'].
    rewrite (H x (or_introl eq_refl) Ef) in Eg. discriminate.
Qed.

(** Rows assigned to pairwise different keys: gathering them key by key
    gives every row once. *)
Lemma members_partition {A : Type} (keys : list Z) (P : list (A * Z)) :
  NoDup keys -> (forall rl, In rl P -> In (snd rl) keys) ->
  Permutation (flat_map (fun key => filter (fun rl => snd rl =? key) P) keys) P.
Proof.
  intros Hnd. revert P.
  induction Hnd as [|key keys Hnotin Hnd IH]; intros P Hall.
  - destruct P as [|rl P]; [constructor|]. destruct (Hall rl (or_introl eq_refl)).
  - simpl. set (P' := filter (fun rl => negb (snd rl =? key)) P).
    assert (E : flat_map (fun key0 => filter (fun rl => snd rl =? key0) P) keys
                = flat_map (fun key0 => filter (fun rl => snd rl =? key0) P') keys).
    { rewrite !flat_map_concat_map. f_equal. apply map_ext_in.
      intros key0 Hin. unfold P'. symmetry. apply filter_filter_implied.
      intros rl _ Hrl. apply Z.eqb_eq in Hrl. apply negb_true_iff.
      apply Z.eqb_neq. intros Heq. apply Hnotin. congruence. }
    rewrite E. etransitivity; [|apply (filter_split_perm (fun rl => snd rl =? key))].
    apply Permutation_app_head. apply IH.
    intros rl Hin. unfold P' in Hin. apply filter_In in Hin.
    destruct Hin as [Hin Hne]. apply negb_true_iff, Z.eqb_neq in Hne.
    destruct (Hall rl Hin) as [Heq|H]; [congruence | exact H].
Qed.

Lemma flat_map_Forall2 {A B C : Type} (g : B -> list C) (h : A -> list C)
      (keys : list A) (l : list B) :
  Forall2 (fun key c => g c = h key) keys l ->
  flat_map g l = flat_map h keys.
Proof.
  induction 1 as [|key c keys l Hc _ IH]; simpl; [reflexivity|].
  now rewrite Hc, IH.
Qed.

Lemma map_fst_combine {A B : Type} (l1 : list A) (l2 : list B) :
  List.length l1 = List.length l2 -> map fst (combine l1 l2) = l1.
Proof.
  revert l2. induction l1 as [|x l1 IH]; intros [|y l2] H; simpl in *;
    try reflexivity; try discriminate.
  f_equal. apply IH. lia.
Qed.

(** The identities in the renderer's query. *)

Lemma split_nonempty (sep : ascii) (s : string) : split sep s <> [].
Proof.
  induction s as [|c s IH]; simpl; [discriminate|].
  destruct (Ascii.eqb c sep); [discriminate|].
  destruct (split sep s); [congruence | discriminate].
Qed.

Lemma digits_free_of_comma (s : string) :
  string_forallb is_digit s = true -> Spec.free_of "," s = true.
Proof.
  unfold Spec.free_of. induction s as [|c s IH]; simpl; [reflexivity|].
  intros H. apply andb_true_iff in H. destruct H as [Hc Hs].
  rewrite (IH Hs), andb_true_r. apply negb_true_iff.
  destruct (Ascii.eqb_spec c ","); [subst c; discriminate Hc | reflexivity].
Qed.

Lemma lstrip_spaces_digits (s : string) :
  string_forallb is_digit s = true -> Inventory.lstrip_spaces s = s.
Proof.
  destruct s as [|c s]; [reflexivity|]. simpl string_forallb.
  intros H. apply andb_true_iff in H. destruct H as [Hc _].
  destruct c as [[|] [|] [|] [|] [|] [|] [|] [|]]; try reflexivity;
    vm_compute in Hc; discriminate Hc.
Qed.

Lemma sql_ids_lead_space (s : string) :
  map (fun t => Adapter.int_of_digits (Inventory.lstrip_spaces t))
      (split "," (String " " s))
  = map (fun t => Adapter.int_of_digits (Inventory.lstrip_spaces t))
        (split "," s).
Proof.
  cbn [split]. change (Ascii.eqb " " ",") with false. cbv iota.
  destruct (split "," s) as [|h t] eqn:E; [now apply split_nonempty in E|].
  reflexivity.
Qed.

Lemma sql_ids_of_join (i : Z) (ids : list Z) :
  Forall (fun i => 0 <= i) (i :: ids) ->
  map (fun t => Adapter.int_of_digits (Inventory.lstrip_spaces t))
      (split "," (join ", " (map str (i :: ids))))
  = i :: ids.
Proof.
  revert i. induction ids as [|j ids IH]; intros i H.
  - inversion H as [|? ? Hi _]; subst. destruct (str_digits i Hi) as [Hd _].
    cbn [map join]. rewrite (split_free _ _ (digits_free_of_comma _ Hd)).
    cbn [map]. now rewrite (lstrip_spaces_digits _ Hd), int_of_digits_str.
  - inversion H as [|? ? Hi Hrest]; subst. destruct (str_digits i Hi) as [Hd _].
    change (join ", " (map str (i :: j :: ids)))
      with (str i ++ String "," (String " " (join ", " (map str (j :: ids)))))%string.
    set (J := join ", " (map str (j :: ids))).
    rewrite (split_app_sep _ _ _ (digits_free_of_comma _ Hd)).
    cbn [map]. rewrite sql_ids_lead_space. unfold J. rewrite (IH j Hrest).
    now rewrite (lstrip_spaces_digits _ Hd), int_of_digits_str.
Qed.

(** The text that [kmeans_clusters] writes for a cluster's members reads
    back, in the renderer's query, as the members' identities. *)
Lemma sql_id_list_join (ids : list Z) :
  Forall (fun i => 0 <= i) ids ->
  Inventory.sql_id_list (join ", " (map str ids)) = ids.
Proof.
  intros H. destruct ids as [|i ids]; [reflexivity|].
  pose proof (sql_ids_of_join i ids H) as E. unfold Inventory.sql_id_list.
  destruct (join ", " (map str (i :: ids))) as [|c s] eqn:Ej; [|exact E].
  inversion H as [|? ? Hi _]; subst. destruct (str_digits i Hi) as [_ Hne].
  cbn [map join] in Ej. destruct (map str ids); [congruence|].
  destruct (str i); [congruence | discriminate Ej].
Qed.

Lemma sorted_keys_In (labels : list Z) (key : Z) :
  In key (Adapter.sort_by Z.leb (Cluster.distinct labels)) <-> In key labels.
Proof.
  rewrite <- (distinct_In labels key). split; apply Permutation_in;
    [|symmetry]; apply sort_by_perm.
Qed.

Lemma feature_assignment_below_k :
  Sample.assigns_below_k Sample.feature_assignment.
Proof.
  intros X w k rs Hk. unfold Sample.feature_assignment.
  destruct rs; (split; [apply length_map|]);
    apply Forall_map, Forall_forall; intros row _;
    apply Z.mod_pos_bound; lia.
Qed.

(** X12.  On a frame of the encoder's shape (DesignID, Quantity, then the
    term columns), a call of [kmeans_clusters] that returns gives exactly one
    summary per cluster that the fit used, in ascending order of quantity;
    no summary has an empty label, and the quantity of a summary is the
    (64-bit) sum of the quantities of the rows assigned to its cluster. *)
Theorem kmeans_summaries_one_per_cluster
      (kmeans_labels : list (list Z) -> list Z -> Z -> option Z -> list Z)
      (input_df df' : Frame.DataFrame) (features : list string)
      (k : Z) (seed : option Z) (cs : list Cluster.ClusterSummary) :
  Frame.columns input_df = "DesignID" :: "Quantity" :: features ->
  ~ In "cluster" features ->
  Forall (fun row => List.length row = (2 + List.length features)%nat)
         (Frame.data input_df) ->
  Sample.assigns_below_k kmeans_labels ->
  Cluster.kmeans_clusters kmeans_labels input_df k seed = Ok (df', cs) ->
  let labels := kmeans_labels (Frame.data (Frame.iloc_from 2 input_df))
                              (map (Frame.cell 1) (Frame.data input_df)) k seed in
  let assigned := combine (Frame.data input_df) labels in
  StronglySorted (fun a b => Cluster.Quantity a <= Cluster.Quantity b) cs
  /\ List.length cs = List.length (Cluster.distinct labels)
  /\ (forall c, In c cs ->
        Cluster.label c <> ""
        /\ exists key, In key labels
             /\ Cluster.Quantity c
                = sum_int64 (map (Frame.cell 1) (Spec.members key assigned)))
  /\ (forall key, In key labels ->
        exists c, In c cs
             /\ Cluster.Quantity c
                = sum_int64 (map (Frame.cell 1) (Spec.members key assigned))).
Proof.
  intros Hc Hf Hw Hkm H labels assigned.
  destruct (kmeans_clusters_summaries _ _ _ _ _ _ _ Hc Hf Hw Hkm H)
    as (labels' & summaries & El & Hlen & Ecs & HF).
  subst labels'. fold labels in HF, Hlen. fold assigned in HF.
  assert (Hperm : Permutation cs summaries) by (rewrite Ecs; apply sort_by_perm).
  split; [rewrite Ecs; apply (sort_by_sorted Cluster.Quantity)|].
  split.
  { rewrite (Permutation_length Hperm), <- (Forall2_length HF).
    apply Permutation_length, sort_by_perm. }
  split.
  - intros c Hin. apply (Permutation_in _ Hperm) in Hin.
    destruct (Forall2_pick_r _ _ _ _ HF Hin) as (key & Hkey & Hq & _ & Hl).
    split; [exact Hl|]. exists key. split; [|exact Hq].
    now apply sorted_keys_In.
  - intros key Hkey. apply sorted_keys_In in Hkey.
    destruct (Forall2_pick_l _ _ _ _ HF Hkey) as (c & Hin & Hq & _).
    exists c. split; [|exact Hq].
    apply (Permutation_in _ (Permutation_sym Hperm)). exact Hin.
Qed.

Lemma kmeans_summaries_one_per_cluster_witness :
  StronglySorted (fun a b => Cluster.Quantity a <= Cluster.Quantity b)
                 Sample.clustered_summaries
  /\ List.length Sample.clustered_summaries = 2%nat.
Proof.
  destruct (kmeans_summaries_one_per_cluster
              Sample.feature_assignment Sample.three_parts_frame
              Sample.clustered_frame ["Lego"; "Technic"; "Brick"; "Gears"; "Pins"]
              2 None Sample.clustered_summaries) as (H1 & H2 & _).
  - reflexivity.
  - simpl. intros H. repeat (destruct H as [H|H]; [discriminate|]). exact H.
  - repeat constructor.
  - exact feature_assignment_below_k.
  - vm_compute. reflexivity.
  - split; [exact H1 | exact H2].
Defined.

(** The member lists of the summaries, read back as identities. *)
Lemma summaries_partition_rows
      (kmeans_labels : list (list Z) -> list Z -> Z -> option Z -> list Z)
      (input_df df' : Frame.DataFrame) (features : list string)
      (k : Z) (seed : option Z) (cs : list Cluster.ClusterSummary) :
  Frame.columns input_df = "DesignID" :: "Quantity" :: features ->
  ~ In "cluster" features ->
  Forall (fun row => List.length row = (2 + List.length features)%nat)
         (Frame.data input_df) ->
  Forall (fun row => 0 <= Frame.cell 0 row) (Frame.data input_df) ->
  Sample.assigns_below_k kmeans_labels ->
  Cluster.kmeans_clusters kmeans_labels input_df k seed = Ok (df', cs) ->
  Permutation
    (flat_map (fun c => Inventory.sql_id_list (Cluster.DesignIDs c)) cs)
    (map (Frame.cell 0) (Frame.data input_df)).
Proof.
  intros Hc Hf Hw Hpos Hkm H.
  destruct (kmeans_clusters_summaries _ _ _ _ _ _ _ Hc Hf Hw Hkm H)
    as (labels & summaries & _ & Hlen & Ecs & HF).
  set (P := combine (Frame.data input_df) labels) in *.
  assert (Hperm : Permutation cs summaries) by (rewrite Ecs; apply sort_by_perm).
  etransitivity; [apply Permutation_flat_map; exact Hperm|].
  rewrite (flat_map_Forall2
             (fun c => Inventory.sql_id_list (Cluster.DesignIDs c))
             (fun key => map (fun rl => Frame.cell 0 (fst rl))
                             (filter (fun rl => snd rl =? key) P))
             (Adapter.sort_by Z.leb (Cluster.distinct labels)) summaries).
  - rewrite flat_map_concat_map.
    rewrite <- (map_map (fun key => filter (fun rl => snd rl =? key) P)
                        (map (fun rl => Frame.cell 0 (fst rl)))).
    rewrite <- concat_map, <- flat_map_concat_map.
    rewrite <- (map_fst_combine (Frame.data input_df) labels)
      by (symmetry; exact Hlen).
    fold P. rewrite (map_map fst). apply Permutation_map.
    apply members_partition.
    + apply (Permutation_NoDup (Permutation_sym (sort_by_perm _ _))).
      apply distinct_NoDup.
    + intros [r l] Hin. apply sorted_keys_In. simpl.
      exact (in_combine_r _ _ _ _ Hin).
  - revert HF. apply Forall2_impl. intros key c (_ & Hids & _).
    rewrite Hids. unfold Spec.members. rewrite (map_map fst).
    apply sql_id_list_join. apply Forall_map, Forall_forall.
    intros [r l] Hin. apply filter_In in Hin. destruct Hin as [Hin _].
    apply in_combine_l in Hin. rewrite Forall_forall in Hpos. now apply Hpos.
Qed.

(** X13.  The member lists of the summaries partition the working set: read
    back as the renderer's image query reads them ([DesignID IN (...)]), the
    identities of all summaries together are the DesignID column of the
    clustered frame, each row once, when the identities are non-negative (as
    the adapters produce them). *)
Theorem cluster_queries_partition_the_parts
      (kmeans_labels : list (list Z) -> list Z -> Z -> option Z -> list Z)
      (input_df df' : Frame.DataFrame) (features : list string)
      (k : Z) (seed : option Z) (cs : list Cluster.ClusterSummary) :
  Frame.columns input_df = "DesignID" :: "Quantity" :: features ->
  ~ In "cluster" features ->
  Forall (fun row => List.length row = (2 + List.length features)%nat)
         (Frame.data input_df) ->
  Forall (fun row => 0 <= Frame.cell 0 row) (Frame.data input_df) ->
  Sample.assigns_below_k kmeans_labels ->
  Cluster.kmeans_clusters kmeans_labels input_df k seed = Ok (df', cs) ->
  Permutation
    (flat_map (fun c => Inventory.sql_id_list (Cluster.DesignIDs c)) cs)
    (map (Frame.cell 0) (Frame.data input_df)).
Proof. apply summaries_partition_rows. Qed.

Lemma cluster_queries_partition_the_parts_witness :
  Permutation
    (flat_map (fun c => Inventory.sql_id_list (Cluster.DesignIDs c))
              Sample.clustered_summaries)
    [3648; 2780; 3001].
Proof.
  apply (cluster_queries_partition_the_parts
           Sample.feature_assignment Sample.three_parts_frame
           Sample.clustered_frame ["Lego"; "Technic"; "Brick"; "Gears"; "Pins"]
           2 None Sample.clustered_summaries).
  - reflexivity.
  - simpl. intros H. repeat (destruct H as [H|H]; [discriminate|]). exact H.
  - repeat constructor.
  - repeat constructor; vm_compute; discriminate.
  - exact feature_assignment_below_k.
  - vm_compute. reflexivity.
Defined.

(** ** The category index of a cluster label *)

Lemma drop_digits_run (d rest : string) :
  string_forallb is_digit d = true ->
  Inventory.drop_digits (d ++ String "." rest) = String "." rest.
Proof.
  induction d as [|c d IH]; intros H; [reflexivity|].
  simpl in H. apply andb_true_iff in H. destruct H as [Hc Hd].
  cbn [String.append Inventory.drop_digits]. rewrite Hc. exact (IH Hd).
Qed.

Lemma leading_digits_run (s : string) :
  string_forallb is_digit (Adapter.leading_digits s) = true.
Proof.
  induction s as [|c s IH]; simpl; [reflexivity|].
  destruct (is_digit c) eqn:E; simpl; [now rewrite E | reflexivity].
Qed.

Lemma leading_then_rest (s : string) :
  (Adapter.leading_digits s ++ Inventory.drop_digits s)%string = s.
Proof.
  induction s as [|c s IH]; simpl; [reflexivity|].
  destruct (is_digit c); simpl; [now rewrite IH | reflexivity].
Qed.

(** X14.  What the renderer removes from a cluster label: a label that
    consists of a non-empty digit run, a full stop, a space and a rest is
    shown as the rest; every other label is shown as it is. *)
Theorem category_index_stripped (d rest label : string) :
  string_forallb is_digit d = true -> d <> "" ->
  (forall d' rest', string_forallb is_digit d' = true -> d' <> "" ->
                    label <> (d' ++ ". " ++ rest')%string) ->
  Inventory.strip_category_index (d ++ ". " ++ rest) = rest
  /\ Inventory.strip_category_index label = label.
Proof.
  intros Hd Hne Hlabel. split.
  - destruct d as [|c d]; [congruence|].
    unfold Inventory.strip_category_index.
    change ((String c d ++ ". " ++ rest)%string)
      with (String c (d ++ String "." (String " " rest))).
    simpl in Hd. apply andb_true_iff in Hd. destruct Hd as [Hc Hd].
    rewrite Hc. cbn [Inventory.drop_digits]. rewrite Hc.
    now rewrite (drop_digits_run d _ Hd).
  - unfold Inventory.strip_category_index.
    destruct label as [|c s]; [reflexivity|].
    destruct (is_digit c) eqn:Hc; [|reflexivity].
    destruct (Inventory.drop_digits (String c s)) as [|c1 s1] eqn:E;
      [reflexivity|].
    destruct (Ascii.eqb_spec c1 ".") as [->|H1];
      [|destruct c1 as [[|] [|] [|] [|] [|] [|] [|] [|]]; try reflexivity;
        now elim H1].
    destruct s1 as [|c2 rest']; [reflexivity|].
    destruct (Ascii.eqb_spec c2 " ") as [->|H2];
      [|destruct c2 as [[|] [|] [|] [|] [|] [|] [|] [|]]; try reflexivity;
        now elim H2].
    exfalso.
    apply (Hlabel (Adapter.leading_digits (String c s)) rest').
    + apply leading_digits_run.
    + simpl. rewrite Hc. discriminate.
    + change (". " ++ rest')%string with (String "." (String " " rest')).
      rewrite <- E. symmetry. apply leading_then_rest.
Qed.

Lemma category_index_stripped_witness :
  Inventory.strip_category_index "6. Technic" = "Technic"
  /\ Inventory.strip_category_index "Other" = "Other".
Proof.
  apply (category_index_stripped "6" "Technic" "Other").
  - reflexivity.
  - discriminate.
  - intros d' rest' Hd' Hne' E. destruct d' as [|c d']; [congruence|].
    simpl in E. inversion E; subst c. discriminate Hd'.
Defined.

(** ** The adapters on every table *)

Lemma digits_from_nonneg (s : string) (acc : Z) :
  string_forallb is_digit s = true -> 0 <= acc -> 0 <= Spec.digits_from acc s.
Proof.
  revert acc. induction s as [|c s IH]; intros acc H Hacc; [exact Hacc|].
  simpl in H. apply andb_true_iff in H. destruct H as [Hc Hs].
  cbn [Spec.digits_from]. apply (IH _ Hs).
  unfold is_digit in Hc. apply andb_true_iff in Hc. destruct Hc as [H1 _].
  apply Nat.leb_le in H1. unfold digit_val. lia.
Qed.

Lemma str_extract_digits (s k : string) :
  Adapter.str_extract s = Some k -> string_forallb is_digit k = true.
Proof.
  unfold Adapter.str_extract. pose proof (leading_digits_run s) as H.
  destruct (Adapter.leading_digits s); [discriminate|].
  intros E. inversion E; subst. exact H.
Qed.

Lemma group_rows_skips_unkeyed (raw : Adapter.RawTable) :
  Adapter.group_rows
    (map (fun r => (Adapter.str_extract (fst r), snd r))
         (filter (fun r => match Adapter.str_extract (fst r) with
                           | Some _ => true
                           | None => false
                           end) raw))
  = Adapter.group_rows (map (fun r => (Adapter.str_extract (fst r), snd r)) raw).
Proof.
  unfold Adapter.group_rows. generalize (@nil (string * list Z)).
  induction raw as [|r raw IH]; intros acc; [reflexivity|].
  cbn [filter map].
  destruct (Adapter.str_extract (fst r)) as [k|] eqn:E.
  - cbn [map fold_left fst snd]. rewrite ?E. cbn [fst snd]. apply IH.
  - cbn [fold_left fst snd]. apply IH.
Qed.

(** The records of [clean]: one for each digit run of the table. *)
Lemma clean_steps_record (raw : Adapter.RawTable) (d q : Z) :
  In (d, q) (Adapter.clean_steps raw)
  <-> exists k, d = Adapter.int_of_digits k
        /\ (exists r, In r raw /\ Adapter.str_extract (fst r) = Some k)
        /\ q = sum_int64
                 (Spec.group_of k
                    (map (fun r => (Adapter.str_extract (fst r), snd r)) raw)).
Proof.
  unfold Adapter.clean_steps, Adapter.sort_values. split.
  - intros Hin. apply (Permutation_in _ (sort_by_perm _ _)) in Hin.
    apply in_map_iff in Hin. destruct Hin as ([k s] & E & Hin).
    simpl in E. inversion E; subst. apply groupby_sum_spec in Hin.
    destruct Hin as [Hne ->]. exists k. split; [reflexivity|].
    split; [now apply group_of_nonempty | reflexivity].
  - intros (k & -> & Hr & ->).
    apply (Permutation_in _ (Permutation_sym (sort_by_perm _ _))).
    apply in_map_iff. eexists (k, _). split; [reflexivity|].
    apply groupby_sum_spec. split; [now apply group_of_nonempty | reflexivity].
Qed.

Lemma clean_steps_nonneg (raw : Adapter.RawTable) :
  Forall (fun r => 0 <= fst r) (Adapter.clean_steps raw).
Proof.
  apply Forall_forall. intros [d q] Hin. apply clean_steps_record in Hin.
  destruct Hin as (k & -> & (r & _ & Hr) & _). simpl.
  apply (digits_from_nonneg k 0); [|lia]. exact (str_extract_digits _ _ Hr).
Qed.

(** X15.  On every table, whatever its identities: the records of [clean]
    come in ascending order of DesignID, no DesignID is negative, there is a
    record for a DesignID exactly when some identity of the table strips to
    it, and the entries whose identity does not start with a digit change
    nothing. *)
Theorem clean_steps_on_every_table (raw : Adapter.RawTable) :
  StronglySorted (fun a b => fst a <= fst b) (Adapter.clean_steps raw)
  /\ Forall (fun r => 0 <= fst r) (Adapter.clean_steps raw)
  /\ (forall d, In d (map fst (Adapter.clean_steps raw))
                <-> Adapter.contributions d raw <> [])
  /\ Adapter.clean_steps
       (filter (fun r => match Adapter.str_extract (fst r) with
                         | Some _ => true
                         | None => false
                         end) raw)
     = Adapter.clean_steps raw.
Proof.
  split; [apply (sort_by_sorted fst)|].
  split; [apply clean_steps_nonneg|]. split.
  - intros d. rewrite in_map_iff. split.
    + intros ([d' q] & E & Hin). simpl in E. subst d'.
      apply clean_steps_record in Hin.
      destruct Hin as (k & -> & (r & Hin & Hr) & _).
      unfold Adapter.contributions. intros Hnil. apply map_eq_nil in Hnil.
      assert (Hf : In r (filter (fun r => match Adapter.str_extract (fst r) with
                                          | Some k' => Adapter.int_of_digits k'
                                                       =? Adapter.int_of_digits k
                                          | None => false
                                          end) raw)).
      { apply filter_In. split; [exact Hin|]. rewrite Hr. apply Z.eqb_refl. }
      rewrite Hnil in Hf. destruct Hf.
    + intros Hne. destruct (contributions_nonempty raw d Hne)
        as (r & k & Hin & Hr & <-).
      eexists (_, _). split; [reflexivity|]. apply clean_steps_record. exists k.
      split; [reflexivity|]. split; [eauto | reflexivity].
  - unfold Adapter.clean_steps, Adapter.groupby_sum.
    now rewrite group_rows_skips_unkeyed.
Qed.

(** X16.  On a table whose digit runs do not collide (no two of them denote
    one integer), in particular when no identity has leading zeros, [clean]
    returns one record per DesignID, strictly ascending, with the 64-bit sum
    of the quantities of the entries that strip to it. *)
Theorem clean_sums_the_quantities_of_each_part (raw : Adapter.RawTable) :
  Spec.collision_free raw ->
  StronglySorted (fun a b => fst a < fst b) (Adapter.clean_steps raw)
  /\ forall d q,
       In (d, q) (Adapter.clean_steps raw)
       <-> Adapter.contributions d raw <> []
           /\ q = sum_int64 (Adapter.contributions d raw).
Proof. apply clean_steps_collision_free. Qed.

Lemma clean_sums_the_quantities_of_each_part_witness :
  In (3001, 8)
     (Adapter.clean_steps [("3001", 5); ("x12", 7); ("3002", 2); ("3001b", 3)]).
Proof.
  apply (clean_sums_the_quantities_of_each_part
           [("3001", 5); ("x12", 7); ("3002", 2); ("3001b", 3)]).
  - intros r1 r2 k1 k2 H1 H2 E1 E2 E. simpl in H1, H2.
    repeat (destruct H1 as [H1|H1]; [subst r1; vm_compute in E1|]);
      try (destruct H1);
      repeat (destruct H2 as [H2|H2]; [subst r2; vm_compute in E2|]);
      try (destruct H2);
      try discriminate; inversion E1; inversion E2; subst;
      try reflexivity; vm_compute in E; discriminate E.
  - split; [discriminate | reflexivity].
Defined.

(** ** The request handler and the cluster count *)

(** A call of the clusterer that returns had at least two clusters and at
    most as many as the frame has rows. *)
Lemma kmeans_clusters_count
      (kmeans_labels : list (list Z) -> list Z -> Z -> option Z -> list Z)
      (input_df df' : Frame.DataFrame) (k : Z) (seed : option Z)
      (cs : list Cluster.ClusterSummary) :
  Sample.assigns_below_k kmeans_labels ->
  Cluster.kmeans_clusters kmeans_labels input_df k seed = Ok (df', cs) ->
  2 <= k <= Z.of_nat (List.length (Frame.data input_df)).
Proof.
  intros Hkm H.
  destruct (kmeans_clusters_Ok _ _ _ _ _ _ H)
    as (w & labels & _ & Hfit & Hsil & _).
  apply KMeans_fit_Ok in Hfit. destruct Hfit as [Hk Hlabels].
  simpl in Hk. rewrite length_map in Hk. split; [|lia].
  destruct (Z.eq_dec k 1) as [->|Hne]; [|lia].
  destruct (Hkm (Frame.data (Frame.iloc_from 2 input_df)) w 1 seed) as [_ Hl];
    [lia|].
  rewrite <- Hlabels in Hl.
  rewrite (silhouette_single_cluster _ _ Hl) in Hsil. discriminate.
Qed.

(** X17.  The handler shows a result only for a count it could cluster
    with: when the page of a POST carries a result, the posted cluster count
    parsed as an integer [n], the load returned, [n] is at least 2 and at
    most the number of records of the loaded working set, and [n] is what
    the handler stored and rendered as the cluster count. *)
Theorem handler_result_needs_two_clusters
        (remote : BrickArchitect.Remote)
        (re_compile : string -> result (string -> bool))
        (kmeans_labels : list (list Z) -> list Z -> Z -> option Z -> list Z)
        (form : WebPage.Form) (rng_integers : Z) (now : Database.datetime)
        (input : option Adapter.RawTable) (db : Database.table)
        (schedule : list nat) (attrs : WebPage.Attrs) (page : WebPage.Page)
        (html : string) :
  Sample.assigns_below_k kmeans_labels ->
  WebPage.index_post remote re_compile kmeans_labels form rng_integers now
                     input db schedule = Some (Ok (attrs, page)) ->
  WebPage.page_result page = Some html ->
  exists n loaded db',
    WebPage.py_int (WebPage.form_num_clusters form) = Ok n
    /\ Inventory.load remote re_compile now input db = Ok (loaded, db')
    /\ 2 <= n <= Z.of_nat (List.length (Frame.data (Inventory.df loaded)))
    /\ WebPage.num_clusters attrs = n
    /\ WebPage.page_num_clusters page = n.
Proof.
  intros Hkm. unfold WebPage.index_post.
  destruct (WebPage.py_int (WebPage.form_num_clusters form)) as [n|e];
    [|discriminate].
  destruct (Inventory.load remote re_compile now input db)
    as [[loaded db']|e] eqn:Hload; cbn [bind fst snd].
  - destruct (Inventory.cluster kmeans_labels loaded n _)
      as [inventory|e] eqn:Hcl; cbn [bind].
    + destruct (Inventory.clusters inventory) as [cs|]; [|discriminate].
      destruct (Inventory.as_html db' cs schedule) as [html'|]; [|discriminate].
      simpl. intros H _. inversion H; subst. simpl.
      exists n, loaded, db'. split; [reflexivity|]. split; [reflexivity|].
      split; [|split; reflexivity].
      unfold Inventory.cluster in Hcl.
      destruct (Cluster.kmeans_clusters kmeans_labels (Inventory.df loaded) n _)
        as [[df' cs']|e] eqn:Hk; [|discriminate].
      exact (kmeans_clusters_count _ _ _ _ _ _ Hkm Hk).
    + destruct (is_ValueError e); intros H Hp; inversion H; subst;
        discriminate Hp.
  - destruct (is_ValueError e); intros H Hp; inversion H; subst;
      discriminate Hp.
Qed.

Lemma handler_result_needs_two_clusters_witness :
  exists n, WebPage.py_int "2" = Ok n /\ 2 <= n.
Proof.
  pose (form := {| WebPage.form_num_clusters := "2";
                   WebPage.form_seed := "42" |}).
  pose (r := match Sample.posted_response form with
             | Some (Ok r) => r
             | _ => (WebPage.initial,
                     {| WebPage.page_result := None;
                        WebPage.page_num_clusters := 0;
                        WebPage.page_seed := 0 |})
             end).
  destruct (handler_result_needs_two_clusters
              Sample.error_page_remote Sample.literal_compile
              Sample.feature_assignment form 7
              (Sample.at_time (Sample.day 2025 3 1) 0)
              (Some [("3648", 1); ("2780", 3); ("3001", 4)])
              Sample.technic_cache [1%nat; O] (fst r) (snd r)
              (match WebPage.page_result (snd r) with
               | Some h => h
               | None => ""
               end))
    as (n & loaded & db' & Hn & _ & Hb & _).
  - exact feature_assignment_below_k.
  - vm_compute. reflexivity.
  - vm_compute. reflexivity.
  - exists n. split; [exact Hn | exact (proj1 Hb)].
Defined.

(** ** The images of the rendered clusters *)

Lemma filter_disjoint_or_perm {A : Type} (f h : A -> bool) (l : list A) :
  (forall x, In x l -> f x = true -> h x = true -> False) ->
  Permutation (filter (fun x => f x || h x) l) (filter f l ++ filter h l).
Proof.
  induction l as [|x l IH]; intros Hd; simpl; [constructor|].
  assert (IH' : Permutation (filter (fun x => f x || h x) l)
                            (filter f l ++ filter h l))
    by (apply IH; intros y Hy; apply Hd; now right).
  destruct (f x) eqn:Ef, (h x) eqn:Eh; simpl.
  - destruct (Hd x (or_introl eq_refl) Ef Eh).
  - now constructor.
  - etransitivity; [|apply Permutation_middle]. now constructor.
  - exact IH'.
Qed.

Lemma NoDup_app_disjoint {A : Type} (l1 l2 : list A) (a : A) :
  NoDup (l1 ++ l2) -> In a l1 -> In a l2 -> False.
Proof.
  induction l1 as [|x l1 IH]; intros Hnd H1 H2; [destruct H1|].
  simpl in Hnd. inversion Hnd as [|? ? Hx Hrest]; subst.
  destruct H1 as [->|H1]; [|exact (IH Hrest H1 H2)].
  apply Hx, in_or_app. now right.
Qed.

(** Selecting the cached rows cluster by cluster, for member lists that
    together hold each identity once, selects every row once. *)
Lemma rows_of_disjoint_queries (db : Database.table) (queries : list (list Z)) :
  NoDup (List.concat queries) ->
  Permutation
    (flat_map (fun ids => filter (fun r => Database.in_ids ids (Database.DesignID r))
                                 db) queries)
    (filter (fun r => Database.in_ids (List.concat queries) (Database.DesignID r)) db).
Proof.
  induction queries as [|ids queries IH]; intros Hnd; simpl.
  - induction db as [|r db IHdb]; [constructor | exact IHdb].
  - assert (Hrest : NoDup (List.concat queries))
      by (exact (NoDup_app_remove_l _ _ Hnd)).
    etransitivity; [apply Permutation_app_head, (IH Hrest)|].
    symmetry. etransitivity; [|apply filter_disjoint_or_perm].
    + erewrite filter_ext; [reflexivity|]. intros r. simpl.
      destruct (Database.in_ids (ids ++ List.concat queries) (Database.DesignID r)) eqn:E.
      * apply in_ids_In, in_app_or in E. symmetry. apply orb_true_iff.
        destruct E as [E|E]; [left | right]; now apply in_ids_In.
      * symmetry. apply orb_false_iff.
        split; apply not_true_is_false; intros H; apply in_ids_In in H;
          (assert (Et : Database.in_ids (ids ++ List.concat queries)
                                        (Database.DesignID r) = true)
            by (apply in_ids_In, in_or_app; auto)); congruence.
    + intros r _ H1 H2. apply in_ids_In in H1, H2.
      exact (NoDup_app_disjoint _ _ _ Hnd H1 H2).
Qed.

(** X18.  Every cached part of the working set is drawn once: when the
    identities of the clustered frame are pairwise different and not
    negative, the image queries of the summaries of one clustering select,
    all together, the image cell of each cache row of the working set and
    each of them in one cluster only. *)
Theorem each_cached_part_drawn_in_one_cluster
      (kmeans_labels : list (list Z) -> list Z -> Z -> option Z -> list Z)
      (input_df df' : Frame.DataFrame) (features : list string)
      (k : Z) (seed : option Z) (cs : list Cluster.ClusterSummary)
      (db : Database.table) :
  Frame.columns input_df = "DesignID" :: "Quantity" :: features ->
  ~ In "cluster" features ->
  Forall (fun row => List.length row = (2 + List.length features)%nat)
         (Frame.data input_df) ->
  Forall (fun row => 0 <= Frame.cell 0 row) (Frame.data input_df) ->
  NoDup (map (Frame.cell 0) (Frame.data input_df)) ->
  Sample.assigns_below_k kmeans_labels ->
  Cluster.kmeans_clusters kmeans_labels input_df k seed = Ok (df', cs) ->
  Permutation
    (flat_map (fun c => Database.get_images_for_cluster
                          (Inventory.sql_id_list (Cluster.DesignIDs c)) db)
              cs)
    (map Database.Image
         (filter (fun r => Database.in_ids (map (Frame.cell 0) (Frame.data input_df))
                                           (Database.DesignID r))
                 db)).
Proof.
  intros Hc Hf Hw Hpos Hnd Hkm H.
  destruct (kmeans_clusters_summaries _ _ _ _ _ _ _ Hc Hf Hw Hkm H)
    as (labels & summaries & _ & Hlen & Ecs & HF).
  set (P := combine (Frame.data input_df) labels) in *.
  set (keys := Adapter.sort_by Z.leb (Cluster.distinct labels)) in *.
  set (ids_of := fun key => map (fun rl : list Z * Z => Frame.cell 0 (fst rl))
                                (filter (fun rl => snd rl =? key) P)).
  assert (Hperm : Permutation cs summaries) by (rewrite Ecs; apply sort_by_perm).
  assert (Hids : Forall2 (fun key c =>
                            Inventory.sql_id_list (Cluster.DesignIDs c) = ids_of key)
                         keys summaries).
  { revert HF. apply Forall2_impl. intros key c (_ & Hids & _).
    rewrite Hids. unfold Spec.members, ids_of. rewrite (map_map fst).
    apply sql_id_list_join. apply Forall_map, Forall_forall.
    intros [r l] Hin. apply filter_In in Hin. destruct Hin as [Hin _].
    apply in_combine_l in Hin. rewrite Forall_forall in Hpos. now apply Hpos. }
  assert (Hall : Permutation (List.concat (map ids_of keys))
                             (map (Frame.cell 0) (Frame.data input_df))).
  { unfold ids_of.
    rewrite <- (map_map (fun key => filter (fun rl => snd rl =? key) P)
                        (map (fun rl => Frame.cell 0 (fst rl)))).
    rewrite <- concat_map, <- flat_map_concat_map.
    rewrite <- (map_fst_combine (Frame.data input_df) labels)
      by (symmetry; exact Hlen).
    fold P. rewrite (map_map fst). apply Permutation_map.
    apply members_partition.
    - apply (Permutation_NoDup (Permutation_sym (sort_by_perm _ _))).
      apply distinct_NoDup.
    - intros [r l] Hin. apply sorted_keys_In. simpl.
      exact (in_combine_r _ _ _ _ Hin). }
  etransitivity; [apply Permutation_flat_map; exact Hperm|].
  rewrite (flat_map_Forall2
             (fun c => Database.get_images_for_cluster
                         (Inventory.sql_id_list (Cluster.DesignIDs c)) db)
             (fun key => Database.get_images_for_cluster (ids_of key) db)
             keys summaries)
    by (revert Hids; apply Forall2_impl; intros key c E; now rewrite E).
  unfold Database.get_images_for_cluster.
  set (sel := fun ids => filter (fun r => Database.in_ids ids (Database.DesignID r)) db).
  transitivity (map Database.Image (flat_map sel (map ids_of keys))).
  - rewrite !flat_map_concat_map, concat_map, !map_map.
    clear. induction keys as [|key keys IH]; simpl; [constructor|].
    apply Permutation_app; [|exact IH].
    apply Permutation_map, sort_by_perm.
  - apply Permutation_map.
    etransitivity;
      [apply rows_of_disjoint_queries;
       exact (Permutation_NoDup (Permutation_sym Hall) Hnd)|].
    erewrite filter_ext_in; [reflexivity|]. intros r _.
    destruct (Database.in_ids (map (Frame.cell 0) (Frame.data input_df))
                              (Database.DesignID r)) eqn:E.
    + apply in_ids_In. apply in_ids_In in E.
      exact (Permutation_in _ (Permutation_sym Hall) E).
    + apply not_true_is_false. intros Ht. apply in_ids_In in Ht.
      apply (Permutation_in _ Hall), in_ids_In in Ht. congruence.
Qed.

Lemma each_cached_part_drawn_in_one_cluster_witness :
  Permutation
    (flat_map (fun c => Database.get_images_for_cluster
                          (Inventory.sql_id_list (Cluster.DesignIDs c))
                          Sample.technic_cache)
              Sample.clustered_summaries)
    [Some "b64:png-of-3648"; None; Some "b64:png-of-3001"].
Proof.
  apply (each_cached_part_drawn_in_one_cluster
           Sample.feature_assignment Sample.three_parts_frame
           Sample.clustered_frame ["Lego"; "Technic"; "Brick"; "Gears"; "Pins"]
           2 None Sample.clustered_summaries Sample.technic_cache).
  - reflexivity.
  - simpl. intros H. repeat (destruct H as [H|H]; [discriminate|]). exact H.
  - repeat constructor.
  - repeat constructor; vm_compute; discriminate.
  - repeat constructor; simpl; intros H;
      repeat (destruct H as [H|H]; [discriminate|]); exact H.
  - exact feature_assignment_below_k.
  - vm_compute. reflexivity.
Defined.

(** ** The label of a cluster *)

Lemma Forall2_nth_error {A B : Type} (R : A -> B -> Prop) (l : list A)
      (l' : list B) (n : nat) (a : A) :
  Forall2 R l l' -> nth_error l n = Some a ->
  exists b, nth_error l' n = Some b /\ R a b.
Proof.
  intros H. revert n. induction H as [|x y l l' Hxy _ IH]; intros [|n] E;
    simpl in *; try discriminate.
  - inversion E; subst. eauto.
  - eauto.
Qed.

(** Reading a term column in the row of column sums of a cluster. *)
Lemma grouped_row_lookup (features : list string) (idx : list nat) (key : Z)
      (f : nat -> Z) (col : string) (j : nat) :
  Forall2 (fun c i => Frame.index_of c ("Quantity" :: features) = Some i)
          ("Quantity" :: features) idx ->
  ~ In "cluster" features -> ~ In "Quantity" features ->
  Frame.index_of col features = Some j ->
  Frame.lookup col ("cluster" :: "Quantity" :: features) (key :: map f idx)
  = Ok (f (S j)).
Proof.
  intros Hidx Hc Hq Hj.
  assert (Hin : In col features)
    by (apply index_of_nth_error in Hj; eapply nth_error_In; eauto).
  assert (E1 : String.eqb col "cluster" = false)
    by (apply String.eqb_neq; intros ->; auto).
  assert (E2 : String.eqb col "Quantity" = false)
    by (apply String.eqb_neq; intros ->; auto).
  assert (Hpos : Frame.index_of col ("Quantity" :: features) = Some (S j))
    by (simpl; rewrite E2, Hj; reflexivity).
  destruct (Forall2_nth_error _ _ _ (S j) col Hidx) as (b & Hb & HR).
  { simpl. now apply index_of_nth_error. }
  rewrite Hpos in HR. inversion HR; subst b.
  unfold Frame.lookup. simpl Frame.index_of. rewrite E1, E2, Hj.
  simpl option_map. unfold Frame.cell. cbn [nth]. f_equal.
  apply nth_error_nth. now apply map_nth_error.
Qed.

Lemma wrap64_small (z : Z) : - 2 ^ 63 <= z < 2 ^ 63 -> wrap64 z = z.
Proof. intros H. unfold wrap64. rewrite Z.mod_small; lia. Qed.

Lemma binary_sum (l : list Z) :
  Forall (fun v => v = 0 \/ v = 1) l ->
  0 <= fold_right Z.add 0 l <= Z.of_nat (List.length l)
  /\ (fold_right Z.add 0 l = Z.of_nat (List.length l)
      <-> forallb (fun v => v =? 1) l = true).
Proof.
  induction 1 as [|v l Hv _ IH].
  - simpl. split; [lia | tauto].
  - destruct IH as [Hb Hiff].
    cbn [fold_right List.length forallb]. rewrite Nat2Z.inj_succ.
    split; [destruct Hv; subst; lia|].
    destruct Hv as [-> | ->].
    + change (0 =? 1) with false. cbn [andb]. split; [lia | discriminate].
    + change (1 =? 1) with true. cbn [andb]. rewrite <- Hiff. lia.
Qed.

Lemma cell_binary (row : list Z) (j : nat) :
  Forall (fun v => v = 0 \/ v = 1) (skipn 2 row) ->
  Frame.cell (2 + j) row = 0 \/ Frame.cell (2 + j) row = 1.
Proof.
  intros H. unfold Frame.cell.
  destruct row as [|a [|b r]]; simpl; [now left | destruct j; now left |].
  simpl in H. destruct (nth_in_or_default j r 0) as [Hin | ->]; [|now left].
  rewrite Forall_forall in H. exact (H _ Hin).
Qed.

Lemma forallb_mapped {A B : Type} (f : A -> B) (p : B -> bool) (l : list A) :
  forallb p (map f l) = forallb (fun x => p (f x)) l.
Proof.
  induction l as [|x l IH]; simpl; [reflexivity | now rewrite IH].
Qed.

(** Two column sums of 0/1 cells are equal, one of them of a column of
    ones, exactly when the other column holds ones only. *)
Lemma column_sum_of_ones (rows : list (list Z)) (j jl : nat) :
  Forall (fun row => Forall (fun v => v = 0 \/ v = 1) (skipn 2 row)) rows ->
  Forall (fun row => Frame.cell (2 + jl) row = 1) rows ->
  Z.of_nat (List.length rows) < 2 ^ 63 ->
  (sum_int64 (map (Frame.cell (2 + j)) rows)
   =? sum_int64 (map (Frame.cell (2 + jl)) rows))
  = forallb (fun row => Frame.cell (2 + j) row =? 1) rows.
Proof.
  intros Hbin Hlego Hsize.
  assert (Hb : Forall (fun v => v = 0 \/ v = 1) (map (Frame.cell (2 + j)) rows)).
  { apply Forall_map. revert Hbin. apply Forall_impl. intros row.
    apply cell_binary. }
  assert (Hl : Forall (fun v => v = 0 \/ v = 1) (map (Frame.cell (2 + jl)) rows)).
  { apply Forall_map. revert Hlego. apply Forall_impl. intros row ->. now right. }
  destruct (binary_sum _ Hb) as [Hb1 Hb2].
  destruct (binary_sum _ Hl) as [Hl1 Hl2].
  rewrite length_map in *.
  assert (Hones : forallb (fun v => v =? 1) (map (Frame.cell (2 + jl)) rows) = true).
  { apply forallb_forall. intros v Hv. apply in_map_iff in Hv.
    destruct Hv as (row & <- & Hrow). rewrite Forall_forall in Hlego.
    rewrite (Hlego _ Hrow). reflexivity. }
  apply Hl2 in Hones. unfold sum_int64.
  rewrite !wrap64_small by lia. rewrite Hones.
  rewrite <- (forallb_mapped (Frame.cell (2 + j)) (fun v => v =? 1)).
  destruct (forallb (fun v => v =? 1) (map (Frame.cell (2 + j)) rows)) eqn:E.
  - apply Z.eqb_eq. now apply Hb2.
  - apply Z.eqb_neq. intros Heq. apply Hb2 in Heq. congruence.
Qed.

Lemma forallb_pointwise {A : Type} (p q : A -> bool) (l : list A) :
  (forall x, p x = q x) -> forallb p l = forallb q l.
Proof.
  intros H. induction l as [|x l IH]; simpl; [reflexivity | now rewrite H, IH].
Qed.

(** The terms that the label lambda picks in the row of column sums of a
    cluster: those, other than the root, that all rows of the cluster
    carry. *)
Lemma qualifying_common (features : list string) (idx : list nat) (key : Z)
      (rows : list (list Z)) (jl : nat) (sub terms : list string) :
  Forall2 (fun c i => Frame.index_of c ("Quantity" :: features) = Some i)
          ("Quantity" :: features) idx ->
  ~ In "cluster" features -> ~ In "Quantity" features ->
  Frame.index_of "Lego" features = Some jl ->
  Forall (fun row => Forall (fun v => v = 0 \/ v = 1) (skipn 2 row)) rows ->
  Forall (fun row => Spec.carries features "Lego" row = true) rows ->
  Z.of_nat (List.length rows) < 2 ^ 63 ->
  incl sub features ->
  Cluster.qualifying sub ("cluster" :: "Quantity" :: features)
                     (key :: map (fun i => sum_int64 (map (Frame.cell (S i)) rows))
                                 idx)
  = Ok terms ->
  terms = filter (fun t => negb (String.eqb t "Lego")
                           && forallb (Spec.carries features t) rows) sub.
Proof.
  intros Hidx Hc Hq Hjl Hbin Hlego Hsize.
  assert (Hones : Forall (fun row => Frame.cell (2 + jl) row = 1) rows).
  { revert Hlego. apply Forall_impl. intros row. unfold Spec.carries.
    rewrite Hjl. apply Z.eqb_eq. }
  revert terms. induction sub as [|col sub IH]; intros terms Hincl H.
  - simpl in H. inversion H. reflexivity.
  - assert (Hsub : incl sub features) by (intros x Hx; apply Hincl; now right).
    cbn [Cluster.qualifying filter] in H |- *.
    destruct (String.eqb col "Lego") eqn:El; cbn [negb andb]; [now apply IH|].
    destruct (index_of_In_Some col features (Hincl col (or_introl eq_refl)))
      as (j & Hj).
    rewrite (grouped_row_lookup features idx key _ col j Hidx Hc Hq Hj) in H.
    rewrite (grouped_row_lookup features idx key _ "Lego" jl Hidx Hc Hq Hjl) in H.
    cbn [bind] in H.
    destruct (Cluster.qualifying sub _ _) as [rest|e]; cbn [bind] in H;
      [|discriminate].
    inversion H as [Ht]. rewrite (IH rest Hsub eq_refl).
    change (S (S j)) with (2 + j)%nat. change (S (S jl)) with (2 + jl)%nat.
    rewrite (column_sum_of_ones rows j jl Hbin Hones Hsize).
    replace (forallb (Spec.carries features col) rows)
      with (forallb (fun row => Frame.cell (2 + j) row =? 1) rows);
      [reflexivity|].
    apply forallb_pointwise. intros row. unfold Spec.carries. now rewrite Hj.
Qed.

(** X19.  What the label of a cluster says.  On an encoded frame (DesignID,
    Quantity, then term columns of 0/1 cells, none of them named Quantity or
    cluster, with the root term Lego set in every row), each summary of a
    clustering is labelled with the terms, other than the root, that every
    row of its cluster carries, in column order and joined by a comma and a
    space; a cluster whose rows share no term is labelled Other. *)
Theorem cluster_label_names_the_common_terms
      (kmeans_labels : list (list Z) -> list Z -> Z -> option Z -> list Z)
      (input_df df' : Frame.DataFrame) (features : list string)
      (k : Z) (seed : option Z) (cs : list Cluster.ClusterSummary) :
  Frame.columns input_df = "DesignID" :: "Quantity" :: features ->
  ~ In "cluster" features -> ~ In "Quantity" features ->
  In "Lego" features ->
  Forall (fun row => List.length row = (2 + List.length features)%nat)
         (Frame.data input_df) ->
  Forall (fun row => Forall (fun v => v = 0 \/ v = 1) (skipn 2 row))
         (Frame.data input_df) ->
  Forall (fun row => Spec.carries features "Lego" row = true)
         (Frame.data input_df) ->
  Z.of_nat (List.length (Frame.data input_df)) < 2 ^ 63 ->
  Sample.assigns_below_k kmeans_labels ->
  Cluster.kmeans_clusters kmeans_labels input_df k seed = Ok (df', cs) ->
  let labels := kmeans_labels (Frame.data (Frame.iloc_from 2 input_df))
                              (map (Frame.cell 1) (Frame.data input_df)) k seed in
  forall c, In c cs ->
    exists key,
      In key labels
      /\ let terms := Spec.common_terms
                        features
                        (Spec.members key (combine (Frame.data input_df) labels)) in
         Cluster.label c = if String.eqb (join ", " terms) "" then "Other"
                           else join ", " terms.
Proof.
  intros Hcols Hc Hq Hl Hw Hbin Hlego Hsize Hkm H labels c Hin.
  destruct (kmeans_clusters_summary_rows _ _ _ _ _ _ _ Hcols Hc Hw Hkm H)
    as (labels' & summaries & idx & El & Hlen & Ecs & Hidx & HF).
  subst labels'. fold labels in HF, Hlen.
  assert (Hperm : Permutation cs summaries) by (rewrite Ecs; apply sort_by_perm).
  apply (Permutation_in _ Hperm) in Hin.
  destruct (Forall2_pick_r _ _ _ _ HF Hin)
    as (key & Hkey & _ & _ & _ & terms & Hterms & Hlabel).
  exists key. split; [now apply sorted_keys_In|].
  destruct (index_of_In_Some "Lego" features Hl) as (jl & Hjl).
  set (rows := Spec.members key (combine (Frame.data input_df) labels)) in *.
  assert (Hrows : forall row, In row rows -> In row (Frame.data input_df)).
  { intros row Hrow. unfold rows, Spec.members in Hrow.
    apply in_map_iff in Hrow. destruct Hrow as ([r l] & <- & Hrl).
    apply filter_In in Hrl. destruct Hrl as [Hrl _].
    exact (in_combine_l _ _ _ _ Hrl). }
  assert (Hsub : forall (Q : list Z -> Prop),
             Forall Q (Frame.data input_df) -> Forall Q rows).
  { intros Q HQ. apply Forall_forall. intros row Hrow.
    rewrite Forall_forall in HQ. exact (HQ _ (Hrows _ Hrow)). }
  assert (Hn : Z.of_nat (List.length rows) < 2 ^ 63).
  { assert (List.length rows <= List.length (Frame.data input_df))%nat; [|lia].
    unfold rows, Spec.members. rewrite length_map.
    etransitivity; [apply filter_length_le|].
    rewrite length_combine. lia. }
  cbv zeta. unfold Spec.common_terms.
  rewrite <- (qualifying_common features idx key rows jl features terms
                Hidx Hc Hq Hjl (Hsub _ Hbin) (Hsub _ Hlego) Hn
                (fun x Hx => Hx) Hterms).
  exact Hlabel.
Qed.

Lemma cluster_label_names_the_common_terms_witness :
  Forall (fun c => Cluster.label c = "Technic" \/ Cluster.label c = "Brick")
         Sample.clustered_summaries.
Proof.
  apply Forall_forall. intros c Hin.
  destruct (cluster_label_names_the_common_terms
              Sample.feature_assignment Sample.three_parts_frame
              Sample.clustered_frame ["Lego"; "Technic"; "Brick"; "Gears"; "Pins"]
              2 None Sample.clustered_summaries) with (c := c)
    as (key & Hkey & Hlabel).
  - reflexivity.
  - simpl. intros H. repeat (destruct H as [H|H]; [discriminate|]). exact H.
  - simpl. intros H. repeat (destruct H as [H|H]; [discriminate|]). exact H.
  - simpl. tauto.
  - repeat constructor.
  - repeat (apply Forall_cons || apply Forall_nil);
      ((left; reflexivity) || (right; reflexivity)).
  - repeat constructor.
  - vm_compute. reflexivity.
  - exact feature_assignment_below_k.
  - vm_compute. reflexivity.
  - exact Hin.
  - vm_compute in Hkey. rewrite Hlabel.
    destruct Hkey as [<-|[<-|[<-|[]]]]; vm_compute; tauto.
Defined.

(** ** From the upload to the clusters *)

Lemma merge_with_database_ids (input_df : Adapter.PartTable)
      (db : Database.table) :
  NoDup (map Database.DesignID db) ->
  map Inventory.DesignID (Inventory.merge_with_database input_df db)
  = map fst input_df.
Proof.
  intros Hnd. pose proof (merge_with_database_rows input_df db Hnd) as H.
  induction H as [|r p l l' (Hp & _) _ IH]; simpl; [reflexivity|].
  now rewrite Hp, IH.
Qed.

(** X20.  Every part of an upload ends in one cluster.  With a cache of
    unique ids and no label term named cluster, after a load that returns and
    a clustering of the loaded inventory that returns, the identities listed
    by the cluster summaries, read back as the renderer's image query reads
    them, are the DesignIDs of the cleaned upload, each of its records
    once. *)
Theorem every_uploaded_part_in_one_cluster
        (remote : BrickArchitect.Remote)
        (re_compile : string -> result (string -> bool))
        (kmeans_labels : list (list Z) -> list Z -> Z -> option Z -> list Z)
        (now : Database.datetime) (raw : Adapter.RawTable)
        (db db' : Database.table) (loaded inventory : Inventory.State)
        (n : Z) (seed : option Z) :
  NoDup (map Database.DesignID db) ->
  Sample.assigns_below_k kmeans_labels ->
  Inventory.load remote re_compile now (Some raw) db = Ok (loaded, db') ->
  ~ In "cluster" (Frame.columns (Inventory.df loaded)) ->
  Inventory.cluster kmeans_labels loaded n seed = Ok inventory ->
  exists cs,
    Inventory.clusters inventory = Some cs
    /\ Permutation
         (flat_map (fun c => Inventory.sql_id_list (Cluster.DesignIDs c)) cs)
         (map fst (Adapter.clean_steps raw)).
Proof.
  intros Hnd Hkm Hload Hfresh Hcl. unfold Inventory.load in Hload.
  destruct (Inventory.fetch_missing_parts remote now _ db)
    as [[df1 db1]|e] eqn:Hfetch; cbn [bind fst snd] in Hload; [|discriminate].
  destruct (Inventory.update_images remote now df1 db1) as [updated|e];
    cbn [bind] in Hload; [|discriminate].
  destruct (Inventory.create_labels_hirarchy re_compile df1)
    as [frame|e] eqn:Hframe; cbn [bind] in Hload; [|discriminate].
  inversion Hload; subst loaded db'. clear Hload. cbn [Inventory.df] in *.
  destruct (create_labels_hirarchy_columns _ _ _ Hframe) as (la & _ & Hcols).
  destruct (create_labels_hirarchy_rows _ _ _ Hframe)
    as (_ & Hwidth & Hids & _ & _).
  destruct (fetch_missing_parts_Ok _ _ _ _ _ _ Hfetch) as (_ & _ & _ & Hdf1).
  rewrite (merge_with_database_ids _ _ Hnd) in Hdf1.
  rewrite Hdf1 in Hids.
  unfold Inventory.cluster in Hcl. cbn [Inventory.df] in Hcl.
  destruct (Cluster.kmeans_clusters kmeans_labels frame n seed)
    as [[df' cs]|e] eqn:Hk; cbn [bind] in Hcl; [|discriminate].
  inversion Hcl; subst inventory. clear Hcl. exists cs.
  split; [reflexivity|]. rewrite <- Hids.
  apply (summaries_partition_rows kmeans_labels frame df'
                                  (Inventory.hierarchy_columns la) n seed cs).
  - exact Hcols.
  - intros Hin. apply Hfresh. rewrite Hcols. right. right. exact Hin.
  - rewrite Hcols in Hwidth. exact Hwidth.
  - pose proof (clean_steps_nonneg raw) as Hpos.
    apply Forall_forall. intros row Hrow.
    assert (Hin : In (Frame.cell 0 row) (map fst (Adapter.clean_steps raw)))
      by (rewrite <- Hids; now apply in_map).
    apply in_map_iff in Hin. destruct Hin as (r & <- & Hr).
    rewrite Forall_forall in Hpos. exact (Hpos _ Hr).
  - exact Hkm.
  - exact Hk.
Qed.

Lemma every_uploaded_part_in_one_cluster_witness :
  exists cs,
    Permutation
      (flat_map (fun c => Inventory.sql_id_list (Cluster.DesignIDs c)) cs)
      [2780; 3001; 3648].
Proof.
  pose (raw := [("3648", 1); ("2780", 3); ("3001", 4)]).
  pose (now := Sample.at_time (Sample.day 2025 3 1) 0).
  pose (r := match Inventory.load Sample.error_page_remote Sample.literal_compile
                                  now (Some raw) Sample.technic_cache with
             | Ok r => r
             | Raise _ => ({| Inventory.df := Sample.three_parts_frame;
                              Inventory.clusters := None |}, [])
             end).
  pose (inv := match Inventory.cluster Sample.feature_assignment (fst r) 2
                                       (Some 42) with
               | Ok i => i
               | Raise _ => fst r
               end).
  destruct (every_uploaded_part_in_one_cluster
              Sample.error_page_remote Sample.literal_compile
              Sample.feature_assignment now raw Sample.technic_cache (snd r)
              (fst r) inv 2 (Some 42)) as (cs & _ & Hperm).
  - repeat constructor; simpl; intros H;
      repeat (destruct H as [H|H]; [discriminate|]); exact H.
  - exact feature_assignment_below_k.
  - vm_compute. reflexivity.
  - vm_compute. intros H.
    repeat (destruct H as [H|H]; [discriminate|]). exact H.
  - vm_compute. reflexivity.
  - exists cs. exact Hperm.
Defined.
